(** * VIP placement and reconciliation: go-controller/pkg/ovn/endpoints.go

    A shallow embedding of [getLbEndpoints], [AddEndpoints],
    [handleNodePortLB], [deleteEndpoints], [hasHostEndpoints] and
    [svcNeedsIdling], and the properties of them that the specification
    states.

    Conventions of the embedding.
    - A Go [int32] is a [Z]; no arithmetic is done on ports, so no
      wrap-around appears.
    - A Go slice is a [list]; the [nil] slice is [[]].
    - A Go [error] is an [option]: [None] is [nil].
    - A Go [map] is a stdpp [gmap]; an assignment through a [nil] inner map
      is a run-time panic and is modelled as such.
    - Calls that leave this file (the watch factory, the load-balancer
      helpers of the controller, [klog.Errorf]) are recorded, in order, in a
      trace of events.  What such a call returns is given by the controller
      record, as a function of the call's arguments and of everything that
      happened before it, so the results of two identical calls may differ.
    - [klog.Infof] and [klog.V(5).Infof] lines are diagnostics with no
      influence on control flow and are left out; [klog.Errorf] and
      [klog.Error] are events of the trace. *)

From stdpp Require Import gmap strings list.
From Stdlib Require Import ZArith String Ascii Bool DecimalString.

Open Scope string_scope.
Open Scope Z_scope.
Open Scope list_scope.

(** ** Errors and formatted messages *)

(** A value built by [fmt.Errorf] (or returned by a collaborator) is kept
    as its format string and operands. *)
Inductive GoError : Type :=
| MkError (format : string) (args : list fmtArg)
with fmtArg : Type :=
| ArgString (s : string)
| ArgInt (n : Z)
| ArgError (e : GoError).

(** Go's [error] interface value: [None] is [nil]. *)
Definition error : Type := option GoError.

Definition fmt_Errorf (format : string) (args : list fmtArg) : error :=
  Some (MkError format args).

(** ** The Kubernetes API objects read by the file (k8s.io/api/core/v1) *)

(** [kapi.Protocol] is a string type; any string can stand in a port. *)
Abbreviation Protocol := string (only parsing).
Definition ProtocolTCP : Protocol := "TCP".
Definition ProtocolUDP : Protocol := "UDP".
Definition ProtocolSCTP : Protocol := "SCTP".

Module EndpointAddress.
Record t : Type := mk { IP : string }.
End EndpointAddress.

Module EndpointPort.
Record t : Type := mk { Name : string; Protocol : Protocol; Port : Z }.
End EndpointPort.

Module EndpointSubset.
Record t : Type := mk {
  Addresses : list EndpointAddress.t;
  Ports : list EndpointPort.t
}.
End EndpointSubset.

Module Endpoints.
Record t : Type := mk {
  Name : string;
  Namespace : string;
  Subsets : list EndpointSubset.t
}.
End Endpoints.

Module ServicePort.
Record t : Type := mk {
  Name : string;
  Protocol : Protocol;
  Port : Z;
  NodePort : Z
}.
End ServicePort.

Module LoadBalancerIngress.
Record t : Type := mk { IP : string }.
End LoadBalancerIngress.

Module ServiceSpec.
Record t : Type := mk {
  Ports : list ServicePort.t;
  ClusterIP : string;
  Type_ : string;
  ExternalIPs : list string
}.
End ServiceSpec.

Module Service.
(** [Ingress] is [Status.LoadBalancer.Ingress]. *)
Record t : Type := mk {
  Name : string;
  Namespace : string;
  Annotations : gmap string string;
  Spec : ServiceSpec.t;
  Ingress : list LoadBalancerIngress.t
}.
End Service.

Module Namespace.
Record t : Type := mk { Name : string }.
End Namespace.

Module Node.
Record t : Type := mk { Name : string }.
End Node.

(** ** lbEndpoints and the table built by getLbEndpoints *)

Module lbEndpoints.
Record t : Type := mk { IPs : list string; Port : Z }.
End lbEndpoints.

(** [map[kapi.Protocol]map[string]lbEndpoints] *)
Abbreviation protoPortMapT := (gmap Protocol (gmap string lbEndpoints.t)).

(** ** package net (Go standard library) *)

(** [net.IP] is a byte slice; [net.ParseIP] returns [nil] on a string that
    is not an address. *)
Definition IP : Type := list Z.

Module IPNet.
Record t : Type := mk { IP : IP; Mask : list Z }.
End IPNet.

Module CIDRNetworkEntry.
Record t : Type := mk { CIDR : IPNet.t; HostSubnetLength : Z }.
End CIDRNetworkEntry.

(** ** Events *)

(** One entry of the trace: a call that leaves the file, with its
    arguments and what it returned, or an error-level log line. *)
Inductive Event : Type :=
| EvGetService (namespace name : string) (r : Service.t + GoError)
| EvGetNamespaces (r : list Namespace.t * error)
| EvGetEndpoints (namespace : string) (r : list Endpoints.t * error)
| EvRequestFullSync (r : error)
| EvAddServiceToIdlingBalancer (svc : Service.t)
| EvDeleteServiceFromBalancers (svc : Service.t)
| EvDeleteServiceFromIdlingBalancer (svc : Service.t)
| EvCreatePerNodeVIPs (svcIPs : list string) (protocol : Protocol)
    (sourcePort : Z) (targetIPs : list string) (targetPort : Z) (r : error)
| EvDeleteNodeVIPs (svcIPs : list string) (protocol : Protocol) (sourcePort : Z)
| EvGetLoadBalancer (protocol : Protocol) (r : string * error)
| EvCreateLoadBalancerVIPs (loadBalancer : string) (sourceIPs : list string)
    (sourcePort : Z) (targetIPs : list string) (targetPort : Z) (r : error)
| EvDeleteLoadBalancerVIP (loadBalancer vip : string) (r : error)
| EvConfigureLoadBalancer (lb serviceIP : string) (port : Z)
    (targets : list string) (r : error)
| EvGetOvnGateways (r : list string * error)
| EvGetGatewayLoadBalancer (gatewayRouter : string) (protocol : Protocol)
    (r : string * error)
| EvGetWorkerLoadBalancer (node : string) (protocol : Protocol)
    (r : string * error)
| EvGetGatewayPhysicalIPs (gatewayRouter : string) (r : list string * error)
| EvKlogErrorf (format : string) (args : list fmtArg)
| EvKlogError (args : list fmtArg).

(** Everything that happened before a call, oldest first. *)
Definition History : Type := list Event.

(** ** Configuration and collaborators *)

(** [config.GatewayMode] is a string type. *)
Definition GatewayMode : Type := string.

(** Modelled from the spec: [config.GatewayModeShared] is declared outside
    this file; the spec names the mode "shared". *)
Definition GatewayModeShared : GatewayMode := "shared".

(** The package-level configuration read by the file: [config.Gateway.Mode],
    [config.Default.ClusterSubnets], [config.Kubernetes.OVNEmptyLbEvents]. *)
Module config.
Record t : Type := mk {
  Gateway_Mode : GatewayMode;
  Default_ClusterSubnets : list CIDRNetworkEntry.t;
  Kubernetes_OVNEmptyLbEvents : bool
}.
End config.

(** Functions and constants of other packages and of other files of this
    package, which the file calls and which are not part of it. *)
Module Externals.
Record t : Type := mk {
  (* package net *)
  net_ParseIP : string -> IP;
  IPNet_Contains : IPNet.t -> IP -> bool;
  (* package util *)
  util_IsClusterIPSet : Service.t -> bool;
  util_ServiceTypeHasNodePort : Service.t -> bool;
  util_ServiceTypeHasClusterIP : Service.t -> bool;
  util_JoinHostPortInt32 : string -> Z -> string;
  util_GetWorkerFromGatewayRouter : string -> string;
  (* package types *)
  types_GWRouterPrefix : string;
  (* package loadbalancer *)
  loadbalancer_GetWorkerLoadBalancer :
    History -> string -> Protocol -> string * error;
  (* package ovn, other files *)
  IdledServiceAnnotationSuffix : string;
  isGatewayInterfaceNone : bool
}.
End Externals.

(** The receiver [ovn *Controller]: the fields the file reads, and what the
    methods defined in other files return.  Methods without a result
    ([addServiceToIdlingBalancer], [deleteServiceFromBalancers],
    [deleteServiceFromIdlingBalancer], [deleteNodeVIPs]) need no entry: a
    call of one is an event and nothing else. *)
Module Controller.
Record t : Type := mk {
  SCTPSupport : bool;
  (* [svcController]: [None] is [nil]; otherwise its [RequestFullSync] *)
  svcController : option (History -> error);
  (* [GetService] returns a service ([inl]) or a non-nil error ([inr]) *)
  watchFactory_GetService :
    History -> string -> string -> Service.t + GoError;
  watchFactory_GetNamespaces : History -> list Namespace.t * error;
  watchFactory_GetEndpoints : History -> string -> list Endpoints.t * error;
  createPerNodeVIPs :
    History -> list string -> Protocol -> Z -> list string -> Z -> error;
  getLoadBalancer : History -> Protocol -> string * error;
  createLoadBalancerVIPs :
    History -> string -> list string -> Z -> list string -> Z -> error;
  deleteLoadBalancerVIP : History -> string -> string -> error;
  configureLoadBalancer :
    History -> string -> string -> Z -> list string -> error;
  getOvnGateways : History -> list string * error;
  getGatewayLoadBalancer : History -> string -> Protocol -> string * error;
  getGatewayPhysicalIPs : History -> string -> list string * error
}.
End Controller.

(** ** The monad of the embedding *)

(** A computation reads the history so far and either panics ([None]) or
    returns a value together with the events it emitted, oldest first. *)
Definition M (A : Type) : Type := History -> option (A * list Event).

Definition ret {A : Type} (a : A) : M A := fun _ => Some (a, []).

Definition bind {A B : Type} (c : M A) (k : A -> M B) : M B :=
  fun h =>
    match c h with
    | None => None
    | Some (a, t1) =>
        match k a (h ++ t1) with
        | None => None
        | Some (b, t2) => Some (b, t1 ++ t2)
        end
    end.

(** A run-time panic. *)
Definition panic {A : Type} : M A := fun _ => None.

(** A call whose result [f] depends on the history; [ev] records it. *)
Definition call {A : Type} (f : History -> A) (ev : A -> Event) : M A :=
  fun h => Some (f h, [ev (f h)]).

(** A call without a result, or a log line. *)
Definition emit (e : Event) : M unit := fun _ => Some (tt, [e]).

Declare Scope go_scope.
Delimit Scope go_scope with go.
Notation "x <- c ;; k" := (bind c (fun x => k))
  (at level 100, c at next level, right associativity) : go_scope.
Notation "c ;; k" := (bind c (fun _ => k))
  (at level 100, right associativity) : go_scope.
Open Scope go_scope.

(** [for _, x := range xs { body }] where the body neither breaks out of
    the loop nor returns from the function; [continue] ends the body. *)
Fixpoint for_range {A : Type} (xs : list A) (body : A -> M unit) : M unit :=
  match xs with
  | [] => ret tt
  | x :: rest => body x ;; for_range rest body
  end.

(** The same loop threading a local variable [s] that the body updates. *)
Fixpoint for_range_acc {A S : Type} (xs : list A) (body : S -> A -> M S)
    (s : S) : M S :=
  match xs with
  | [] => ret s
  | x :: rest => s' <- body s x ;; for_range_acc rest body s'
  end.

(** The same loop when the body may return from the enclosing function:
    [Some r] is [return r], [None] is falling out of the loop. *)
Fixpoint for_range_return {A R : Type} (xs : list A)
    (body : A -> M (option R)) : M (option R) :=
  match xs with
  | [] => ret None
  | x :: rest =>
      r <- body x ;;
      match r with
      | Some v => ret (Some v)
      | None => for_range_return rest body
      end
  end.

Definition klog_Errorf (format : string) (args : list fmtArg) : M unit :=
  emit (EvKlogErrorf format args).

Definition klog_Error (args : list fmtArg) : M unit :=
  emit (EvKlogError args).

(** ** Helpers of other packages with a contract in the specification *)

(** Modelled from the spec: [util.ValidatePort] is defined outside this
    file.  The spec (Endpoint Aggregator) gives its contract: the
    combination is valid when the protocol is one of the three known
    values and the port is non-zero.  The text of the errors is not
    specified; only their being non-nil matters here. *)
Definition ValidatePort (proto : Protocol) (port : Z) : error :=
  if negb (String.eqb proto ProtocolTCP || String.eqb proto ProtocolUDP
           || String.eqb proto ProtocolSCTP)
  then fmt_Errorf "protocol %s is not a valid protocol" [ArgString proto]
  else if port =? 0
  then fmt_Errorf "port number %d is not valid" [ArgInt port]
  else None.

(** [strings.HasSuffix] of the Go standard library. *)
Definition strings_HasSuffix (s suffix : string) : bool :=
  (String.length suffix <=? String.length s)%nat
  && String.eqb
       (substring (String.length s - String.length suffix)
          (String.length suffix) s)
       suffix.

(** ** getLbEndpoints (lines 22-47) *)

(** [protoPortMap[proto][name]] read with the comma-ok form: a missing
    protocol yields a nil inner map, in which nothing is found. *)
Definition protoPortMap_lookup (protoPortMap : protoPortMapT)
    (proto : Protocol) (name : string) : option lbEndpoints.t :=
  match protoPortMap !! proto with
  | Some inner => inner !! name
  | None => None
  end.

(** [protoPortMap[proto][name] = v]: assignment to an entry of a nil inner
    map panics. *)
Definition protoPortMap_assign (protoPortMap : protoPortMapT)
    (proto : Protocol) (name : string) (v : lbEndpoints.t) : M protoPortMapT :=
  match protoPortMap !! proto with
  | Some inner => ret (<[proto := <[name := v]> inner]> protoPortMap)
  | None => panic
  end.

(** The body of the innermost loop (lines 31-41). *)
Definition getLbEndpoints_port (ip : EndpointAddress.t)
    (protoPortMap : protoPortMapT) (port : EndpointPort.t) : M protoPortMapT :=
  match ValidatePort port.(EndpointPort.Protocol) port.(EndpointPort.Port) with
  | Some err =>
      klog_Errorf "Invalid endpoint port: %s: %v"
        [ArgString port.(EndpointPort.Name); ArgError err] ;;
      ret protoPortMap
  | None =>
      let ips :=
        match protoPortMap_lookup protoPortMap port.(EndpointPort.Protocol)
                port.(EndpointPort.Name) with
        | Some lbEps => lbEps.(lbEndpoints.IPs) ++ [ip.(EndpointAddress.IP)]
        | None => [ip.(EndpointAddress.IP)]
        end in
      protoPortMap_assign protoPortMap port.(EndpointPort.Protocol)
        port.(EndpointPort.Name)
        (lbEndpoints.mk ips port.(EndpointPort.Port))
  end.

Definition getLbEndpoints_init : protoPortMapT :=
  <[ProtocolTCP := ∅]> (<[ProtocolUDP := ∅]> (<[ProtocolSCTP := ∅]> ∅)).

Definition getLbEndpoints (ep : Endpoints.t) : M protoPortMapT :=
  for_range_acc ep.(Endpoints.Subsets)
    (fun protoPortMap s =>
       for_range_acc s.(EndpointSubset.Addresses)
         (fun protoPortMap ip =>
            for_range_acc s.(EndpointSubset.Ports)
              (getLbEndpoints_port ip) protoPortMap)
         protoPortMap)
    getLbEndpoints_init.

(** ** hasHostEndpoints (lines 301-315) *)

(** The inner loop: [found] after ranging over the cluster subnets. *)
Fixpoint hasHostEndpoints_found (ext : Externals.t)
    (clusterSubnets : list CIDRNetworkEntry.t) (endpointIP : string) : bool :=
  match clusterSubnets with
  | [] => false
  | clusterNet :: rest =>
      if ext.(Externals.IPNet_Contains) clusterNet.(CIDRNetworkEntry.CIDR)
           (ext.(Externals.net_ParseIP) endpointIP)
      then true
      else hasHostEndpoints_found ext rest endpointIP
  end.

Fixpoint hasHostEndpoints (cfg : config.t) (ext : Externals.t)
    (endpointIPs : list string) : bool :=
  match endpointIPs with
  | [] => false
  | endpointIP :: rest =>
      if negb (hasHostEndpoints_found ext
                 cfg.(config.Default_ClusterSubnets) endpointIP)
      then true
      else hasHostEndpoints cfg ext rest
  end.

(** ** svcNeedsIdling (lines 318-329) *)

(** Ranging over a map visits every key once, in no fixed order; the loop
    returns [true] at the first key with the suffix, so its result is that
    of [existsb] over the entries in any order. *)
Definition svcNeedsIdling (cfg : config.t) (ext : Externals.t)
    (annotations : gmap string string) : bool :=
  if negb cfg.(config.Kubernetes_OVNEmptyLbEvents) then false
  else
    existsb
      (fun kv => strings_HasSuffix kv.1 ext.(Externals.IdledServiceAnnotationSuffix))
      (map_to_list annotations).

(** ** AddEndpoints (lines 50-142) *)

Section AddEndpoints.
Variables (cfg : config.t) (ext : Externals.t) (ovn : Controller.t).

Definition call_createPerNodeVIPs (svcIPs : list string) (protocol : Protocol)
    (sourcePort : Z) (targetIPs : list string) (targetPort : Z) : M error :=
  call
    (fun h =>
       ovn.(Controller.createPerNodeVIPs) h svcIPs protocol sourcePort
         targetIPs targetPort)
    (EvCreatePerNodeVIPs svcIPs protocol sourcePort targetIPs targetPort).

Definition call_getLoadBalancer (protocol : Protocol) : M (string * error) :=
  call (fun h => ovn.(Controller.getLoadBalancer) h protocol)
    (EvGetLoadBalancer protocol).

Definition call_createLoadBalancerVIPs (loadBalancer : string)
    (sourceIPs : list string) (sourcePort : Z) (targetIPs : list string)
    (targetPort : Z) : M error :=
  call
    (fun h =>
       ovn.(Controller.createLoadBalancerVIPs) h loadBalancer sourceIPs
         sourcePort targetIPs targetPort)
    (EvCreateLoadBalancerVIPs loadBalancer sourceIPs sourcePort targetIPs
       targetPort).

Definition call_deleteLoadBalancerVIP (loadBalancer vip : string) : M error :=
  call (fun h => ovn.(Controller.deleteLoadBalancerVIP) h loadBalancer vip)
    (EvDeleteLoadBalancerVIP loadBalancer vip).

Definition call_GetService (namespace name : string)
    : M (Service.t + GoError) :=
  call (fun h => ovn.(Controller.watchFactory_GetService) h namespace name)
    (EvGetService namespace name).

(** Lines 124-138: the external-IP and ingress VIPs of one service port. *)
Definition AddEndpoints_externalAndIngress (svc : Service.t)
    (svcPort : ServicePort.t) (lbEps : lbEndpoints.t) : M unit :=
  (if (0 <? List.length svc.(Service.Spec).(ServiceSpec.ExternalIPs))%nat then
     err <- call_createPerNodeVIPs svc.(Service.Spec).(ServiceSpec.ExternalIPs)
              svcPort.(ServicePort.Protocol) svcPort.(ServicePort.Port)
              lbEps.(lbEndpoints.IPs) lbEps.(lbEndpoints.Port) ;;
     match err with
     | Some e =>
         klog_Errorf
           "Error in creating ExternalIP for svc %s, target port: %d - %v\n"
           [ArgString svc.(Service.Name); ArgInt lbEps.(lbEndpoints.Port);
            ArgError e]
     | None => ret tt
     end
   else ret tt) ;;
  for_range svc.(Service.Ingress)
    (fun ing =>
       if String.eqb ing.(LoadBalancerIngress.IP) "" then ret tt
       else
         err <- call_createPerNodeVIPs [ing.(LoadBalancerIngress.IP)]
                  svcPort.(ServicePort.Protocol) svcPort.(ServicePort.Port)
                  lbEps.(lbEndpoints.IPs) lbEps.(lbEndpoints.Port) ;;
         match err with
         | Some e =>
             klog_Errorf
               "Error in creating Ingress LB IP for svc %s, target port: %d - %v\n"
               [ArgString svc.(Service.Name); ArgInt lbEps.(lbEndpoints.Port);
                ArgError e]
         | None => ret tt
         end).

(** Lines 95-139: the work of one service port when the service type has a
    cluster IP.  A [continue] of the source ends the body with nothing
    after it. *)
Definition AddEndpoints_clusterIP (svc : Service.t) (addClusterLBs : bool)
    (svcPort : ServicePort.t) (lbEps : lbEndpoints.t) : M unit :=
  if ext.(Externals.util_ServiceTypeHasClusterIP) svc then
    r <- call_getLoadBalancer svcPort.(ServicePort.Protocol) ;;
    match r.2 with
    | Some err =>
        klog_Errorf "Failed to get load balancer for %s (%v)"
          [ArgString svcPort.(ServicePort.Protocol); ArgError err]
    | None =>
        let loadBalancer := r.1 in
        let clusterIP := svc.(Service.Spec).(ServiceSpec.ClusterIP) in
        if hasHostEndpoints cfg ext lbEps.(lbEndpoints.IPs)
           && String.eqb cfg.(config.Gateway_Mode) GatewayModeShared
        then
          err <- call_createPerNodeVIPs [clusterIP]
                   svcPort.(ServicePort.Protocol) svcPort.(ServicePort.Port)
                   lbEps.(lbEndpoints.IPs) lbEps.(lbEndpoints.Port) ;;
          match err with
          | Some e =>
              klog_Errorf
                "Error in creating Cluster IP for svc %s, target port: %d - %v\n"
                [ArgString svc.(Service.Name);
                 ArgInt lbEps.(lbEndpoints.Port); ArgError e]
          | None =>
              let vip :=
                ext.(Externals.util_JoinHostPortInt32) clusterIP
                  svcPort.(ServicePort.Port) in
              err <- call_deleteLoadBalancerVIP loadBalancer vip ;;
              match err with
              | Some e => klog_Error [ArgError e]
              | None => ret tt
              end ;;
              AddEndpoints_externalAndIngress svc svcPort lbEps
          end
        else if addClusterLBs then
          err <- call_createLoadBalancerVIPs loadBalancer [clusterIP]
                   svcPort.(ServicePort.Port) lbEps.(lbEndpoints.IPs)
                   lbEps.(lbEndpoints.Port) ;;
          match err with
          | Some e =>
              klog_Errorf
                "Error in creating Cluster IP for svc %s, target port: %d - %v\n"
                [ArgString svc.(Service.Name);
                 ArgInt lbEps.(lbEndpoints.Port); ArgError e]
          | None =>
              emit (EvDeleteNodeVIPs [clusterIP]
                      svcPort.(ServicePort.Protocol)
                      svcPort.(ServicePort.Port)) ;;
              AddEndpoints_externalAndIngress svc svcPort lbEps
          end
        else AddEndpoints_externalAndIngress svc svcPort lbEps
    end
  else ret tt.

(** Lines 78-140: the body of the loop over [svc.Spec.Ports]. *)
Definition AddEndpoints_port (ep : Endpoints.t) (svc : Service.t)
    (protoPortMap : protoPortMapT) (addClusterLBs : bool)
    (svcPort : ServicePort.t) : M unit :=
  match protoPortMap_lookup protoPortMap svcPort.(ServicePort.Protocol)
          svcPort.(ServicePort.Name) with
  | None => ret tt
  | Some lbEps =>
      if negb ovn.(Controller.SCTPSupport)
         && String.eqb svcPort.(ServicePort.Protocol) ProtocolSCTP
      then
        klog_Errorf
          "Rejecting endpoint creation for unsupported SCTP protocol: %s, %s"
          [ArgString ep.(Endpoints.Namespace); ArgString ep.(Endpoints.Name)]
      else if ext.(Externals.util_ServiceTypeHasNodePort) svc then
        err <- call_createPerNodeVIPs [] svcPort.(ServicePort.Protocol)
                 svcPort.(ServicePort.NodePort) lbEps.(lbEndpoints.IPs)
                 lbEps.(lbEndpoints.Port) ;;
        match err with
        | Some e =>
            klog_Errorf
              "Error in creating Node Port for svc %s, node port: %d - %v\n"
              [ArgString svc.(Service.Name);
               ArgInt svcPort.(ServicePort.NodePort); ArgError e]
        | None => AddEndpoints_clusterIP svc addClusterLBs svcPort lbEps
        end
      else AddEndpoints_clusterIP svc addClusterLBs svcPort lbEps
  end.

Definition AddEndpoints (ep : Endpoints.t) (addClusterLBs : bool) : M error :=
  r <- call_GetService ep.(Endpoints.Namespace) ep.(Endpoints.Name) ;;
  match r with
  | inr _ => ret None
  | inl svc =>
      if negb (ext.(Externals.util_IsClusterIPSet) svc) then ret None
      else
        protoPortMap <- getLbEndpoints ep ;;
        if svcNeedsIdling cfg ext svc.(Service.Annotations)
           && (List.length ep.(Endpoints.Subsets) =? 0)%nat
        then
          emit (EvAddServiceToIdlingBalancer svc) ;;
          emit (EvDeleteServiceFromBalancers svc) ;;
          ret None
        else
          emit (EvDeleteServiceFromIdlingBalancer svc) ;;
          for_range svc.(Service.Spec).(ServiceSpec.Ports)
            (AddEndpoints_port ep svc protoPortMap addClusterLBs) ;;
          ret None
  end.

End AddEndpoints.

(** ** deleteEndpoints (lines 188-298) *)

Section deleteEndpoints.
Variables (cfg : config.t) (ext : Externals.t) (ovn : Controller.t).

(** [ovn.configureLoadBalancer(lb, serviceIP, port, nil)] *)
Definition call_configureLoadBalancer (lb serviceIP : string) (port : Z)
    (targets : list string) : M error :=
  call (fun h => ovn.(Controller.configureLoadBalancer) h lb serviceIP port targets)
    (EvConfigureLoadBalancer lb serviceIP port targets).

Definition call_getGatewayLoadBalancer (gatewayRouter : string)
    (protocol : Protocol) : M (string * error) :=
  call (fun h => ovn.(Controller.getGatewayLoadBalancer) h gatewayRouter protocol)
    (EvGetGatewayLoadBalancer gatewayRouter protocol).

Definition call_GetWorkerLoadBalancer (node : string) (protocol : Protocol)
    : M (string * error) :=
  call (fun h => ext.(Externals.loadbalancer_GetWorkerLoadBalancer) h node protocol)
    (EvGetWorkerLoadBalancer node protocol).

Definition call_getGatewayPhysicalIPs (gatewayRouter : string)
    : M (list string * error) :=
  call (fun h => ovn.(Controller.getGatewayPhysicalIPs) h gatewayRouter)
    (EvGetGatewayPhysicalIPs gatewayRouter).

Definition call_getOvnGateways : M (list string * error) :=
  call (fun h => ovn.(Controller.getOvnGateways) h) EvGetOvnGateways.

(** The clear of one VIP followed by the log line of its failure; every
    such line of the function has the format below, with operands
    [logLB], [logIP] and [logPort] as written at that place. *)
Definition deleteEndpoints_clear (lb serviceIP : string) (port : Z)
    (logLB logIP : string) (logPort : Z) : M unit :=
  err <- call_configureLoadBalancer lb serviceIP port [] ;;
  match err with
  | Some e =>
      klog_Errorf "Error in configuring loadbalancer for lb %s - %s - %d: %v"
        [ArgString logLB; ArgString logIP; ArgInt logPort; ArgError e]
  | None => ret tt
  end.

(** Lines 284-294: the external IPs of the service, on one gateway. *)
Definition deleteEndpoints_externalIPs (svc : Service.t)
    (svcPort : ServicePort.t) (gatewayLB workerLB : string) : M unit :=
  for_range svc.(Service.Spec).(ServiceSpec.ExternalIPs)
    (fun extIP =>
       deleteEndpoints_clear gatewayLB extIP svcPort.(ServicePort.Port)
         workerLB extIP svcPort.(ServicePort.NodePort) ;;
       deleteEndpoints_clear workerLB extIP svcPort.(ServicePort.NodePort)
         workerLB extIP svcPort.(ServicePort.NodePort)).

(** Lines 266-294: the node-port VIPs, then the external IPs.  The
    [continue] at line 271 leaves the body of the gateway loop. *)
Definition deleteEndpoints_nodePort (svc : Service.t)
    (svcPort : ServicePort.t) (gateway gatewayLB workerLB : string) : M unit :=
  if ext.(Externals.util_ServiceTypeHasNodePort) svc then
    r <- call_getGatewayPhysicalIPs gateway ;;
    match r.2 with
    | Some err =>
        klog_Errorf "Gateway router %s does not have physical ip (%v)"
          [ArgString gateway; ArgError err]
    | None =>
        for_range r.1
          (fun physicalIP =>
             deleteEndpoints_clear gatewayLB physicalIP
               svcPort.(ServicePort.NodePort)
               gatewayLB physicalIP svcPort.(ServicePort.NodePort) ;;
             deleteEndpoints_clear workerLB physicalIP
               svcPort.(ServicePort.NodePort)
               workerLB physicalIP svcPort.(ServicePort.NodePort)) ;;
        deleteEndpoints_externalIPs svc svcPort gatewayLB workerLB
    end
  else deleteEndpoints_externalIPs svc svcPort gatewayLB workerLB.

(** Lines 252-265: the ingress addresses of the service, on one gateway. *)
Definition deleteEndpoints_ingress (svc : Service.t) (svcPort : ServicePort.t)
    (gatewayLB workerLB : string) : M unit :=
  for_range svc.(Service.Ingress)
    (fun ing =>
       if String.eqb ing.(LoadBalancerIngress.IP) "" then ret tt
       else
         deleteEndpoints_clear gatewayLB ing.(LoadBalancerIngress.IP)
           svcPort.(ServicePort.Port)
           gatewayLB ing.(LoadBalancerIngress.IP)
           svcPort.(ServicePort.NodePort) ;;
         deleteEndpoints_clear workerLB ing.(LoadBalancerIngress.IP)
           svcPort.(ServicePort.Port)
           workerLB ing.(LoadBalancerIngress.IP)
           svcPort.(ServicePort.NodePort)).

(** Lines 226-295: the body of the loop over the gateways. *)
Definition deleteEndpoints_gateway (svc : Service.t) (svcPort : ServicePort.t)
    (gateway : string) : M unit :=
  let clusterIP := svc.(Service.Spec).(ServiceSpec.ClusterIP) in
  let shared := String.eqb cfg.(config.Gateway_Mode) GatewayModeShared in
  g <- call_getGatewayLoadBalancer gateway svcPort.(ServicePort.Protocol) ;;
  match g.2 with
  | Some err =>
      klog_Errorf "Gateway router %s does not have load balancer (%v)"
        [ArgString gateway; ArgError err]
  | None =>
      let gatewayLB := g.1 in
      (if shared then
         deleteEndpoints_clear gatewayLB clusterIP svcPort.(ServicePort.Port)
           gatewayLB clusterIP svcPort.(ServicePort.Port)
       else ret tt) ;;
      let workerNode := ext.(Externals.util_GetWorkerFromGatewayRouter) gateway in
      w <- call_GetWorkerLoadBalancer workerNode svcPort.(ServicePort.Protocol) ;;
      match w.2 with
      | Some err =>
          klog_Errorf "Worker switch %s does not have load balancer (%v)"
            [ArgString workerNode; ArgError err]
      | None =>
          let workerLB := w.1 in
          (if shared then
             deleteEndpoints_clear workerLB clusterIP svcPort.(ServicePort.Port)
               workerLB clusterIP svcPort.(ServicePort.NodePort)
           else ret tt) ;;
          deleteEndpoints_ingress svc svcPort gatewayLB workerLB ;;
          deleteEndpoints_nodePort svc svcPort gateway gatewayLB workerLB
      end
  end.

(** Lines 214-296: the body of the loop over [svc.Spec.Ports]. *)
Definition deleteEndpoints_port (svc : Service.t) (gateways : list string)
    (svcPort : ServicePort.t) : M unit :=
  let clusterIP := svc.(Service.Spec).(ServiceSpec.ClusterIP) in
  c <- call_getLoadBalancer ovn svcPort.(ServicePort.Protocol) ;;
  match c.2 with
  | Some err =>
      klog_Errorf "Failed to get load balancer for %s (%v)"
        [ArgString c.1; ArgError err]
  | None =>
      let clusterLB := c.1 in
      deleteEndpoints_clear clusterLB clusterIP svcPort.(ServicePort.Port)
        clusterLB clusterIP svcPort.(ServicePort.Port) ;;
      for_range gateways (deleteEndpoints_gateway svc svcPort)
  end.

Definition deleteEndpoints (ep : Endpoints.t) : M error :=
  r <- call_GetService ovn ep.(Endpoints.Namespace) ep.(Endpoints.Name) ;;
  match r with
  | inr _ => ret None
  | inl svc =>
      if negb (ext.(Externals.util_IsClusterIPSet) svc) then ret None
      else if svcNeedsIdling cfg ext svc.(Service.Annotations) then
        emit (EvAddServiceToIdlingBalancer svc) ;;
        emit (EvDeleteServiceFromBalancers svc) ;;
        ret None
      else
        emit (EvDeleteServiceFromIdlingBalancer svc) ;;
        g <- call_getOvnGateways ;;
        match g.2 with
        | Some err => klog_Error [ArgError err]
        | None => ret tt
        end ;;
        for_range svc.(Service.Spec).(ServiceSpec.Ports)
          (deleteEndpoints_port svc g.1) ;;
        ret None
  end.

End deleteEndpoints.

(** ** handleNodePortLB (lines 144-186) *)

Section handleNodePortLB.
Variables (cfg : config.t) (ext : Externals.t) (ovn : Controller.t).

(** Lines 177-183: the loop over the Endpoints of one namespace, written
    for any implementation [add] of the method [AddEndpoints] it calls.
    The result [Some e] is [return e] at line 179. *)
Definition handleNodePortLB_endpoints (add : Endpoints.t -> bool -> M error)
    (node : Node.t) (endpoints : list Endpoints.t) : M (option error) :=
  for_range_return endpoints
    (fun ep =>
       err <- add ep false ;;
       match err with
       | Some e =>
           ret (Some
                  (fmt_Errorf
                     "unable to handle adding endpoints for new node: %s, error: %v"
                     [ArgString node.(Node.Name); ArgError e]))
       | None => ret None
       end).

(** Lines 171-184: the legacy replay over the namespaces. *)
Definition handleNodePortLB_replay (add : Endpoints.t -> bool -> M error)
    (node : Node.t) (namespaces : list Namespace.t) : M (option error) :=
  for_range_return namespaces
    (fun ns =>
       r <- call
              (fun h =>
                 ovn.(Controller.watchFactory_GetEndpoints) h
                   ns.(Namespace.Name))
              (EvGetEndpoints ns.(Namespace.Name)) ;;
       match r.2 with
       | Some err =>
           klog_Errorf "Failed to get k8s endpoints: %v" [ArgError err] ;;
           ret None
       | None => handleNodePortLB_endpoints add node r.1
       end).

(** Lines 156-185, entered once the gateway check of lines 149-153 has
    passed. *)
Definition handleNodePortLB_sync (add : Endpoints.t -> bool -> M error)
    (node : Node.t) : M error :=
  match ovn.(Controller.svcController) with
  | Some requestFullSync =>
      err <- call requestFullSync EvRequestFullSync ;;
      match err with
      | Some e => ret (Some e)
      | None => ret None
      end
  | None =>
      n <- call (fun h => ovn.(Controller.watchFactory_GetNamespaces) h)
             EvGetNamespaces ;;
      match n.2 with
      | Some err =>
          ret (fmt_Errorf "failed to get k8s namespaces: %v" [ArgError err])
      | None =>
          r <- handleNodePortLB_replay add node n.1 ;;
          match r with
          | Some e => ret e
          | None => ret None
          end
      end
  end.

Definition handleNodePortLB_with (add : Endpoints.t -> bool -> M error)
    (node : Node.t) : M error :=
  let gatewayRouter :=
    (ext.(Externals.types_GWRouterPrefix) ++ node.(Node.Name))%string in
  if negb ext.(Externals.isGatewayInterfaceNone) then
    p <- call_getGatewayPhysicalIPs ovn gatewayRouter ;;
    match p.1 with
    | [] =>
        ret (fmt_Errorf "gateway physical IP for node %q does not yet exist"
               [ArgString node.(Node.Name)])
    | _ :: _ => handleNodePortLB_sync add node
    end
  else handleNodePortLB_sync add node.

(** The function of the source: the method called at line 178 is
    [AddEndpoints]. *)
Definition handleNodePortLB (node : Node.t) : M error :=
  handleNodePortLB_with (AddEndpoints cfg ext ovn) node.

End handleNodePortLB.

(** ** Reading traces *)

(** [for_range_runs body h xs ts]: the loop over [xs] entered with history
    [h] runs the body once per element, in order, each run starting from
    the history left by the runs before it; [ts] lists what each run
    emitted. *)
Fixpoint for_range_runs {A : Type} (body : A -> M unit) (h : History)
    (xs : list A) (ts : list (list Event)) : Prop :=
  match xs, ts with
  | [], [] => True
  | x :: xs', t :: ts' =>
      body x h = Some (tt, t) /\ for_range_runs body (h ++ t) xs' ts'
  | _, _ => False
  end.

(** The error with which a load-balancer operation or a lookup of a load
    balancer, of the gateways or of the Endpoints of a namespace failed. *)
Definition errorOf (e : Event) : error :=
  match e with
  | EvCreatePerNodeVIPs _ _ _ _ _ r => r
  | EvCreateLoadBalancerVIPs _ _ _ _ _ r => r
  | EvDeleteLoadBalancerVIP _ _ r => r
  | EvConfigureLoadBalancer _ _ _ _ r => r
  | EvGetLoadBalancer _ r => r.2
  | EvGetGatewayLoadBalancer _ _ r => r.2
  | EvGetWorkerLoadBalancer _ _ r => r.2
  | EvGetOvnGateways r => r.2
  | EvGetGatewayPhysicalIPs _ r => r.2
  | EvGetEndpoints _ r => r.2
  | _ => None
  end.

(** [l] is an error-level log line that has the error [e] as an operand. *)
Definition logs_error (e : GoError) (l : Event) : Prop :=
  match l with
  | EvKlogErrorf _ args => In (ArgError e) args
  | EvKlogError args => In (ArgError e) args
  | _ => False
  end.

Definition isKlog (l : Event) : Prop :=
  match l with
  | EvKlogErrorf _ _ => True
  | EvKlogError _ => True
  | _ => False
  end.

(** Every failure in the trace is directly followed by a log line that
    carries its error. *)
Fixpoint well_logged (t : list Event) : Prop :=
  match t with
  | [] => True
  | ev :: rest =>
      match errorOf ev with
      | Some e =>
          match rest with
          | l :: _ => logs_error e l
          | [] => False
          end
      | None => True
      end
      /\ well_logged rest
  end.

(** A write of a VIP to the cluster tier / to the per-node tier. *)
Definition isCreateLoadBalancerVIPs (e : Event) : Prop :=
  match e with
  | EvCreateLoadBalancerVIPs _ _ _ _ _ _ => True
  | _ => False
  end.


(** The events of the external-IP and ingress steps of [AddEndpoints]: a
    per-node write for the external IPs (there is one at least) or for one
    ingress address, or the log line of its failure. *)
Definition isExternalOrIngressEvent (svc : Service.t) (e : Event) : Prop :=
  match e with
  | EvCreatePerNodeVIPs svcIPs _ _ _ _ _ =>
      (svcIPs = svc.(Service.Spec).(ServiceSpec.ExternalIPs) /\ svcIPs <> [])
      \/ exists ing, In ing svc.(Service.Ingress)
                     /\ svcIPs = [ing.(LoadBalancerIngress.IP)]
  | EvKlogErrorf _ _ => True
  | _ => False
  end.

(** ** The aggregation, stated on the Endpoints object *)

(** The port entry [port] declares the pair [(proto, name)] with a port
    that [ValidatePort] accepts. *)
Definition declares (proto : Protocol) (name : string)
    (port : EndpointPort.t) : bool :=
  String.eqb port.(EndpointPort.Protocol) proto
  && String.eqb port.(EndpointPort.Name) name
  && match ValidatePort port.(EndpointPort.Protocol) port.(EndpointPort.Port) with
     | None => true
     | Some _ => false
     end.

(** What one visit of the innermost loop adds to the backends of the pair:
    the address and the port number, when the entry declares the pair. *)
Definition backendOf (proto : Protocol) (name : string)
    (ip : EndpointAddress.t) (port : EndpointPort.t) : list (string * Z) :=
  if declares proto name port
  then [(ip.(EndpointAddress.IP), port.(EndpointPort.Port))]
  else [].

(** One entry per subset, address of the subset and port entry of the
    subset that declares the pair, in the order of the loops. *)
Definition backends (ep : Endpoints.t) (proto : Protocol) (name : string)
    : list (string * Z) :=
  flat_map
    (fun s =>
       flat_map
         (fun ip => flat_map (backendOf proto name ip) s.(EndpointSubset.Ports))
         s.(EndpointSubset.Addresses))
    ep.(Endpoints.Subsets).

(** The addresses of the subsets that declare the pair, each address once
    per subset: the list named by the specification. *)
Definition addressesOfDeclaringSubsets (ep : Endpoints.t) (proto : Protocol)
    (name : string) : list string :=
  flat_map
    (fun s =>
       if existsb (declares proto name) s.(EndpointSubset.Ports)
       then map EndpointAddress.IP s.(EndpointSubset.Addresses)
       else [])
    ep.(Endpoints.Subsets).

(** The entry of the table for a pair with the backends [bs]: none when
    there is no backend, else all the addresses and the last port. *)
Definition tableEntry (bs : list (string * Z)) : option lbEndpoints.t :=
  match bs with
  | [] => None
  | b :: _ => Some (lbEndpoints.mk (map fst bs) (snd (List.last bs b)))
  end.

(** The log line of one visit of the innermost loop: none when
    [ValidatePort] accepts the entry. *)
Definition invalidPortLog (port : EndpointPort.t) : list Event :=
  match ValidatePort port.(EndpointPort.Protocol) port.(EndpointPort.Port) with
  | Some err =>
      [EvKlogErrorf "Invalid endpoint port: %s: %v"
         [ArgString port.(EndpointPort.Name); ArgError err]]
  | None => []
  end.

(** The log lines of the aggregation: one per address and port entry that
    [ValidatePort] rejects. *)
Definition invalidPortLogs (ep : Endpoints.t) : list Event :=
  flat_map
    (fun s =>
       flat_map
         (fun _ : EndpointAddress.t =>
            flat_map invalidPortLog s.(EndpointSubset.Ports))
         s.(EndpointSubset.Addresses))
    ep.(Endpoints.Subsets).

(** ** The passes of the loop of AddEndpoints *)

(** The events of [AddEndpoints] before its loop over the ports, when the
    service [svc] is found, has a cluster IP and is not idled. *)
Definition AddEndpoints_prelude (ep : Endpoints.t) (svc : Service.t)
    : list Event :=
  EvGetService ep.(Endpoints.Namespace) ep.(Endpoints.Name) (inl svc)
  :: invalidPortLogs ep ++ [EvDeleteServiceFromIdlingBalancer svc].


(** A per-node write for the node port: its service IPs are nil. *)
Definition isNodePortCreate (e : Event) : Prop :=
  match e with
  | EvCreatePerNodeVIPs [] _ _ _ _ _ => True
  | _ => False
  end.

(** What the events [t] of one pass of the loop of [AddEndpoints] say of a
    failed node-port step: the pass is that failure and its log line, and
    nothing else. *)
Definition nodePortFailureEndsPass (svc : Service.t) (svcPort : ServicePort.t)
    (t : list Event) : Prop :=
  forall svcIPs proto port ips tport e,
    In (EvCreatePerNodeVIPs svcIPs proto port ips tport (Some e)) t ->
    svcIPs = [] ->
    proto = svcPort.(ServicePort.Protocol)
    /\ port = svcPort.(ServicePort.NodePort)
    /\ t = [EvCreatePerNodeVIPs [] proto port ips tport (Some e);
            EvKlogErrorf
              "Error in creating Node Port for svc %s, node port: %d - %v\n"
              [ArgString svc.(Service.Name);
               ArgInt svcPort.(ServicePort.NodePort); ArgError e]].

(** ** The passes of the loops of deleteEndpoints *)

(** The events of [deleteEndpoints] before its loop over the ports, when
    the service [svc] is found, has a cluster IP and is not idled; [g] is
    what [getOvnGateways] returned. *)
Definition deleteEndpoints_prelude (ep : Endpoints.t) (svc : Service.t)
    (g : list string * error) : list Event :=
  EvGetService ep.(Endpoints.Namespace) ep.(Endpoints.Name) (inl svc)
  :: EvDeleteServiceFromIdlingBalancer svc
  :: EvGetOvnGateways g
  :: match g.2 with
     | Some e => [EvKlogError [ArgError e]]
     | None => []
     end.

(** The events of the ingress, node-port and external-IP steps of
    [deleteEndpoints] on one gateway: a clear at an ingress address and the
    service port, a clear at the node port, a clear at an external IP and
    the service port, the lookup of the physical IPs, or a log line. *)
Definition isPerNodeOtherClear (svc : Service.t) (svcPort : ServicePort.t)
    (e : Event) : Prop :=
  match e with
  | EvConfigureLoadBalancer _ ip port targets _ =>
      targets = []
      /\ ((exists ing, In ing svc.(Service.Ingress)
                       /\ ip = ing.(LoadBalancerIngress.IP))
             /\ port = svcPort.(ServicePort.Port)
          \/ port = svcPort.(ServicePort.NodePort)
          \/ In ip svc.(Service.Spec).(ServiceSpec.ExternalIPs)
             /\ port = svcPort.(ServicePort.Port))
  | EvGetGatewayPhysicalIPs _ _ => True
  | EvKlogErrorf _ _ => True
  | _ => False
  end.



(** ** The legacy replay, stated on the namespaces *)

(** What the specification describes for one namespace in legacy mode:
    list its Endpoints; when the listing fails, log and go on to the next
    namespace; else run [AddEndpoints] without the cluster tier on every
    object listed. *)
Definition replayNamespace (cfg : config.t) (ext : Externals.t)
    (ovn : Controller.t) (ns : Namespace.t) : M unit :=
  r <- call
         (fun h =>
            ovn.(Controller.watchFactory_GetEndpoints) h ns.(Namespace.Name))
         (EvGetEndpoints ns.(Namespace.Name)) ;;
  match r.2 with
  | Some err => klog_Errorf "Failed to get k8s endpoints: %v" [ArgError err]
  | None =>
      for_range r.1 (fun ep => AddEndpoints cfg ext ovn ep false ;; ret tt)
  end.

(** The events [t] of the pass of a namespace whose listing failed are the
    listing and its log line: the namespace is skipped. *)
Definition failedListingIsSkipped (ns : Namespace.t) (t : list Event) : Prop :=
  exists r rest,
    t = EvGetEndpoints ns.(Namespace.Name) r :: rest
    /\ forall e,
         r.2 = Some e ->
         rest = [EvKlogErrorf "Failed to get k8s endpoints: %v" [ArgError e]].


(** The events of the gateway check of lines 149-153 when it lets the
    function go on: none when the gateway interface is none, else the
    lookup of the physical IPs, which are not nil. *)
Definition gatewayCheckPasses (ext : Externals.t) (ovn : Controller.t)
    (node : Node.t) (h : History) (pre : list Event) : Prop :=
  if ext.(Externals.isGatewayInterfaceNone) then pre = []
  else
    let gatewayRouter :=
      (ext.(Externals.types_GWRouterPrefix) ++ node.(Node.Name))%string in
    let p := ovn.(Controller.getGatewayPhysicalIPs) h gatewayRouter in
    p.1 <> [] /\ pre = [EvGetGatewayPhysicalIPs gatewayRouter p].

(** ** Concrete collaborators and objects, for the examples *)

Module Ex.

(** Dotted-decimal IPv4, enough of package net for the examples:
    [ParseIP] yields the four bytes, or nil; [Contains] compares under the
    mask and is false on operands of different lengths. *)
Fixpoint parseOctet (s : string) (acc : Z) (seen : bool) : option Z :=
  match s with
  | EmptyString => if seen then Some acc else None
  | String c rest =>
      let d := Z.of_nat (Ascii.nat_of_ascii c) - 48 in
      if (0 <=? d) && (d <=? 9) && (acc * 10 + d <=? 255)
      then parseOctet rest (acc * 10 + d) true
      else None
  end.

Fixpoint splitDots (s cur : string) : list string :=
  match s with
  | EmptyString => [cur]
  | String c rest =>
      if Ascii.eqb c "."%char then cur :: splitDots rest ""
      else splitDots rest (cur ++ String c "")%string
  end.

Definition ParseIP (s : string) : IP :=
  match map (fun f => parseOctet f 0 false) (splitDots s "") with
  | [Some a; Some b; Some c; Some d] => [a; b; c; d]
  | _ => []
  end.

Fixpoint sameUnderMask (nn m ip : list Z) : bool :=
  match nn, m, ip with
  | [], [], [] => true
  | n :: nn', k :: m', i :: ip' =>
      (Z.land n k =? Z.land i k) && sameUnderMask nn' m' ip'
  | _, _, _ => false
  end.

Definition Contains (n : IPNet.t) (ip : IP) : bool :=
  match ip with
  | [] => false
  | _ => sameUnderMask n.(IPNet.IP) n.(IPNet.Mask) ip
  end.

Definition decimal (n : Z) : string :=
  DecimalString.NilZero.string_of_int (Z.to_int n).

Definition hasType (svc : Service.t) (ty : string) : bool :=
  String.eqb svc.(Service.Spec).(ServiceSpec.Type_) ty.

Definition ext : Externals.t :=
  {| Externals.net_ParseIP := ParseIP;
     Externals.IPNet_Contains := Contains;
     Externals.util_IsClusterIPSet := fun svc =>
       negb (String.eqb svc.(Service.Spec).(ServiceSpec.ClusterIP) "")
       && negb (String.eqb svc.(Service.Spec).(ServiceSpec.ClusterIP) "None");
     Externals.util_ServiceTypeHasNodePort := fun svc =>
       hasType svc "NodePort" || hasType svc "LoadBalancer";
     Externals.util_ServiceTypeHasClusterIP := fun svc =>
       hasType svc "ClusterIP" || hasType svc "NodePort"
       || hasType svc "LoadBalancer";
     Externals.util_JoinHostPortInt32 := fun host port =>
       (host ++ ":" ++ decimal port)%string;
     Externals.util_GetWorkerFromGatewayRouter := fun gw =>
       substring 3 (String.length gw - 3) gw;
     Externals.types_GWRouterPrefix := "GR_";
     Externals.loadbalancer_GetWorkerLoadBalancer := fun _ node proto =>
       ((node ++ "-" ++ proto)%string, None);
     Externals.IdledServiceAnnotationSuffix := "idled-at";
     Externals.isGatewayInterfaceNone := false |}.

(** The pod network 10.128.0.0/14. *)
Definition clusterSubnets : list CIDRNetworkEntry.t :=
  [CIDRNetworkEntry.mk (IPNet.mk [10; 128; 0; 0] [255; 252; 0; 0]) 23].

Definition cfgShared : config.t := config.mk "shared" clusterSubnets true.
Definition cfgLocal : config.t := config.mk "local" clusterSubnets true.

Definition failure (msg : string) : error := Some (MkError msg []).

(** A controller in which every lookup and every load-balancer operation
    succeeds, except as the arguments say: [svc] is what [GetService]
    returns, [sync] the full-sync controller, [listing] the Endpoints of a
    namespace, [perNode] the result of [createPerNodeVIPs] from its
    service IPs. *)
Definition controller (svc : Service.t + GoError)
    (sync : option (History -> error))
    (listing : string -> list Endpoints.t * error)
    (perNode : list string -> error) : Controller.t :=
  {| Controller.SCTPSupport := true;
     Controller.svcController := sync;
     Controller.watchFactory_GetService := fun _ _ _ => svc;
     Controller.watchFactory_GetNamespaces := fun _ =>
       ([Namespace.mk "default"; Namespace.mk "kube-system"], None);
     Controller.watchFactory_GetEndpoints := fun _ ns => listing ns;
     Controller.createPerNodeVIPs := fun _ svcIPs _ _ _ _ => perNode svcIPs;
     Controller.getLoadBalancer := fun _ proto =>
       (("cluster-" ++ proto)%string, None);
     Controller.createLoadBalancerVIPs := fun _ _ _ _ _ _ => None;
     Controller.deleteLoadBalancerVIP := fun _ _ _ => None;
     Controller.configureLoadBalancer := fun _ _ _ _ _ => None;
     Controller.getOvnGateways := fun _ => (["GR_node1"], None);
     Controller.getGatewayLoadBalancer := fun _ gw proto =>
       ((gw ++ "-" ++ proto)%string, None);
     Controller.getGatewayPhysicalIPs := fun _ _ => (["172.18.0.2"], None) |}.

Definition service (type : string) (annotations : gmap string string)
    (ports : list ServicePort.t) (externalIPs ingress : list string)
    : Service.t :=
  {| Service.Name := "web";
     Service.Namespace := "default";
     Service.Annotations := annotations;
     Service.Spec := ServiceSpec.mk ports "10.96.0.10" type externalIPs;
     Service.Ingress := map LoadBalancerIngress.mk ingress |}.

Definition http : ServicePort.t := ServicePort.mk "http" "TCP" 80 0.
Definition httpNodePort : ServicePort.t := ServicePort.mk "http" "TCP" 80 30080.
Definition dns : ServicePort.t := ServicePort.mk "dns" "UDP" 53 0.

Definition endpoints (subsets : list EndpointSubset.t) : Endpoints.t :=
  Endpoints.mk "web" "default" subsets.

(** One pod of the cluster network behind the port http. *)
Definition podSubset : EndpointSubset.t :=
  EndpointSubset.mk [EndpointAddress.mk "10.128.2.5"]
    [EndpointPort.mk "http" "TCP" 8080].

(** One host-networked pod behind the port http. *)
Definition hostSubset : EndpointSubset.t :=
  EndpointSubset.mk [EndpointAddress.mk "192.168.1.7"]
    [EndpointPort.mk "http" "TCP" 8080].

(** A subset that declares the port http and has no ready address. *)
Definition notReadySubset : EndpointSubset.t :=
  EndpointSubset.mk [] [EndpointPort.mk "http" "TCP" 8080].

(** Two addresses; the port entries declare http, an entry with port 0 and
    an entry with an unknown protocol. *)
Definition mixedSubset : EndpointSubset.t :=
  EndpointSubset.mk
    [EndpointAddress.mk "10.128.2.5"; EndpointAddress.mk "10.128.2.6"]
    [EndpointPort.mk "http" "TCP" 8080; EndpointPort.mk "zero" "TCP" 0;
     EndpointPort.mk "ping" "ICMP" 7].

Definition noListing (ns : string) : list Endpoints.t * error := ([], None).
Definition allSucceed (svcIPs : list string) : error := None.

(** [createPerNodeVIPs] fails for the node port (nil service IPs) only. *)
Definition nodePortFails (svcIPs : list string) : error :=
  match svcIPs with
  | [] => failure "no gateway"
  | _ => None
  end.

(** The listing of kube-system fails; default holds one Endpoints. *)
Definition defaultOnly (ns : string) : list Endpoints.t * error :=
  if String.eqb ns "default" then ([endpoints [podSubset]], None)
  else ([], failure "listing failed").

(** A ClusterIP service with the port http and no external address. *)
Definition plainService : Service.t := service "ClusterIP" ∅ [http] [] [].

(** A ClusterIP service with the port http and one external IP. *)
Definition externalService : Service.t :=
  service "ClusterIP" ∅ [http] ["1.2.3.4"] [].

(** A NodePort service with the ports http and dns, one external IP and
    one ingress address. *)
Definition nodePortService : Service.t :=
  service "NodePort" ∅ [httpNodePort; dns] ["1.2.3.4"] ["5.6.7.8"].

(** A service that carries the idling annotation. *)
Definition idledService : Service.t :=
  service "ClusterIP" {[ "idling.alpha.openshift.io/idled-at" := "now" ]}
    [http] [] [].

(** The controller that resolves [svc] and in which everything succeeds. *)
Definition resolving (svc : Service.t) : Controller.t :=
  controller (inl svc) None noListing allSucceed.

(** The legacy controller of a cluster whose namespace default holds one
    Endpoints object and whose namespace kube-system cannot be listed. *)
Definition legacy : Controller.t :=
  controller (inl plainService) None defaultOnly allSucceed.



End Ex.

(** [c] never panics, and its value and trace satisfy [Q], whatever the
    history it starts from. *)
Definition ok {A : Type} (c : M A) (Q : A -> list Event -> Prop) : Prop :=
  forall h, exists a t, c h = Some (a, t) /\ Q a t.

(** The table [m] holds, for every pair, the entry of the backends [B]. *)
Definition represents (m : protoPortMapT)
    (B : Protocol -> string -> list (string * Z)) : Prop :=
  (is_Some (m !! ProtocolTCP) /\ is_Some (m !! ProtocolUDP)
   /\ is_Some (m !! ProtocolSCTP))
  /\ forall proto name, protoPortMap_lookup m proto name = tableEntry (B proto name).

(** No port entry of the subset but one declares the pair. *)
Definition declaresAtMostOnce (proto : Protocol) (name : string)
    (s : EndpointSubset.t) : Prop :=
  (List.length (List.filter (declares proto name) s.(EndpointSubset.Ports))
   <= 1)%nat.


(** ** Merging two entries of the table *)

(** The entry of a pair in the table of an object whose subsets are those
    of a first object followed by those of a second, from the entries [a]
    and [b] of the pair in their tables: the addresses of both, in that
    order, and the port of the later declaration. *)
Definition lbEndpoints_merge (a b : option lbEndpoints.t)
    : option lbEndpoints.t :=
  match a, b with
  | Some x, Some y =>
      Some (lbEndpoints.mk (x.(lbEndpoints.IPs) ++ y.(lbEndpoints.IPs))
              y.(lbEndpoints.Port))
  | Some x, None => Some x
  | None, _ => b
  end.

(** ** The calls of AddEndpoints *)

(** The events of one pass of the loop of [AddEndpoints], for a service
    port [svcPort] found in the table with the backends [lbEps]: a write
    of a VIP targets these backends; per-node writes, the lookup of the
    cluster load balancer and the clear of the per-node VIPs are for the
    protocol of the port. *)
Definition isPassEvent (svcPort : ServicePort.t) (lbEps : lbEndpoints.t)
    (e : Event) : Prop :=
  match e with
  | EvCreatePerNodeVIPs _ proto _ targetIPs targetPort _ =>
      proto = svcPort.(ServicePort.Protocol)
      /\ targetIPs = lbEps.(lbEndpoints.IPs)
      /\ targetPort = lbEps.(lbEndpoints.Port)
  | EvCreateLoadBalancerVIPs _ _ _ targetIPs targetPort _ =>
      targetIPs = lbEps.(lbEndpoints.IPs)
      /\ targetPort = lbEps.(lbEndpoints.Port)
  | EvGetLoadBalancer proto _ => proto = svcPort.(ServicePort.Protocol)
  | EvDeleteNodeVIPs _ proto _ => proto = svcPort.(ServicePort.Protocol)
  | EvDeleteLoadBalancerVIP _ _ _ => True
  | EvKlogErrorf _ _ => True
  | EvKlogError _ => True
  | _ => False
  end.

(** The events of [AddEndpoints] on the object [ep]: the lookup of the
    service, the three calls that move the service to and from the idling
    balancer, log lines, and the events of the passes over service ports
    that the table of [ep] backs and, for SCTP, the controller supports. *)
Definition isAddEndpointsEvent (ovn : Controller.t) (ep : Endpoints.t)
    (e : Event) : Prop :=
  match e with
  | EvGetService _ _ _ => True
  | EvAddServiceToIdlingBalancer _ => True
  | EvDeleteServiceFromBalancers _ => True
  | EvDeleteServiceFromIdlingBalancer _ => True
  | EvKlogErrorf _ _ => True
  | EvKlogError _ => True
  | _ =>
      exists svcPort lbEps,
        tableEntry
          (backends ep svcPort.(ServicePort.Protocol)
             svcPort.(ServicePort.Name))
        = Some lbEps
        /\ (ovn.(Controller.SCTPSupport) = true
            \/ svcPort.(ServicePort.Protocol) <> ProtocolSCTP)
        /\ isPassEvent svcPort lbEps e
  end.

(** The backends that a write of a VIP targets. *)
Definition createTargets (e : Event) : option (list string * Z) :=
  match e with
  | EvCreatePerNodeVIPs _ _ _ targetIPs targetPort _ =>
      Some (targetIPs, targetPort)
  | EvCreateLoadBalancerVIPs _ _ _ targetIPs targetPort _ =>
      Some (targetIPs, targetPort)
  | _ => None
  end.

(** The event is no call for the protocol SCTP: no per-node write, no
    lookup of the cluster load balancer, no clear of per-node VIPs. *)
Definition notForSCTP (e : Event) : Prop :=
  match e with
  | EvCreatePerNodeVIPs _ proto _ _ _ _ => proto <> ProtocolSCTP
  | EvGetLoadBalancer proto _ => proto <> ProtocolSCTP
  | EvDeleteNodeVIPs _ proto _ => proto <> ProtocolSCTP
  | _ => True
  end.

(** The calls that [AddEndpoints] makes: the lookup of the service, the
    moves to and from the idling balancer, the lookup of the cluster load
    balancer, the writes of VIPs and the clears that follow a placement,
    and log lines. *)
Definition isAddPathEvent (e : Event) : Prop :=
  match e with
  | EvGetService _ _ _ => True
  | EvAddServiceToIdlingBalancer _ => True
  | EvDeleteServiceFromBalancers _ => True
  | EvDeleteServiceFromIdlingBalancer _ => True
  | EvGetLoadBalancer _ _ => True
  | EvCreatePerNodeVIPs _ _ _ _ _ _ => True
  | EvCreateLoadBalancerVIPs _ _ _ _ _ _ => True
  | EvDeleteLoadBalancerVIP _ _ _ => True
  | EvDeleteNodeVIPs _ _ _ => True
  | EvKlogErrorf _ _ => True
  | EvKlogError _ => True
  | _ => False
  end.

(** The calls that [deleteEndpoints] makes: the lookup of the service, the
    moves to and from the idling balancer, the lookups of the gateways, of
    the load balancers and of the physical IPs of a gateway,
    [configureLoadBalancer] with no target, and log lines. *)
Definition isDeletePathEvent (e : Event) : Prop :=
  match e with
  | EvGetService _ _ _ => True
  | EvAddServiceToIdlingBalancer _ => True
  | EvDeleteServiceFromBalancers _ => True
  | EvDeleteServiceFromIdlingBalancer _ => True
  | EvGetOvnGateways _ => True
  | EvGetLoadBalancer _ _ => True
  | EvGetGatewayLoadBalancer _ _ _ => True
  | EvGetWorkerLoadBalancer _ _ _ => True
  | EvGetGatewayPhysicalIPs _ _ => True
  | EvConfigureLoadBalancer _ _ _ targets _ => targets = []
  | EvKlogErrorf _ _ => True
  | EvKlogError _ => True
  | _ => False
  end.

(** A controller that differs from [ovn] in its support of SCTP only. *)
Definition withSCTPSupport (b : bool) (ovn : Controller.t) : Controller.t :=
  {| Controller.SCTPSupport := b;
     Controller.svcController := ovn.(Controller.svcController);
     Controller.watchFactory_GetService :=
       ovn.(Controller.watchFactory_GetService);
     Controller.watchFactory_GetNamespaces :=
       ovn.(Controller.watchFactory_GetNamespaces);
     Controller.watchFactory_GetEndpoints :=
       ovn.(Controller.watchFactory_GetEndpoints);
     Controller.createPerNodeVIPs := ovn.(Controller.createPerNodeVIPs);
     Controller.getLoadBalancer := ovn.(Controller.getLoadBalancer);
     Controller.createLoadBalancerVIPs :=
       ovn.(Controller.createLoadBalancerVIPs);
     Controller.deleteLoadBalancerVIP :=
       ovn.(Controller.deleteLoadBalancerVIP);
     Controller.configureLoadBalancer :=
       ovn.(Controller.configureLoadBalancer);
     Controller.getOvnGateways := ovn.(Controller.getOvnGateways);
     Controller.getGatewayLoadBalancer :=
       ovn.(Controller.getGatewayLoadBalancer);
     Controller.getGatewayPhysicalIPs :=
       ovn.(Controller.getGatewayPhysicalIPs) |}.

(** An SCTP service backed by one pod, and a controller without support of
    SCTP that resolves it. *)
Module ExSCTP.

Definition port : ServicePort.t := ServicePort.mk "assoc" "SCTP" 9899 0.

Definition subset : EndpointSubset.t :=
  EndpointSubset.mk [EndpointAddress.mk "10.128.2.5"]
    [EndpointPort.mk "assoc" "SCTP" 9899].

Definition service : Service.t := Ex.service "ClusterIP" ∅ [port] [] [].

Definition controller : Controller.t :=
  withSCTPSupport false (Ex.resolving service).

End ExSCTP.

(** ** A pass of AddEndpoints in which nothing fails *)

(** The call recorded by the event did not fail. *)
Definition succeeds (e : Event) : Prop := errorOf e = None.

(** What the events [t] of the cluster-IP step of one pass of the loop of
    [AddEndpoints] hold, for a service port with the backends [lbEps],
    when the step places everything: the lookup of the cluster load
    balancer, the placement of the cluster address on one tier with the
    clear on the other, the VIP of the external IPs and one VIP per ingress
    address. *)
Definition placesClusterIP (cfg : config.t) (ext : Externals.t)
    (svc : Service.t) (addClusterLBs : bool) (svcPort : ServicePort.t)
    (lbEps : lbEndpoints.t) (t : list Event) : Prop :=
  let proto := svcPort.(ServicePort.Protocol) in
  let port := svcPort.(ServicePort.Port) in
  let ips := lbEps.(lbEndpoints.IPs) in
  let targetPort := lbEps.(lbEndpoints.Port) in
  let clusterIP := svc.(Service.Spec).(ServiceSpec.ClusterIP) in
  let vip := ext.(Externals.util_JoinHostPortInt32) clusterIP port in
  (exists lb,
     In (EvGetLoadBalancer proto (lb, None)) t
     /\ if hasHostEndpoints cfg ext ips
           && String.eqb cfg.(config.Gateway_Mode) GatewayModeShared
        then
          In (EvCreatePerNodeVIPs [clusterIP] proto port ips targetPort None) t
          /\ In (EvDeleteLoadBalancerVIP lb vip None) t
        else if addClusterLBs then
          In (EvCreateLoadBalancerVIPs lb [clusterIP] port ips targetPort
                None) t
          /\ In (EvDeleteNodeVIPs [clusterIP] proto port) t
        else True)
  /\ (svc.(Service.Spec).(ServiceSpec.ExternalIPs) <> [] ->
      In (EvCreatePerNodeVIPs svc.(Service.Spec).(ServiceSpec.ExternalIPs)
            proto port ips targetPort None) t)
  /\ forall ing,
       In ing svc.(Service.Ingress) ->
       ing.(LoadBalancerIngress.IP) <> "" ->
       In (EvCreatePerNodeVIPs [ing.(LoadBalancerIngress.IP)] proto port ips
             targetPort None) t.

(** What the events [t] of one pass of the loop of [AddEndpoints] hold, for
    a service port with the backends [lbEps], when the pass places
    everything: the node-port VIP when the service type has a node port,
    and all of the cluster-IP step when the service type has a cluster
    IP. *)
Definition placesAll (cfg : config.t) (ext : Externals.t) (svc : Service.t)
    (addClusterLBs : bool) (svcPort : ServicePort.t) (lbEps : lbEndpoints.t)
    (t : list Event) : Prop :=
  (ext.(Externals.util_ServiceTypeHasNodePort) svc = true ->
   In (EvCreatePerNodeVIPs [] svcPort.(ServicePort.Protocol)
         svcPort.(ServicePort.NodePort) lbEps.(lbEndpoints.IPs)
         lbEps.(lbEndpoints.Port) None) t)
  /\ (ext.(Externals.util_ServiceTypeHasClusterIP) svc = true ->
      placesClusterIP cfg ext svc addClusterLBs svcPort lbEps t).

(** ** A pass of AddEndpoints in which later steps fail *)

(** The events [t] of one pass of the loop of [AddEndpoints] show that the
    placement of the cluster address, for a service port with the backends
    [lbEps], did not stop the pass: with host endpoints in shared mode,
    the per-node write of the cluster address succeeded; else, when the
    caller asked for the cluster tier, the write to the cluster tier
    succeeded; else, the cluster load balancer was found. *)
Definition placementDone (cfg : config.t) (ext : Externals.t)
    (svc : Service.t) (addClusterLBs : bool) (svcPort : ServicePort.t)
    (lbEps : lbEndpoints.t) (t : list Event) : Prop :=
  let proto := svcPort.(ServicePort.Protocol) in
  let port := svcPort.(ServicePort.Port) in
  let ips := lbEps.(lbEndpoints.IPs) in
  let targetPort := lbEps.(lbEndpoints.Port) in
  let clusterIP := svc.(Service.Spec).(ServiceSpec.ClusterIP) in
  if hasHostEndpoints cfg ext ips
     && String.eqb cfg.(config.Gateway_Mode) GatewayModeShared
  then In (EvCreatePerNodeVIPs [clusterIP] proto port ips targetPort None) t
  else if addClusterLBs then
    exists lb,
      In (EvCreateLoadBalancerVIPs lb [clusterIP] port ips targetPort None) t
  else exists lb, In (EvGetLoadBalancer proto (lb, None)) t.

(** The events [t] hold a call that writes the VIP of the external IPs,
    when the service has one, and a call that writes the VIP of every
    ingress address that is not empty, whatever these calls returned. *)
Definition attemptsExternalAndIngress (svc : Service.t)
    (svcPort : ServicePort.t) (lbEps : lbEndpoints.t) (t : list Event)
    : Prop :=
  (svc.(Service.Spec).(ServiceSpec.ExternalIPs) <> [] ->
   exists r,
     In (EvCreatePerNodeVIPs svc.(Service.Spec).(ServiceSpec.ExternalIPs)
           svcPort.(ServicePort.Protocol) svcPort.(ServicePort.Port)
           lbEps.(lbEndpoints.IPs) lbEps.(lbEndpoints.Port) r) t)
  /\ forall ing,
       In ing svc.(Service.Ingress) ->
       ing.(LoadBalancerIngress.IP) <> "" ->
       exists r,
         In (EvCreatePerNodeVIPs [ing.(LoadBalancerIngress.IP)]
               svcPort.(ServicePort.Protocol) svcPort.(ServicePort.Port)
               lbEps.(lbEndpoints.IPs) lbEps.(lbEndpoints.Port) r) t.

(** ** A pass of AddEndpoints that a failure stops *)

(** A failed lookup of the cluster load balancer, or a failed write to the
    cluster tier. *)
Definition isStoppingFailure (e : Event) : Prop :=
  match e with
  | EvGetLoadBalancer _ r => r.2 <> None
  | EvCreateLoadBalancerVIPs _ _ _ _ _ r => r <> None
  | _ => False
  end.

(** The events [rest] are one log line and nothing else. *)
Definition onlyLog (rest : list Event) : Prop :=
  exists l, rest = [l] /\ isKlog l.

(** In the events [t] of one pass of the loop of [AddEndpoints], a failed
    lookup of the cluster load balancer and a failed write to the cluster
    tier are followed by a log line and nothing else; and when the
    placement is per node ([perNode]: host endpoints in shared mode), so
    is a failed per-node write that directly follows the lookup of the
    cluster load balancer, which is the write of the cluster address. *)
Fixpoint failureStopsPass (perNode : bool) (t : list Event) : Prop :=
  match t with
  | [] => True
  | e :: rest =>
      (isStoppingFailure e -> onlyLog rest)
      /\ match e, rest with
         | EvGetLoadBalancer _ (_, None),
           EvCreatePerNodeVIPs _ _ _ _ _ (Some _) :: rest' =>
             perNode = true -> onlyLog rest'
         | _, _ => True
         end
      /\ failureStopsPass perNode rest
  end.

(** ** The calls of deleteEndpoints *)

(** A clear, [configureLoadBalancer] with no target, or the log line of
    its failure. *)
Definition isClearOrLog (e : Event) : Prop :=
  match e with
  | EvConfigureLoadBalancer _ _ _ targets _ => targets = []
  | EvKlogErrorf _ _ => True
  | _ => False
  end.

(** A lookup of a load balancer (of the cluster, of a gateway, of a
    worker) or of the physical IPs of a gateway that failed. *)
Definition isFailedLookup (e : Event) : Prop :=
  match e with
  | EvGetLoadBalancer _ r => r.2 <> None
  | EvGetGatewayLoadBalancer _ _ r => r.2 <> None
  | EvGetWorkerLoadBalancer _ _ r => r.2 <> None
  | EvGetGatewayPhysicalIPs _ r => r.2 <> None
  | _ => False
  end.

(** The lookup with which the pass of a service port, or of a gateway,
    begins. *)
Definition startsPass (e : Event) : Prop :=
  match e with
  | EvGetLoadBalancer _ _ => True
  | EvGetGatewayLoadBalancer _ _ _ => True
  | _ => False
  end.

(** After every failed lookup of the trace comes a log line and then the
    beginning of the next pass, or nothing. *)
Fixpoint failedLookupSkips (t : list Event) : Prop :=
  match t with
  | [] => True
  | e :: rest =>
      (isFailedLookup e ->
       match rest with
       | [] => False
       | l :: rest' =>
           isKlog l
           /\ match rest' with
              | [] => True
              | next :: _ => startsPass next
              end
       end)
      /\ failedLookupSkips rest
  end.

(** What the events [t] of one pass of the loop of [deleteEndpoints] over
    the gateways hold of the ingress addresses and of the node port, when
    the gateway load balancer [gatewayLB] and the worker load balancer
    [workerLB] of the gateway are found: for every ingress address, the
    clear of the VIP at (address, service port) on both; and, when the
    service type has a node port and the physical IPs of the gateway are
    found, for every one of them the clear of the VIP at (physical IP,
    node port) on both. *)
Definition clearsIngressAndNodePort (ext : Externals.t) (svc : Service.t)
    (svcPort : ServicePort.t) (gateway : string) (t : list Event) : Prop :=
  let proto := svcPort.(ServicePort.Protocol) in
  let workerNode := ext.(Externals.util_GetWorkerFromGatewayRouter) gateway in
  forall gatewayLB workerLB,
    In (EvGetGatewayLoadBalancer gateway proto (gatewayLB, None)) t ->
    In (EvGetWorkerLoadBalancer workerNode proto (workerLB, None)) t ->
    (forall ing,
       In ing svc.(Service.Ingress) ->
       ing.(LoadBalancerIngress.IP) <> "" ->
       exists r1 r2,
         In (EvConfigureLoadBalancer gatewayLB ing.(LoadBalancerIngress.IP)
               svcPort.(ServicePort.Port) [] r1) t
         /\ In (EvConfigureLoadBalancer workerLB ing.(LoadBalancerIngress.IP)
                  svcPort.(ServicePort.Port) [] r2) t)
    /\ (ext.(Externals.util_ServiceTypeHasNodePort) svc = true ->
        forall physicalIPs physicalIP,
          In (EvGetGatewayPhysicalIPs gateway (physicalIPs, None)) t ->
          In physicalIP physicalIPs ->
          exists r1 r2,
            In (EvConfigureLoadBalancer gatewayLB physicalIP
                  svcPort.(ServicePort.NodePort) [] r1) t
            /\ In (EvConfigureLoadBalancer workerLB physicalIP
                     svcPort.(ServicePort.NodePort) [] r2) t).

(** The events [t] of one pass of the loop of [deleteEndpoints] over the
    service ports, when the cluster load balancer of the port is found,
    are its lookup, the clear of the cluster address on it, the log line
    of a failure, and one pass per gateway, in order, each of which is as
    [P] says. *)
Definition onEveryGateway (P : string -> list Event -> Prop)
    (svc : Service.t) (gateways : list string) (svcPort : ServicePort.t)
    (t : list Event) : Prop :=
  exists c rest,
    t = EvGetLoadBalancer svcPort.(ServicePort.Protocol) c :: rest
    /\ (c.2 = None ->
        exists r logs tgs,
          rest = EvConfigureLoadBalancer c.1
                   svc.(Service.Spec).(ServiceSpec.ClusterIP)
                   svcPort.(ServicePort.Port) [] r
                 :: logs ++ List.concat tgs
          /\ Forall isKlog logs
          /\ Forall2 P gateways tgs).

(** The events [t] of one pass of the loop of [deleteEndpoints] over the
    service ports touch the cluster tier only: the lookup of the cluster
    load balancer, the clear of the cluster address on it when it is
    found, and log lines. *)
Definition clearsClusterTierOnly (svc : Service.t) (svcPort : ServicePort.t)
    (t : list Event) : Prop :=
  exists c logs,
    Forall isKlog logs
    /\ (c.2 <> None
        /\ t = EvGetLoadBalancer svcPort.(ServicePort.Protocol) c :: logs
        \/ c.2 = None
           /\ exists r,
                t = EvGetLoadBalancer svcPort.(ServicePort.Protocol) c
                    :: EvConfigureLoadBalancer c.1
                         svc.(Service.Spec).(ServiceSpec.ClusterIP)
                         svcPort.(ServicePort.Port) [] r
                    :: logs).

(** A controller that differs from [ovn] in that its listing of the
    gateways fails with [e] and yields no gateway. *)
Definition withoutGateways (e : GoError) (ovn : Controller.t)
    : Controller.t :=
  {| Controller.SCTPSupport := ovn.(Controller.SCTPSupport);
     Controller.svcController := ovn.(Controller.svcController);
     Controller.watchFactory_GetService :=
       ovn.(Controller.watchFactory_GetService);
     Controller.watchFactory_GetNamespaces :=
       ovn.(Controller.watchFactory_GetNamespaces);
     Controller.watchFactory_GetEndpoints :=
       ovn.(Controller.watchFactory_GetEndpoints);
     Controller.createPerNodeVIPs := ovn.(Controller.createPerNodeVIPs);
     Controller.getLoadBalancer := ovn.(Controller.getLoadBalancer);
     Controller.createLoadBalancerVIPs :=
       ovn.(Controller.createLoadBalancerVIPs);
     Controller.deleteLoadBalancerVIP :=
       ovn.(Controller.deleteLoadBalancerVIP);
     Controller.configureLoadBalancer :=
       ovn.(Controller.configureLoadBalancer);
     Controller.getOvnGateways := fun _ => ([], Some e);
     Controller.getGatewayLoadBalancer :=
       ovn.(Controller.getGatewayLoadBalancer);
     Controller.getGatewayPhysicalIPs :=
       ovn.(Controller.getGatewayPhysicalIPs) |}.

(** ** The legacy replay: what is listed and what is replayed *)

(** The namespaces whose Endpoints the trace lists, in order. *)
Definition listedNamespaces (t : list Event) : list string :=
  flat_map
    (fun e => match e with EvGetEndpoints ns _ => [ns] | _ => [] end) t.

(** The Endpoints objects, by namespace and name, that the listings of the
    trace that succeeded returned, in order. *)
Definition listedEndpoints (t : list Event) : list (string * string) :=
  flat_map
    (fun e =>
       match e with
       | EvGetEndpoints _ (endpoints, None) =>
           map (fun ep => (ep.(Endpoints.Namespace), ep.(Endpoints.Name)))
             endpoints
       | _ => []
       end)
    t.

(** The services, by namespace and name, that the trace looks up, in
    order: [AddEndpoints] begins with the lookup of the service of its
    object and makes no other. *)
Definition servicesLookedUp (t : list Event) : list (string * string) :=
  flat_map
    (fun e =>
       match e with EvGetService ns name _ => [(ns, name)] | _ => [] end)
    t.

(** An event that is neither the lookup of a service nor a listing of
    Endpoints. *)
Definition isOtherCall (e : Event) : Prop :=
  match e with
  | EvGetService _ _ _ => False
  | EvGetEndpoints _ _ => False
  | _ => True
  end.

(** ** Subsets without their invalid port entries *)

(** The subset [s] without the port entries that [ValidatePort]
    rejects. *)
Definition validPorts (s : EndpointSubset.t) : EndpointSubset.t :=
  EndpointSubset.mk s.(EndpointSubset.Addresses)
    (List.filter
       (fun port =>
          match ValidatePort port.(EndpointPort.Protocol)
                  port.(EndpointPort.Port) with
          | None => true
          | Some _ => false
          end)
       s.(EndpointSubset.Ports)).

(** What the events [t] of one pass of the loop of [deleteEndpoints] over
    the gateways hold of the external IPs of the service, when the gateway
    load balancer [gatewayLB] and the worker load balancer [workerLB] of
    the gateway are found and, for a service type with a node port, the
    physical IPs of the gateway are found too: for every external IP, the
    clear on the gateway load balancer of the VIP at (external IP, service
    port), and the clear on the worker load balancer of the VIP at
    (external IP, node port), as line 290 has it. *)
Definition clearsExternalIPs (ext : Externals.t) (svc : Service.t)
    (svcPort : ServicePort.t) (gateway : string) (t : list Event) : Prop :=
  let proto := svcPort.(ServicePort.Protocol) in
  let workerNode := ext.(Externals.util_GetWorkerFromGatewayRouter) gateway in
  forall gatewayLB workerLB,
    In (EvGetGatewayLoadBalancer gateway proto (gatewayLB, None)) t ->
    In (EvGetWorkerLoadBalancer workerNode proto (workerLB, None)) t ->
    (ext.(Externals.util_ServiceTypeHasNodePort) svc = true ->
     exists physicalIPs,
       In (EvGetGatewayPhysicalIPs gateway (physicalIPs, None)) t) ->
    forall extIP,
      In extIP svc.(Service.Spec).(ServiceSpec.ExternalIPs) ->
      exists r1 r2,
        In (EvConfigureLoadBalancer gatewayLB extIP
              svcPort.(ServicePort.Port) [] r1) t
        /\ In (EvConfigureLoadBalancer workerLB extIP
                 svcPort.(ServicePort.NodePort) [] r2) t.

(** A cluster in which [createPerNodeVIPs] fails for the external IP
    1.2.3.4 and succeeds for everything else. *)
Module ExFailures.

Definition externalFails (svcIPs : list string) : error :=
  match svcIPs with
  | [ip] => if String.eqb ip "1.2.3.4" then Ex.failure "no external" else None
  | _ => None
  end.

Definition controller : Controller.t :=
  Ex.controller (inl Ex.nodePortService) None Ex.noListing externalFails.

(** A cluster in which [createPerNodeVIPs] fails for the cluster IP
    10.96.0.10 and succeeds for everything else; [GetService] returns the
    ClusterIP service with an external IP. *)
Definition clusterIPFails (svcIPs : list string) : error :=
  match svcIPs with
  | [ip] => if String.eqb ip "10.96.0.10" then Ex.failure "no node" else None
  | _ => None
  end.

Definition placementFails : Controller.t :=
  Ex.controller (inl Ex.externalService) None Ex.noListing clusterIPFails.

End ExFailures.
(** * Properties *)

(** ** The monad and its loops *)

Lemma ok_ret {A : Type} (a : A) (Q : A -> list Event -> Prop) :
  Q a [] -> ok (ret a) Q.
Proof. intros HQ h. exists a, []. split; [reflexivity | exact HQ]. Qed.

Lemma ok_emit (e : Event) (Q : unit -> list Event -> Prop) :
  Q tt [e] -> ok (emit e) Q.
Proof. intros HQ h. exists tt, [e]. split; [reflexivity | exact HQ]. Qed.

Lemma ok_call {A : Type} (f : History -> A) (ev : A -> Event)
    (Q : A -> list Event -> Prop) :
  (forall a, Q a [ev a]) -> ok (call f ev) Q.
Proof. intros HQ h. exists (f h), [ev (f h)]. split; [reflexivity | apply HQ]. Qed.

Lemma ok_bind {A B : Type} (c : M A) (k : A -> M B)
    (Q1 : A -> list Event -> Prop) (Q : B -> list Event -> Prop) :
  ok c Q1 ->
  (forall a t1, Q1 a t1 -> ok (k a) (fun b t2 => Q b (t1 ++ t2))) ->
  ok (bind c k) Q.
Proof.
  intros Hc Hk h. unfold bind.
  destruct (Hc h) as (a & t1 & -> & H1).
  destruct (Hk a t1 H1 (h ++ t1)) as (b & t2 & -> & H2).
  exists b, (t1 ++ t2). split; [reflexivity | exact H2].
Qed.

Lemma ok_weaken {A : Type} (c : M A) (Q Q' : A -> list Event -> Prop) :
  ok c Q -> (forall a t, Q a t -> Q' a t) -> ok c Q'.
Proof.
  intros Hc HQ h. destruct (Hc h) as (a & t & E & H).
  exists a, t. split; [exact E | apply HQ, H].
Qed.

(** A run of a computation that is [ok] satisfies the postcondition. *)
Lemma ok_run {A : Type} (c : M A) (Q : A -> list Event -> Prop) h a t :
  ok c Q -> c h = Some (a, t) -> Q a t.
Proof.
  intros Hc E. destruct (Hc h) as (a' & t' & E' & H).
  rewrite E in E'. injection E' as -> ->. exact H.
Qed.

Lemma bind_run {A B : Type} (c : M A) (k : A -> M B) h a t1 b t2 :
  c h = Some (a, t1) -> k a (h ++ t1) = Some (b, t2) ->
  bind c k h = Some (b, t1 ++ t2).
Proof. intros E1 E2. unfold bind. rewrite E1, E2. reflexivity. Qed.

Lemma ok_for_range {A : Type} (body : A -> M unit)
    (P : A -> list Event -> Prop) (xs : list A) :
  (forall x, ok (body x) (fun _ t => P x t)) ->
  ok (for_range xs body)
    (fun _ t => exists ts, Forall2 P xs ts /\ t = List.concat ts).
Proof.
  intros Hbody. induction xs as [|x xs IH]; simpl.
  - apply ok_ret. exists []. split; [constructor | reflexivity].
  - eapply ok_bind; [apply Hbody |].
    intros [] t1 H1. eapply ok_weaken; [apply IH |].
    intros [] t (ts & HF & ->). exists (t1 :: ts).
    split; [constructor; assumption | reflexivity].
Qed.

(** A loop whose every pass keeps its events within a set closed under
    concatenation keeps its whole trace within it. *)
Lemma ok_for_range_Forall {A : Type} (body : A -> M unit)
    (P : Event -> Prop) (xs : list A) :
  (forall x, ok (body x) (fun _ t => Forall P t)) ->
  ok (for_range xs body) (fun _ t => Forall P t).
Proof.
  intros Hbody. induction xs as [|x xs IH]; simpl.
  - apply ok_ret. constructor.
  - eapply ok_bind; [apply Hbody |].
    intros [] t1 H1. eapply ok_weaken; [apply IH |].
    intros [] t H2. simpl. apply Forall_app. split; assumption.
Qed.

Lemma for_range_runs_exist {A : Type} (body : A -> M unit) (xs : list A) :
  (forall x, ok (body x) (fun _ _ => True)) ->
  forall h, exists ts,
    for_range_runs body h xs ts /\ for_range xs body h = Some (tt, List.concat ts).
Proof.
  intros Hbody. induction xs as [|x xs IH]; intros h.
  - exists []. split; [exact I | reflexivity].
  - destruct (Hbody x h) as ([] & t & E & _).
    destruct (IH (h ++ t)) as (ts & Hr & El).
    exists (t :: ts). split; [split; assumption |].
    simpl. eapply bind_run; eassumption.
Qed.

Lemma for_range_runs_Forall2 {A : Type} (body : A -> M unit)
    (P : A -> list Event -> Prop) (xs : list A) :
  (forall x, ok (body x) (fun _ t => P x t)) ->
  forall h ts, for_range_runs body h xs ts -> Forall2 P xs ts.
Proof.
  intros Hbody. induction xs as [|x xs IH]; intros h [|t ts] Hr;
    simpl in Hr; try contradiction.
  - constructor.
  - destruct Hr as [E Hr]. constructor.
    + exact (ok_run _ _ _ _ _ (Hbody x) E).
    + eapply IH, Hr.
Qed.


(** ** Logged failures *)

Lemma well_logged_app (t1 t2 : list Event) :
  well_logged t1 -> well_logged t2 -> well_logged (t1 ++ t2).
Proof.
  induction t1 as [|ev rest IH]; simpl; [intros _ H; exact H |].
  intros [Hev Hrest] H2. split; [| apply IH; assumption].
  destruct (errorOf ev); [| exact I].
  destruct rest; [contradiction | exact Hev].
Qed.

Lemma well_logged_concat (ts : list (list Event)) :
  Forall well_logged ts -> well_logged (List.concat ts).
Proof.
  induction 1 as [|t ts Ht _ IH]; simpl; [exact I |].
  apply well_logged_app; assumption.
Qed.
(** ** getLbEndpoints *)

Lemma ValidatePort_known (proto : Protocol) (port : Z) :
  ValidatePort proto port = None ->
  proto = ProtocolTCP \/ proto = ProtocolUDP \/ proto = ProtocolSCTP.
Proof.
  unfold ValidatePort.
  destruct (String.eqb_spec proto ProtocolTCP) as [->|_]; [auto |].
  destruct (String.eqb_spec proto ProtocolUDP) as [->|_]; [auto |].
  destruct (String.eqb_spec proto ProtocolSCTP) as [->|_]; [auto |].
  simpl. discriminate.
Qed.

Lemma tableEntry_snoc (bs : list (string * Z)) (ip : string) (port : Z) :
  tableEntry (bs ++ [(ip, port)])
  = Some (lbEndpoints.mk
            (match tableEntry bs with
             | Some lbEps => lbEps.(lbEndpoints.IPs) ++ [ip]
             | None => [ip]
             end)
            port).
Proof.
  destruct bs as [|b bs]; [reflexivity |].
  cbn [app tableEntry lbEndpoints.IPs].
  replace (b :: bs ++ [(ip, port)]) with ((b :: bs) ++ [(ip, port)])
    by reflexivity.
  rewrite List.last_last, List.map_app. reflexivity.
Qed.

Lemma protoPortMap_lookup_assign (m : protoPortMapT) (inner : gmap string lbEndpoints.t)
    (proto name : string) (v : lbEndpoints.t) (proto' name' : string) :
  m !! proto = Some inner ->
  protoPortMap_lookup (<[proto := <[name := v]> inner]> m) proto' name'
  = if String.eqb proto proto' && String.eqb name name' then Some v
    else protoPortMap_lookup m proto' name'.
Proof.
  intros Hin. unfold protoPortMap_lookup.
  destruct (String.eqb_spec proto proto') as [<-|Hp]; simpl.
  - rewrite lookup_insert_eq, Hin.
    destruct (String.eqb_spec name name') as [<-|Hn].
    + apply lookup_insert_eq.
    + apply lookup_insert_ne. exact Hn.
  - rewrite lookup_insert_ne by exact Hp. reflexivity.
Qed.

Lemma represents_ext (m : protoPortMapT) B B' :
  (forall proto name, B proto name = B' proto name) ->
  represents m B -> represents m B'.
Proof.
  intros HB [Hk Hl]. split; [exact Hk |].
  intros proto name. rewrite <- HB. apply Hl.
Qed.

(** One visit of the innermost loop. *)
Lemma getLbEndpoints_port_step (ip : EndpointAddress.t) (m : protoPortMapT) B
    (port : EndpointPort.t) h :
  represents m B ->
  exists m',
    getLbEndpoints_port ip m port h = Some (m', invalidPortLog port)
    /\ represents m'
         (fun proto name => B proto name ++ backendOf proto name ip port).
Proof.
  intros [Hk Hl]. unfold getLbEndpoints_port, invalidPortLog, backendOf.
  destruct (ValidatePort _ _) as [err|] eqn:EV.
  - exists m. split; [reflexivity |]. split; [exact Hk |].
    intros proto name. unfold declares. rewrite EV, andb_false_r, app_nil_r.
    apply Hl.
  - assert (exists inner, m !! port.(EndpointPort.Protocol) = Some inner)
      as [inner Hin].
    { destruct Hk as (H1 & H2 & H3).
      destruct (ValidatePort_known _ _ EV) as [-> | [-> | ->]];
        [destruct H1 as [i ?] | destruct H2 as [i ?] | destruct H3 as [i ?]];
        exists i; assumption. }
    unfold protoPortMap_assign. rewrite Hin.
    eexists. split; [reflexivity |]. split.
    + destruct Hk as (H1 & H2 & H3).
      repeat split;
        match goal with
        | |- is_Some (<[?k := _]> _ !! ?k') =>
            destruct (decide (k = k')) as [->|Hne];
            [rewrite lookup_insert_eq; eauto
            | rewrite lookup_insert_ne by exact Hne; assumption]
        end.
    + intros proto name.
      rewrite (protoPortMap_lookup_assign _ _ _ _ _ _ _ Hin).
      unfold declares. rewrite EV, andb_true_r.
      destruct (_ && _) eqn:Ek.
      * apply andb_prop in Ek as [Ep En].
        apply String.eqb_eq in Ep, En. subst proto name.
        rewrite tableEntry_snoc, <- Hl. reflexivity.
      * rewrite app_nil_r. apply Hl.
Qed.

(** The loop over the ports of a subset, for one address. *)
Lemma getLbEndpoints_ports_run (ip : EndpointAddress.t)
    (ports : list EndpointPort.t) :
  forall (m : protoPortMapT) B h,
    represents m B ->
    exists m',
      for_range_acc ports (getLbEndpoints_port ip) m h
      = Some (m', flat_map invalidPortLog ports)
      /\ represents m'
           (fun proto name =>
              B proto name ++ flat_map (backendOf proto name ip) ports).
Proof.
  induction ports as [|port ports IH]; intros m B h Hm.
  - exists m. split; [reflexivity |].
    eapply represents_ext; [| exact Hm].
    intros. simpl. rewrite app_nil_r. reflexivity.
  - destruct (getLbEndpoints_port_step ip m B port h Hm) as (m1 & E1 & H1).
    destruct (IH m1 _ (h ++ invalidPortLog port) H1) as (m' & E2 & H2).
    exists m'. split.
    + simpl. eapply bind_run; eassumption.
    + eapply represents_ext; [| exact H2].
      intros. simpl. rewrite app_assoc. reflexivity.
Qed.

(** The loop over the addresses of a subset. *)
Lemma getLbEndpoints_addresses_run (ports : list EndpointPort.t)
    (addresses : list EndpointAddress.t) :
  forall (m : protoPortMapT) B h,
    represents m B ->
    exists m',
      for_range_acc addresses
        (fun protoPortMap ip =>
           for_range_acc ports (getLbEndpoints_port ip) protoPortMap)
        m h
      = Some (m', flat_map (fun _ => flat_map invalidPortLog ports) addresses)
      /\ represents m'
           (fun proto name =>
              B proto name
              ++ flat_map
                   (fun ip => flat_map (backendOf proto name ip) ports)
                   addresses).
Proof.
  induction addresses as [|ip addresses IH]; intros m B h Hm.
  - exists m. split; [reflexivity |].
    eapply represents_ext; [| exact Hm].
    intros. simpl. rewrite app_nil_r. reflexivity.
  - destruct (getLbEndpoints_ports_run ip ports m B h Hm) as (m1 & E1 & H1).
    destruct (IH m1 _ (h ++ flat_map invalidPortLog ports) H1)
      as (m' & E2 & H2).
    exists m'. split.
    + simpl. eapply bind_run; eassumption.
    + eapply represents_ext; [| exact H2].
      intros. simpl. rewrite app_assoc. reflexivity.
Qed.

(** The loop over the subsets. *)
Lemma getLbEndpoints_subsets_run (subsets : list EndpointSubset.t) :
  forall (m : protoPortMapT) B h,
    represents m B ->
    exists m',
      for_range_acc subsets
        (fun protoPortMap s =>
           for_range_acc s.(EndpointSubset.Addresses)
             (fun protoPortMap ip =>
                for_range_acc s.(EndpointSubset.Ports)
                  (getLbEndpoints_port ip) protoPortMap)
             protoPortMap)
        m h
      = Some (m',
              flat_map
                (fun s =>
                   flat_map
                     (fun _ : EndpointAddress.t =>
                        flat_map invalidPortLog s.(EndpointSubset.Ports))
                     s.(EndpointSubset.Addresses))
                subsets)
      /\ represents m'
           (fun proto name =>
              B proto name
              ++ flat_map
                   (fun s =>
                      flat_map
                        (fun ip =>
                           flat_map (backendOf proto name ip)
                             s.(EndpointSubset.Ports))
                        s.(EndpointSubset.Addresses))
                   subsets).
Proof.
  induction subsets as [|s subsets IH]; intros m B h Hm.
  - exists m. split; [reflexivity |].
    eapply represents_ext; [| exact Hm].
    intros. simpl. rewrite app_nil_r. reflexivity.
  - destruct (getLbEndpoints_addresses_run s.(EndpointSubset.Ports)
                s.(EndpointSubset.Addresses) m B h Hm) as (m1 & E1 & H1).
    match type of E1 with
    | _ = Some (_, ?t) => destruct (IH m1 _ (h ++ t) H1) as (m' & E2 & H2)
    end.
    exists m'. split.
    + simpl. eapply bind_run; eassumption.
    + eapply represents_ext; [| exact H2].
      intros. simpl. rewrite app_assoc. reflexivity.
Qed.

Lemma getLbEndpoints_init_represents :
  represents getLbEndpoints_init (fun _ _ => []).
Proof.
  split.
  - repeat split; eexists; unfold getLbEndpoints_init;
      repeat (rewrite lookup_insert_eq || rewrite lookup_insert_ne by discriminate);
      reflexivity.
  - intros proto name. unfold protoPortMap_lookup, getLbEndpoints_init.
    repeat (rewrite lookup_insert;
            destruct (decide (_ = proto)); [apply lookup_empty |]).
    rewrite lookup_empty. reflexivity.
Qed.

(** [getLbEndpoints] never panics; its table is that of the backends of
    the object, and its trace the log lines of the rejected entries. *)
Lemma getLbEndpoints_run (ep : Endpoints.t) h :
  exists m,
    getLbEndpoints ep h = Some (m, invalidPortLogs ep)
    /\ represents m (backends ep).
Proof.
  destruct (getLbEndpoints_subsets_run ep.(Endpoints.Subsets)
              getLbEndpoints_init _ h getLbEndpoints_init_represents)
    as (m & E & H).
  exists m. split; [exact E |].
  eapply represents_ext; [| exact H]. reflexivity.
Qed.

(** ** Symbolic execution *)

Lemma ok_call_eq {A : Type} (f : History -> A) (ev : A -> Event) :
  ok (call f ev) (fun a t => t = [ev a]).
Proof. apply ok_call. reflexivity. Qed.

Lemma ok_emit_eq (e : Event) : ok (emit e) (fun _ t => t = [e]).
Proof. apply ok_emit. reflexivity. Qed.

Lemma ok_ret_eq {A : Type} (a : A) : ok (ret a) (fun a' t => a' = a /\ t = []).
Proof. apply ok_ret. split; reflexivity. Qed.

Lemma bind_assoc {A B C : Type} (c : M A) (k : A -> M B) (k' : B -> M C) h :
  bind (bind c k) k' h = bind c (fun a => bind (k a) k') h.
Proof.
  unfold bind. destruct (c h) as [[a t1]|]; [| reflexivity].
  destruct (k a (h ++ t1)) as [[b t2]|]; [| reflexivity].
  rewrite <- app_assoc.
  destruct (k' b (h ++ t1 ++ t2)) as [[x t3]|]; [| reflexivity].
  rewrite <- app_assoc. reflexivity.
Qed.

Lemma ok_bind_assoc {A B C : Type} (c : M A) (k : A -> M B) (k' : B -> M C)
    (Q : C -> list Event -> Prop) :
  ok (bind c (fun a => bind (k a) k')) Q -> ok (bind (bind c k) k') Q.
Proof. intros H h. rewrite bind_assoc. apply H. Qed.

Lemma ok_and {A : Type} (c : M A) (Q1 Q2 : A -> list Event -> Prop) :
  ok c Q1 -> ok c Q2 -> ok c (fun a t => Q1 a t /\ Q2 a t).
Proof.
  intros H1 H2 h. destruct (H1 h) as (a & t & E & HQ1).
  exists a, t. repeat split; [exact E | exact HQ1 |].
  exact (ok_run _ _ _ _ _ H2 E).
Qed.

Lemma ok_total {A : Type} (c : M A) (Q : A -> list Event -> Prop) :
  ok c Q -> ok c (fun _ _ => True).
Proof. intros H. eapply ok_weaken; [exact H | trivial]. Qed.

Ltac unfold_calls :=
  unfold call_createPerNodeVIPs, call_getLoadBalancer,
    call_createLoadBalancerVIPs, call_deleteLoadBalancerVIP, call_GetService,
    call_configureLoadBalancer, call_getGatewayLoadBalancer,
    call_GetWorkerLoadBalancer, call_getGatewayPhysicalIPs,
    call_getOvnGateways, klog_Errorf, klog_Error.

(** One step of the execution of a computation under [ok]: [sub] proves
    [ok c ?Q] for the computations [c] that have a lemma of their own. *)
Ltac ok_step sub :=
  lazymatch goal with
  | |- ok (ret _) _ => apply ok_ret
  | |- ok (emit _) _ => apply ok_emit
  | |- ok (bind (call _ _) _) _ =>
      eapply ok_bind; [apply ok_call_eq | intros ? ? ->]
  | |- ok (bind (emit _) _) _ =>
      eapply ok_bind; [apply ok_emit_eq | intros ? ? ->]
  | |- ok (bind (ret _) _) _ =>
      eapply ok_bind; [apply ok_ret_eq | intros ? ? [-> ->]]
  | |- ok (bind (bind _ _) _) _ => apply ok_bind_assoc
  | |- ok (bind (if ?b then _ else _) _) _ => destruct b eqn:?
  | |- ok (bind (match snd ?x with _ => _ end) _) _ =>
      is_var x; destruct x as [? [?|]]; cbn [fst snd]
  | |- ok (bind (match ?x with _ => _ end) _) _ =>
      first [is_var x; destruct x | destruct x eqn:?]
  | |- ok (bind _ _) _ => eapply ok_bind; [sub | intros ? ? ?]
  | |- ok (if ?b then _ else _) _ => destruct b eqn:?
  | |- ok (match snd ?x with _ => _ end) _ =>
      is_var x; destruct x as [? [?|]]; cbn [fst snd]
  | |- ok (match ?x with _ => _ end) _ =>
      first [is_var x; destruct x | destruct x eqn:?]
  | |- ok _ _ => eapply ok_weaken; [sub | intros ? ? ?]
  end.

Ltac ok_exec sub := unfold_calls; repeat (ok_step sub; cbn beta iota in *).

(** [Forall P] of a list written out. *)
Ltac Forall_explicit :=
  repeat first [apply List.Forall_nil | apply List.Forall_cons; [simpl |]].

(** [well_logged] of a trace written out, with hypotheses for its parts. *)
Ltac wl_solve :=
  repeat first
    [ assumption
    | exact I
    | progress (simpl; repeat split)
    | solve [intuition auto]
    | apply well_logged_app ].

(** ** AddEndpoints: the external-IP and ingress steps *)

Lemma AddEndpoints_ingress_events ovn (svc : Service.t)
    (svcPort : ServicePort.t) (lbEps : lbEndpoints.t)
    (ings : list LoadBalancerIngress.t) :
  (forall ing, In ing ings -> In ing svc.(Service.Ingress)) ->
  ok (for_range ings
        (fun ing =>
           if String.eqb ing.(LoadBalancerIngress.IP) "" then ret tt
           else
             err <- call_createPerNodeVIPs ovn [ing.(LoadBalancerIngress.IP)]
                      svcPort.(ServicePort.Protocol) svcPort.(ServicePort.Port)
                      lbEps.(lbEndpoints.IPs) lbEps.(lbEndpoints.Port) ;;
             match err with
             | Some e =>
                 klog_Errorf
                   "Error in creating Ingress LB IP for svc %s, target port: %d - %v\n"
                   [ArgString svc.(Service.Name); ArgInt lbEps.(lbEndpoints.Port);
                    ArgError e]
             | None => ret tt
             end))
    (fun _ t => Forall (isExternalOrIngressEvent svc) t /\ well_logged t).
Proof.
  induction ings as [|ing ings IH]; intros Hin; simpl.
  - apply ok_ret. split; [constructor | exact I].
  - eapply ok_bind with
      (Q1 := fun _ t => Forall (isExternalOrIngressEvent svc) t /\ well_logged t).
    + ok_exec fail; simpl.
      all: (split; [Forall_explicit | tauto]).
      all: try exact I.
      all: right; exists ing; (split; [apply Hin; left |]; reflexivity).
    + intros [] t1 [HF1 HW1]. eapply ok_weaken.
      * apply IH. intros i Hi. apply Hin. right. exact Hi.
      * intros [] t2 [HF2 HW2]. split;
          [apply Forall_app; split; assumption
          | apply well_logged_app; assumption].
Qed.

Lemma AddEndpoints_externalAndIngress_events ovn (svc : Service.t)
    (svcPort : ServicePort.t) (lbEps : lbEndpoints.t) :
  ok (AddEndpoints_externalAndIngress ovn svc svcPort lbEps)
    (fun _ t => Forall (isExternalOrIngressEvent svc) t /\ well_logged t).
Proof.
  unfold AddEndpoints_externalAndIngress.
  eapply ok_bind with
    (Q1 := fun _ t => Forall (isExternalOrIngressEvent svc) t /\ well_logged t).
  - ok_exec fail; simpl; (split; [Forall_explicit | tauto]); try exact I.
    all: left; split; [reflexivity |].
    all: intros E; rewrite E in *; discriminate.
  - intros [] t1 [HF1 HW1]. eapply ok_weaken.
    + apply AddEndpoints_ingress_events. trivial.
    + intros [] t2 [HF2 HW2]. split;
        [apply Forall_app; split; assumption
        | apply well_logged_app; assumption].
Qed.

(** ** AddEndpoints: the cluster-IP step of one port *)

Lemma AddEndpoints_clusterIP_well_logged cfg ext ovn (svc : Service.t)
    (addClusterLBs : bool) (svcPort : ServicePort.t) (lbEps : lbEndpoints.t) :
  ok (AddEndpoints_clusterIP cfg ext ovn svc addClusterLBs svcPort lbEps)
    (fun _ t => well_logged t).
Proof.
  unfold AddEndpoints_clusterIP.
  ok_exec ltac:(apply AddEndpoints_externalAndIngress_events).
  all: simpl; intuition auto.
Qed.


Lemma externalOrIngress_not_cluster (svc : Service.t) (t : list Event) :
  Forall (isExternalOrIngressEvent svc) t ->
  Forall (fun e => ~ isCreateLoadBalancerVIPs e) t.
Proof.
  apply List.Forall_impl. intros [] H; simpl in *; tauto.
Qed.


Lemma externalOrIngress_not_nodePort (svc : Service.t) (t : list Event) :
  Forall (isExternalOrIngressEvent svc) t ->
  Forall (fun e => ~ isNodePortCreate e) t.
Proof.
  apply List.Forall_impl. intros [] H; simpl in *; try tauto.
  destruct svcIPs; [| tauto].
  destruct H as [[_ H] | (ing & _ & H)]; [congruence | discriminate].
Qed.


Lemma AddEndpoints_clusterIP_no_nodePort cfg ext ovn (svc : Service.t)
    (addClusterLBs : bool) (svcPort : ServicePort.t) (lbEps : lbEndpoints.t) :
  ok (AddEndpoints_clusterIP cfg ext ovn svc addClusterLBs svcPort lbEps)
    (fun _ t => Forall (fun e => ~ isNodePortCreate e) t).
Proof.
  unfold AddEndpoints_clusterIP.
  ok_exec ltac:(apply AddEndpoints_externalAndIngress_events).
  all: repeat match goal with
         | H : Forall _ _ /\ _ |- _ => destruct H as [? _]
         end.
  all: simpl; Forall_explicit; try tauto.
  all: eapply externalOrIngress_not_nodePort; eassumption.
Qed.

Lemma AddEndpoints_clusterIP_no_cluster_write cfg ext ovn (svc : Service.t)
    (svcPort : ServicePort.t) (lbEps : lbEndpoints.t) :
  ok (AddEndpoints_clusterIP cfg ext ovn svc false svcPort lbEps)
    (fun _ t => Forall (fun e => ~ isCreateLoadBalancerVIPs e) t).
Proof.
  unfold AddEndpoints_clusterIP.
  ok_exec ltac:(apply AddEndpoints_externalAndIngress_events).
  all: repeat match goal with
         | H : Forall _ _ /\ _ |- _ => destruct H as [? _]
         end.
  all: simpl; Forall_explicit; try tauto.
  all: eapply externalOrIngress_not_cluster; eassumption.
Qed.

(** ** AddEndpoints: one pass of the loop over the ports *)

Lemma AddEndpoints_port_well_logged cfg ext ovn ep (svc : Service.t)
    (m : protoPortMapT) (addClusterLBs : bool) (svcPort : ServicePort.t) :
  ok (AddEndpoints_port cfg ext ovn ep svc m addClusterLBs svcPort)
    (fun _ t => well_logged t).
Proof.
  unfold AddEndpoints_port.
  ok_exec ltac:(apply AddEndpoints_clusterIP_well_logged).
  all: simpl; intuition auto.
Qed.

Lemma AddEndpoints_port_no_cluster_write cfg ext ovn ep (svc : Service.t)
    (m : protoPortMapT) (svcPort : ServicePort.t) :
  ok (AddEndpoints_port cfg ext ovn ep svc m false svcPort)
    (fun _ t => Forall (fun e => ~ isCreateLoadBalancerVIPs e) t).
Proof.
  unfold AddEndpoints_port.
  ok_exec ltac:(apply AddEndpoints_clusterIP_no_cluster_write).
  all: simpl; Forall_explicit; try tauto.
Qed.



Lemma AddEndpoints_port_nodePort_failure cfg ext ovn ep (svc : Service.t)
    (m : protoPortMapT) (addClusterLBs : bool) (svcPort : ServicePort.t) :
  ok (AddEndpoints_port cfg ext ovn ep svc m addClusterLBs svcPort)
    (fun _ t => nodePortFailureEndsPass svc svcPort t).
Proof.
  unfold AddEndpoints_port.
  ok_exec ltac:(apply AddEndpoints_clusterIP_no_nodePort).
  all: intros svcIPs proto port ips tport e Hin ->; simpl in Hin.
  all: repeat (destruct Hin as [Hin | Hin];
               [first [discriminate Hin | injection Hin as <- <- <- <- <-
                      | idtac] |]).
  all: try contradiction.
  all: try (repeat split; reflexivity).
  all: exfalso; rewrite List.Forall_forall in *;
    match goal with
    | H : forall x, In x _ -> _ |- _ => exact (H _ Hin I)
    end.
Qed.

(** ** AddEndpoints: the whole function *)

Lemma well_logged_klogs (t : list Event) : Forall isKlog t -> well_logged t.
Proof.
  induction 1 as [|l t Hl _ IH]; simpl; [exact I |].
  split; [| exact IH]. destruct l; simpl in *; tauto.
Qed.

Lemma invalidPortLogs_klogs (ep : Endpoints.t) :
  Forall isKlog (invalidPortLogs ep).
Proof.
  unfold invalidPortLogs. rewrite List.Forall_forall. intros e Hin.
  apply in_flat_map in Hin as (s & _ & Hin).
  apply in_flat_map in Hin as (ip & _ & Hin).
  apply in_flat_map in Hin as (port & _ & Hin).
  unfold invalidPortLog in Hin.
  destruct (ValidatePort _ _); simpl in Hin; [| contradiction].
  destruct Hin as [<- | []]. exact I.
Qed.

Lemma getLbEndpoints_ok (ep : Endpoints.t) :
  ok (getLbEndpoints ep)
    (fun m t => t = invalidPortLogs ep /\ represents m (backends ep)).
Proof.
  intros h. destruct (getLbEndpoints_run ep h) as (m & E & H).
  exists m, (invalidPortLogs ep). auto.
Qed.

Lemma ok_for_range_well_logged {A : Type} (body : A -> M unit) (xs : list A) :
  (forall x, ok (body x) (fun _ t => well_logged t)) ->
  ok (for_range xs body) (fun _ t => well_logged t).
Proof.
  intros Hbody. eapply ok_weaken; [apply (ok_for_range _ _ _ Hbody) |].
  intros [] t (ts & HF & ->). apply well_logged_concat.
  clear Hbody. induction HF; constructor; assumption.
Qed.

(** [AddEndpoints] never panics, returns nil, and logs every failure. *)
Lemma AddEndpoints_ok cfg ext ovn (ep : Endpoints.t) (addClusterLBs : bool) :
  ok (AddEndpoints cfg ext ovn ep addClusterLBs)
    (fun r t => r = None /\ well_logged t).
Proof.
  unfold AddEndpoints.
  ok_exec ltac:(first
    [ apply getLbEndpoints_ok
    | apply ok_for_range_well_logged; intros;
      apply AddEndpoints_port_well_logged ]).
  all: repeat match goal with
         | H : _ = invalidPortLogs _ /\ _ |- _ => destruct H as [-> _]
         end.
  all: simpl; (split; [reflexivity |]); repeat split; try exact I.
  all: apply well_logged_app;
    [apply well_logged_klogs, invalidPortLogs_klogs |].
  all: simpl; repeat split; try exact I.
  rewrite app_nil_r. assumption.
Qed.

(** Without the cluster tier, [AddEndpoints] writes nothing to it. *)
Lemma AddEndpoints_no_cluster_write cfg ext ovn (ep : Endpoints.t) :
  ok (AddEndpoints cfg ext ovn ep false)
    (fun _ t => Forall (fun e => ~ isCreateLoadBalancerVIPs e) t).
Proof.
  unfold AddEndpoints.
  ok_exec ltac:(first
    [ apply getLbEndpoints_ok
    | apply ok_for_range_Forall; intros;
      apply AddEndpoints_port_no_cluster_write ]).
  all: repeat match goal with
         | H : _ = invalidPortLogs _ /\ _ |- _ => destruct H as [-> _]
         end.
  all: simpl; Forall_explicit; try tauto.
  all: apply Forall_app; split;
    [eapply List.Forall_impl; [| apply invalidPortLogs_klogs];
     intros []; simpl; tauto |].
  all: Forall_explicit; try tauto.
  rewrite app_nil_r. assumption.
Qed.

(** The run of [AddEndpoints] for a service that is found, has a cluster IP
    and is not idled: the prelude, then one pass per service port. *)
Lemma AddEndpoints_loop_run cfg ext ovn (ep : Endpoints.t)
    (addClusterLBs : bool) (h : History) (svc : Service.t) :
  ovn.(Controller.watchFactory_GetService) h ep.(Endpoints.Namespace)
    ep.(Endpoints.Name) = inl svc ->
  ext.(Externals.util_IsClusterIPSet) svc = true ->
  svcNeedsIdling cfg ext svc.(Service.Annotations)
  && (List.length ep.(Endpoints.Subsets) =? 0)%nat = false ->
  exists m ts,
    getLbEndpoints ep
      (h ++ [EvGetService ep.(Endpoints.Namespace) ep.(Endpoints.Name)
               (inl svc)])
    = Some (m, invalidPortLogs ep)
    /\ represents m (backends ep)
    /\ for_range_runs (AddEndpoints_port cfg ext ovn ep svc m addClusterLBs)
         (h ++ AddEndpoints_prelude ep svc)
         svc.(Service.Spec).(ServiceSpec.Ports) ts
    /\ AddEndpoints cfg ext ovn ep addClusterLBs h
       = Some (None, AddEndpoints_prelude ep svc ++ List.concat ts).
Proof.
  intros Esvc Hip Hidle.
  destruct (getLbEndpoints_run ep
              (h ++ [EvGetService ep.(Endpoints.Namespace)
                       ep.(Endpoints.Name) (inl svc)]))
    as (m & Em & Hm).
  destruct (for_range_runs_exist
              (AddEndpoints_port cfg ext ovn ep svc m addClusterLBs)
              svc.(Service.Spec).(ServiceSpec.Ports)
              (fun x => ok_total _ _
                          (AddEndpoints_port_well_logged cfg ext ovn ep svc m
                             addClusterLBs x))
              (h ++ AddEndpoints_prelude ep svc))
    as (ts & Hruns & Eloop).
  exists m, ts.
  split; [exact Em |]. split; [exact Hm |]. split; [exact Hruns |].
  unfold AddEndpoints, call_GetService.
  change (AddEndpoints_prelude ep svc ++ List.concat ts)
    with ([EvGetService ep.(Endpoints.Namespace) ep.(Endpoints.Name) (inl svc)]
          ++ (invalidPortLogs ep
              ++ [EvDeleteServiceFromIdlingBalancer svc])
          ++ List.concat ts).
  eapply bind_run; [unfold call; rewrite Esvc; reflexivity |].
  cbn beta iota. rewrite Hip. cbn [negb]. rewrite <- app_assoc.
  eapply bind_run; [exact Em |].
  cbn beta iota. rewrite Hidle.
  eapply bind_run; [reflexivity |].
  cbn beta iota.
  replace (List.concat ts) with (List.concat ts ++ []) by apply app_nil_r.
  eapply bind_run; [| reflexivity].
  rewrite <- Eloop. f_equal. unfold AddEndpoints_prelude.
  rewrite <- !app_assoc. reflexivity.
Qed.

(** ** deleteEndpoints: the steps on one gateway *)

Lemma deleteEndpoints_clear_well_logged ovn (lb serviceIP : string) (port : Z)
    (logLB logIP : string) (logPort : Z) :
  ok (deleteEndpoints_clear ovn lb serviceIP port logLB logIP logPort)
    (fun _ t => well_logged t).
Proof.
  unfold deleteEndpoints_clear. ok_exec fail. all: simpl; intuition auto.
Qed.

Lemma deleteEndpoints_externalIPs_well_logged ovn (svc : Service.t)
    (svcPort : ServicePort.t) (gatewayLB workerLB : string) :
  ok (deleteEndpoints_externalIPs ovn svc svcPort gatewayLB workerLB)
    (fun _ t => well_logged t).
Proof.
  unfold deleteEndpoints_externalIPs.
  apply ok_for_range_well_logged. intros extIP.
  ok_exec ltac:(apply deleteEndpoints_clear_well_logged).
  apply well_logged_app; assumption.
Qed.

Lemma deleteEndpoints_ingress_well_logged ovn (svc : Service.t)
    (svcPort : ServicePort.t) (gatewayLB workerLB : string) :
  ok (deleteEndpoints_ingress ovn svc svcPort gatewayLB workerLB)
    (fun _ t => well_logged t).
Proof.
  unfold deleteEndpoints_ingress.
  apply ok_for_range_well_logged. intros ing.
  ok_exec ltac:(apply deleteEndpoints_clear_well_logged).
  - exact I.
  - apply well_logged_app; assumption.
Qed.

Lemma deleteEndpoints_nodePort_well_logged ext ovn (svc : Service.t)
    (svcPort : ServicePort.t) (gateway gatewayLB workerLB : string) :
  ok (deleteEndpoints_nodePort ext ovn svc svcPort gateway gatewayLB workerLB)
    (fun _ t => well_logged t).
Proof.
  unfold deleteEndpoints_nodePort.
  ok_exec ltac:(first
    [ apply deleteEndpoints_externalIPs_well_logged
    | apply ok_for_range_well_logged; intros;
      ok_exec ltac:(apply deleteEndpoints_clear_well_logged);
      apply well_logged_app; assumption ]).
  all: simpl; intuition auto.
  apply well_logged_app; assumption.
Qed.

Lemma ok_for_range_Forall_In {A : Type} (body : A -> M unit)
    (P : Event -> Prop) (xs : list A) :
  (forall x, In x xs -> ok (body x) (fun _ t => Forall P t)) ->
  ok (for_range xs body) (fun _ t => Forall P t).
Proof.
  induction xs as [|x xs IH]; intros Hbody; simpl.
  - apply ok_ret. constructor.
  - eapply ok_bind; [apply Hbody; left; reflexivity |].
    intros [] t1 H1. eapply ok_weaken.
    + apply IH. intros y Hy. apply Hbody. right. exact Hy.
    + intros [] t H2. simpl. apply Forall_app. split; assumption.
Qed.

Lemma deleteEndpoints_externalIPs_events ovn (svc : Service.t)
    (svcPort : ServicePort.t) (gatewayLB workerLB : string) :
  ok (deleteEndpoints_externalIPs ovn svc svcPort gatewayLB workerLB)
    (fun _ t => Forall (isPerNodeOtherClear svc svcPort) t).
Proof.
  unfold deleteEndpoints_externalIPs.
  apply ok_for_range_Forall_In. intros extIP Hin.
  unfold deleteEndpoints_clear. ok_exec fail.
  all: simpl; Forall_explicit; tauto.
Qed.


Lemma deleteEndpoints_nodePort_events ext ovn (svc : Service.t)
    (svcPort : ServicePort.t) (gateway gatewayLB workerLB : string) :
  ok (deleteEndpoints_nodePort ext ovn svc svcPort gateway gatewayLB workerLB)
    (fun _ t => Forall (isPerNodeOtherClear svc svcPort) t).
Proof.
  unfold deleteEndpoints_nodePort.
  ok_exec ltac:(first
    [ apply deleteEndpoints_externalIPs_events
    | apply (ok_for_range_Forall _ (isPerNodeOtherClear svc svcPort)); intros;
      unfold deleteEndpoints_clear; ok_exec fail;
      simpl; Forall_explicit; tauto ]).
  all: simpl; Forall_explicit; try tauto.
  apply Forall_app. split; assumption.
Qed.

(** ** deleteEndpoints: one pass of the loop over the gateways *)

Lemma deleteEndpoints_gateway_well_logged cfg ext ovn (svc : Service.t)
    (svcPort : ServicePort.t) (gateway : string) :
  ok (deleteEndpoints_gateway cfg ext ovn svc svcPort gateway)
    (fun _ t => well_logged t).
Proof.
  unfold deleteEndpoints_gateway. cbn zeta.
  ok_exec ltac:(first
    [ apply deleteEndpoints_clear_well_logged
    | apply deleteEndpoints_ingress_well_logged
    | apply deleteEndpoints_nodePort_well_logged ]).
  all: wl_solve.
Qed.


(** ** deleteEndpoints: one pass of the loop over the ports *)

Lemma deleteEndpoints_port_well_logged cfg ext ovn (svc : Service.t)
    (gateways : list string) (svcPort : ServicePort.t) :
  ok (deleteEndpoints_port cfg ext ovn svc gateways svcPort)
    (fun _ t => well_logged t).
Proof.
  unfold deleteEndpoints_port. cbn zeta.
  ok_exec ltac:(first
    [ apply deleteEndpoints_clear_well_logged
    | apply ok_for_range_well_logged; intros;
      apply deleteEndpoints_gateway_well_logged ]).
  all: wl_solve.
Qed.


(** ** deleteEndpoints: the whole function *)

(** [deleteEndpoints] never panics, returns nil, and logs every failure. *)
Lemma deleteEndpoints_ok cfg ext ovn (ep : Endpoints.t) :
  ok (deleteEndpoints cfg ext ovn ep)
    (fun r t => r = None /\ well_logged t).
Proof.
  unfold deleteEndpoints.
  ok_exec ltac:(first
    [ apply ok_for_range_well_logged; intros;
      apply deleteEndpoints_port_well_logged ]).
  all: (split; [reflexivity |]); wl_solve.
  all: rewrite app_nil_r; assumption.
Qed.

(** The run of [deleteEndpoints] for a service that is found, has a cluster
    IP and is not idled: the prelude, then one pass per service port. *)
Lemma deleteEndpoints_loop_run cfg ext ovn (ep : Endpoints.t) (h : History)
    (svc : Service.t) :
  ovn.(Controller.watchFactory_GetService) h ep.(Endpoints.Namespace)
    ep.(Endpoints.Name) = inl svc ->
  ext.(Externals.util_IsClusterIPSet) svc = true ->
  svcNeedsIdling cfg ext svc.(Service.Annotations) = false ->
  let g :=
    ovn.(Controller.getOvnGateways)
      (h ++ [EvGetService ep.(Endpoints.Namespace) ep.(Endpoints.Name)
               (inl svc);
             EvDeleteServiceFromIdlingBalancer svc]) in
  exists ts,
    for_range_runs (deleteEndpoints_port cfg ext ovn svc g.1)
      (h ++ deleteEndpoints_prelude ep svc g)
      svc.(Service.Spec).(ServiceSpec.Ports) ts
    /\ deleteEndpoints cfg ext ovn ep h
       = Some (None, deleteEndpoints_prelude ep svc g ++ List.concat ts).
Proof.
  intros Esvc Hip Hidle g.
  destruct (for_range_runs_exist
              (deleteEndpoints_port cfg ext ovn svc g.1)
              svc.(Service.Spec).(ServiceSpec.Ports)
              (fun x => ok_total _ _
                          (deleteEndpoints_port_well_logged cfg ext ovn svc
                             g.1 x))
              (h ++ deleteEndpoints_prelude ep svc g))
    as (ts & Hruns & Eloop).
  exists ts. split; [exact Hruns |].
  unfold deleteEndpoints, call_GetService, call_getOvnGateways.
  change (deleteEndpoints_prelude ep svc g ++ List.concat ts)
    with ([EvGetService ep.(Endpoints.Namespace) ep.(Endpoints.Name) (inl svc)]
          ++ [EvDeleteServiceFromIdlingBalancer svc]
          ++ [EvGetOvnGateways g]
          ++ match g.2 with
             | Some e => [EvKlogError [ArgError e]]
             | None => []
             end
          ++ List.concat ts).
  eapply bind_run; [unfold call; rewrite Esvc; reflexivity |].
  cbn beta iota. rewrite Hip, Hidle. cbn [negb].
  eapply bind_run; [reflexivity |].
  cbn beta iota.
  eapply (bind_run _ _ _ g [EvGetOvnGateways g]).
  { unfold call. rewrite <- app_assoc. reflexivity. }
  cbn beta iota.
  eapply bind_run.
  { destruct g.2; reflexivity. }
  replace (List.concat ts) with (List.concat ts ++ []) by apply app_nil_r.
  eapply bind_run; [| reflexivity].
  rewrite <- Eloop. f_equal. unfold deleteEndpoints_prelude.
  rewrite <- !app_assoc. reflexivity.
Qed.

(** ** Loops that may return from the function *)

Lemma bind_inv {A B : Type} (c : M A) (k : A -> M B) h b t :
  bind c k h = Some (b, t) ->
  exists a t1 t2,
    c h = Some (a, t1) /\ k a (h ++ t1) = Some (b, t2) /\ t = t1 ++ t2.
Proof.
  unfold bind. destruct (c h) as [[a t1]|]; [| discriminate].
  destruct (k a (h ++ t1)) as [[b' t2]|] eqn:E; [| discriminate].
  intros [= <- <-]. exists a, t1, t2. auto.
Qed.


(** ** handleNodePortLB: the abort of the legacy replay *)



(** ** handleNodePortLB: the legacy replay with the AddEndpoints of the file *)

Lemma replayNamespace_ok cfg ext ovn (ns : Namespace.t) :
  ok (replayNamespace cfg ext ovn ns)
    (fun _ t =>
       well_logged t
       /\ Forall (fun e => ~ isCreateLoadBalancerVIPs e) t
       /\ failedListingIsSkipped ns t).
Proof.
  unfold replayNamespace.
  assert (forall eps,
            ok (for_range eps
                  (fun ep => AddEndpoints cfg ext ovn ep false ;; ret tt))
              (fun _ t =>
                 well_logged t
                 /\ Forall (fun e => ~ isCreateLoadBalancerVIPs e) t))
    as Hloop.
  { intros eps. apply ok_and.
    - apply ok_for_range_well_logged. intros ep.
      ok_exec ltac:(apply AddEndpoints_ok).
      rewrite app_nil_r. apply H.
    - apply ok_for_range_Forall. intros ep.
      ok_exec ltac:(apply AddEndpoints_no_cluster_write).
      rewrite app_nil_r. assumption. }
  ok_exec ltac:(apply Hloop).
  - simpl. split; [intuition auto | split].
    + Forall_explicit; tauto.
    + do 2 eexists. split; [reflexivity |].
      intros e [= <-]. reflexivity.
  - destruct H as [HW HF]. simpl. split; [tauto | split].
    + constructor; [simpl; tauto | assumption].
    + do 2 eexists. split; [reflexivity |]. intros e [=].
Qed.

Lemma handleNodePortLB_endpoints_real cfg ext ovn (node : Node.t)
    (eps : list Endpoints.t) :
  forall h t,
    for_range eps (fun ep => AddEndpoints cfg ext ovn ep false ;; ret tt) h
    = Some (tt, t) ->
    handleNodePortLB_endpoints (AddEndpoints cfg ext ovn) node eps h
    = Some (None, t).
Proof.
  unfold handleNodePortLB_endpoints.
  induction eps as [|ep eps IH]; intros h t E; simpl in *.
  - injection E as <-. reflexivity.
  - apply bind_inv in E as ([] & t1 & t2 & E1 & E2 & ->).
    apply bind_inv in E1 as (r & ta & tb & Ea & Eb & ->).
    injection Eb as <-.
    destruct (ok_run _ _ _ _ _ (AddEndpoints_ok cfg ext ovn ep false) Ea)
      as [-> _].
    eapply bind_run.
    + eapply bind_run; [exact Ea | reflexivity].
    + cbn beta iota. apply IH. exact E2.
Qed.

Lemma handleNodePortLB_replay_real cfg ext ovn (node : Node.t)
    (namespaces : list Namespace.t) :
  forall h tns,
    for_range_runs (replayNamespace cfg ext ovn) h namespaces tns ->
    handleNodePortLB_replay ovn (AddEndpoints cfg ext ovn) node namespaces h
    = Some (None, List.concat tns).
Proof.
  unfold handleNodePortLB_replay.
  induction namespaces as [|ns nss IH]; intros h [|tn tns] Hr;
    simpl in Hr; try contradiction.
  - reflexivity.
  - destruct Hr as [En Hr]. simpl. eapply bind_run.
    + unfold replayNamespace in En.
      apply bind_inv in En as (r & t1 & t2 & Ec & Ek & ->).
      eapply bind_run; [exact Ec |].
      destruct r as [eps [err|]]; cbn [fst snd] in *.
      * unfold klog_Errorf, emit in *. injection Ek as <-. reflexivity.
      * apply handleNodePortLB_endpoints_real. exact Ek.
    + cbn beta iota. apply IH. exact Hr.
Qed.

(** The run of [handleNodePortLB] in legacy mode once the gateway check has
    passed and the namespaces are listed: one pass per namespace, and the
    result is nil. *)
Lemma handleNodePortLB_legacy_run cfg ext ovn (node : Node.t) h pre
    (namespaces : list Namespace.t) :
  gatewayCheckPasses ext ovn node h pre ->
  ovn.(Controller.svcController) = None ->
  ovn.(Controller.watchFactory_GetNamespaces) (h ++ pre) = (namespaces, None) ->
  exists tns,
    for_range_runs (replayNamespace cfg ext ovn)
      (h ++ pre ++ [EvGetNamespaces (namespaces, None)]) namespaces tns
    /\ handleNodePortLB cfg ext ovn node h
       = Some (None, pre ++ EvGetNamespaces (namespaces, None) :: List.concat tns).
Proof.
  intros Hcheck Hsync Hns.
  destruct (for_range_runs_exist (replayNamespace cfg ext ovn) namespaces
              (fun ns => ok_total _ _ (replayNamespace_ok cfg ext ovn ns))
              (h ++ pre ++ [EvGetNamespaces (namespaces, None)]))
    as (tns & Hruns & _).
  exists tns. split; [exact Hruns |].
  pose proof (handleNodePortLB_replay_real cfg ext ovn node namespaces _ _ Hruns)
    as Ereplay.
  assert (handleNodePortLB_sync ovn (AddEndpoints cfg ext ovn) node (h ++ pre)
          = Some (None, EvGetNamespaces (namespaces, None) :: List.concat tns))
    as Esync.
  { unfold handleNodePortLB_sync. rewrite Hsync.
    change (EvGetNamespaces (namespaces, None) :: List.concat tns)
      with ([EvGetNamespaces (namespaces, None)] ++ List.concat tns).
    eapply bind_run; [unfold call; rewrite Hns; reflexivity |].
    cbn [fst snd].
    replace (List.concat tns) with (List.concat tns ++ []) by apply app_nil_r.
    eapply bind_run.
    - rewrite <- Ereplay. f_equal. rewrite <- app_assoc. reflexivity.
    - reflexivity. }
  unfold handleNodePortLB, handleNodePortLB_with, gatewayCheckPasses in *.
  destruct (Externals.isGatewayInterfaceNone ext); cbn [negb].
  - subst pre. rewrite app_nil_r in Esync. exact Esync.
  - destruct Hcheck as [Hne ->].
    eapply bind_run; [reflexivity |].
    cbn zeta in *.
    destruct (fst (Controller.getGatewayPhysicalIPs ovn h _)) eqn:Ep;
      [contradiction | exact Esync].
Qed.

(** * The claims *)

(** ** C1 *)



(** ** C2 *)




(** ** C3 *)

(** C3, the code at a failing input.  A ClusterIP service with the port
    http (port 80, no node port) and the external IP 1.2.3.4, one gateway,
    shared mode, every call succeeding: [deleteEndpoints] clears
    (1.2.3.4, 80) on the gateway load balancer, and on the worker load
    balancer it clears (1.2.3.4, 0), the node port, and never
    (1.2.3.4, 80). *)
Theorem C3_worker_clear_of_external_ip_uses_node_port :
  exists t,
    deleteEndpoints Ex.cfgShared Ex.ext (Ex.resolving Ex.externalService)
      (Ex.endpoints [Ex.podSubset]) []
    = Some (None, t)
    /\ In (EvConfigureLoadBalancer "GR_node1-TCP" "1.2.3.4" 80 [] None) t
    /\ In (EvConfigureLoadBalancer "node1-TCP" "1.2.3.4" 0 [] None) t
    /\ forall r, ~ In (EvConfigureLoadBalancer "node1-TCP" "1.2.3.4" 80 [] r) t.
Proof.
  eexists. split; [vm_compute; reflexivity |].
  split; [simpl; tauto |]. split; [simpl; tauto |].
  intros r Hin. simpl in Hin.
  repeat (destruct Hin as [Hin | Hin]; [discriminate Hin |]).
  contradiction.
Qed.

(** ** C4 *)

(** C4 as stated fails: a NodePort service with the ports http and dns, an
    external IP and an ingress address, http backed by one pod; the
    per-node creation of the node-port VIP of http fails.  [AddEndpoints]
    logs the failure and does nothing more for http: no lookup of the
    cluster load balancer, no placement of the cluster IP, no VIP for the
    external IP or the ingress address. *)
Lemma C4_counterexample :
  Ex.ext.(Externals.util_ServiceTypeHasClusterIP) Ex.nodePortService = true
  /\ AddEndpoints Ex.cfgShared Ex.ext
       (Ex.controller (inl Ex.nodePortService) None Ex.noListing
          Ex.nodePortFails)
       (Ex.endpoints [Ex.podSubset]) true []
     = Some (None,
             [EvGetService "default" "web" (inl Ex.nodePortService);
              EvDeleteServiceFromIdlingBalancer Ex.nodePortService;
              EvCreatePerNodeVIPs [] "TCP" 30080 ["10.128.2.5"] 8080
                (Ex.failure "no gateway");
              EvKlogErrorf
                "Error in creating Node Port for svc %s, node port: %d - %v\n"
                [ArgString "web"; ArgInt 30080;
                 ArgError (MkError "no gateway" [])]]).
Proof. split; vm_compute; reflexivity. Qed.

(** C4, amended.  For a service that is found, has a cluster IP and is not
    idled, [AddEndpoints] returns nil after one pass per service port, in
    order, whatever fails; and a pass in which the per-node creation of
    the node-port VIP fails consists of that failed call and its log line
    and nothing else: the cluster-IP, external-IP and ingress steps of
    that port are skipped, and the passes of the other ports are run. *)
Theorem C4_node_port_failure_ends_the_pass (cfg : config.t)
    (ext : Externals.t) (ovn : Controller.t) (ep : Endpoints.t)
    (addClusterLBs : bool) (h : History) (svc : Service.t) :
  ovn.(Controller.watchFactory_GetService) h ep.(Endpoints.Namespace)
    ep.(Endpoints.Name) = inl svc ->
  ext.(Externals.util_IsClusterIPSet) svc = true ->
  svcNeedsIdling cfg ext svc.(Service.Annotations)
  && (List.length ep.(Endpoints.Subsets) =? 0)%nat = false ->
  exists m ts,
    getLbEndpoints ep
      (h ++ [EvGetService ep.(Endpoints.Namespace) ep.(Endpoints.Name)
               (inl svc)])
    = Some (m, invalidPortLogs ep)
    /\ for_range_runs (AddEndpoints_port cfg ext ovn ep svc m addClusterLBs)
         (h ++ AddEndpoints_prelude ep svc)
         svc.(Service.Spec).(ServiceSpec.Ports) ts
    /\ AddEndpoints cfg ext ovn ep addClusterLBs h
       = Some (None, AddEndpoints_prelude ep svc ++ List.concat ts)
    /\ Forall2 (nodePortFailureEndsPass svc)
         svc.(Service.Spec).(ServiceSpec.Ports) ts.
Proof.
  intros Esvc Hip Hidle.
  destruct (AddEndpoints_loop_run cfg ext ovn ep addClusterLBs h svc
              Esvc Hip Hidle) as (m & ts & Em & _ & Hruns & Erun).
  exists m, ts. repeat split; try assumption.
  eapply for_range_runs_Forall2; [| exact Hruns].
  intros svcPort. apply AddEndpoints_port_nodePort_failure.
Qed.

(** The instance of C4 at the input of its counterexample. *)
Lemma C4_witness :
  Ex.nodePortFails [] = Ex.failure "no gateway"
  /\ exists m ts,
       getLbEndpoints (Ex.endpoints [Ex.podSubset])
         ([] ++ [EvGetService "default" "web" (inl Ex.nodePortService)])
       = Some (m, invalidPortLogs (Ex.endpoints [Ex.podSubset]))
       /\ for_range_runs
            (AddEndpoints_port Ex.cfgShared Ex.ext
               (Ex.controller (inl Ex.nodePortService) None Ex.noListing
                  Ex.nodePortFails)
               (Ex.endpoints [Ex.podSubset]) Ex.nodePortService m true)
            ([] ++ AddEndpoints_prelude (Ex.endpoints [Ex.podSubset])
                     Ex.nodePortService)
            [Ex.httpNodePort; Ex.dns] ts
       /\ AddEndpoints Ex.cfgShared Ex.ext
            (Ex.controller (inl Ex.nodePortService) None Ex.noListing
               Ex.nodePortFails)
            (Ex.endpoints [Ex.podSubset]) true []
          = Some (None,
                  AddEndpoints_prelude (Ex.endpoints [Ex.podSubset])
                    Ex.nodePortService ++ List.concat ts)
       /\ Forall2 (nodePortFailureEndsPass Ex.nodePortService)
            [Ex.httpNodePort; Ex.dns] ts.
Proof.
  split; [reflexivity |].
  apply (C4_node_port_failure_ends_the_pass Ex.cfgShared Ex.ext
           (Ex.controller (inl Ex.nodePortService) None Ex.noListing
              Ex.nodePortFails)
           (Ex.endpoints [Ex.podSubset]) true [] Ex.nodePortService);
    reflexivity.
Defined.

(** ** C5 *)

(** C5, idling exclusivity on the Add path.  For a service that is found
    and has a cluster IP: when it needs idling and the Endpoints object has
    no subset, [AddEndpoints] returns nil and, after the lookup of the
    service, does exactly two things, the registration on the idling
    balancer and the removal from the other balancers; in every other
    case its trace is the lookup, the log lines of the aggregation, the
    removal from the idling balancer, and only then the passes over the
    service ports. *)
Theorem C5_idling_exclusivity (cfg : config.t) (ext : Externals.t)
    (ovn : Controller.t) (ep : Endpoints.t) (addClusterLBs : bool)
    (h : History) (svc : Service.t) :
  ovn.(Controller.watchFactory_GetService) h ep.(Endpoints.Namespace)
    ep.(Endpoints.Name) = inl svc ->
  ext.(Externals.util_IsClusterIPSet) svc = true ->
  (svcNeedsIdling cfg ext svc.(Service.Annotations) = true ->
   ep.(Endpoints.Subsets) = [] ->
   AddEndpoints cfg ext ovn ep addClusterLBs h
   = Some (None,
           [EvGetService ep.(Endpoints.Namespace) ep.(Endpoints.Name)
              (inl svc);
            EvAddServiceToIdlingBalancer svc;
            EvDeleteServiceFromBalancers svc]))
  /\ (svcNeedsIdling cfg ext svc.(Service.Annotations)
      && (List.length ep.(Endpoints.Subsets) =? 0)%nat = false ->
      exists m ts,
        getLbEndpoints ep
          (h ++ [EvGetService ep.(Endpoints.Namespace) ep.(Endpoints.Name)
                   (inl svc)])
        = Some (m, invalidPortLogs ep)
        /\ for_range_runs
             (AddEndpoints_port cfg ext ovn ep svc m addClusterLBs)
             (h ++ AddEndpoints_prelude ep svc)
             svc.(Service.Spec).(ServiceSpec.Ports) ts
        /\ AddEndpoints cfg ext ovn ep addClusterLBs h
           = Some (None,
                   EvGetService ep.(Endpoints.Namespace) ep.(Endpoints.Name)
                     (inl svc)
                   :: invalidPortLogs ep
                   ++ EvDeleteServiceFromIdlingBalancer svc
                   :: List.concat ts)).
Proof.
  intros Esvc Hip. split.
  - intros Hidle Hsub.
    unfold AddEndpoints, call_GetService.
    change [EvGetService ep.(Endpoints.Namespace) ep.(Endpoints.Name) (inl svc);
            EvAddServiceToIdlingBalancer svc;
            EvDeleteServiceFromBalancers svc]
      with ([EvGetService ep.(Endpoints.Namespace) ep.(Endpoints.Name)
               (inl svc)]
            ++ []
            ++ [EvAddServiceToIdlingBalancer svc;
                EvDeleteServiceFromBalancers svc]).
    eapply bind_run; [unfold call; rewrite Esvc; reflexivity |].
    cbn beta iota. rewrite Hip. cbn [negb].
    eapply bind_run.
    + unfold getLbEndpoints. rewrite Hsub. reflexivity.
    + cbn beta iota. rewrite Hidle, Hsub. reflexivity.
  - intros Hidle.
    destruct (AddEndpoints_loop_run cfg ext ovn ep addClusterLBs h svc
                Esvc Hip Hidle) as (m & ts & Em & _ & Hruns & Erun).
    exists m, ts. split; [exact Em |]. split; [exact Hruns |].
    rewrite Erun. unfold AddEndpoints_prelude.
    rewrite <- app_comm_cons, <- app_assoc. reflexivity.
Qed.

(** The instance of C5 for an idled service without backends. *)
Lemma C5_witness :
  svcNeedsIdling Ex.cfgShared Ex.ext Ex.idledService.(Service.Annotations)
  = true
  /\ AddEndpoints Ex.cfgShared Ex.ext (Ex.resolving Ex.idledService)
       (Ex.endpoints []) true []
     = Some (None,
             [EvGetService "default" "web" (inl Ex.idledService);
              EvAddServiceToIdlingBalancer Ex.idledService;
              EvDeleteServiceFromBalancers Ex.idledService]).
Proof.
  split; [reflexivity |].
  apply (C5_idling_exclusivity Ex.cfgShared Ex.ext
           (Ex.resolving Ex.idledService) (Ex.endpoints []) true []
           Ex.idledService); reflexivity.
Defined.

(** ** C6 *)

Lemma backends_of_subset_once (proto : Protocol) (name : string)
    (ip : EndpointAddress.t) (ports : list EndpointPort.t) :
  (List.length (List.filter (declares proto name) ports) <= 1)%nat ->
  map fst (flat_map (backendOf proto name ip) ports)
  = if existsb (declares proto name) ports
    then [ip.(EndpointAddress.IP)]
    else [].
Proof.
  induction ports as [|port ports IH]; simpl; [reflexivity |].
  unfold backendOf at 1.
  destruct (declares proto name port) eqn:E; simpl; intros Hlen.
  - assert (List.filter (declares proto name) ports = []) as Hnone.
    { destruct (List.filter (declares proto name) ports);
        [reflexivity | simpl in Hlen; lia]. }
    f_equal. rewrite IH by (rewrite Hnone; simpl; lia).
    destruct (existsb (declares proto name) ports) eqn:Eex; [| reflexivity].
    apply existsb_exists in Eex as (p & Hin & Hp).
    assert (In p (List.filter (declares proto name) ports)) as Hf
      by (apply filter_In; auto).
    rewrite Hnone in Hf. contradiction.
  - apply IH. exact Hlen.
Qed.

Lemma backends_declared_once (ep : Endpoints.t) (proto : Protocol)
    (name : string) :
  (forall s, In s ep.(Endpoints.Subsets) -> declaresAtMostOnce proto name s) ->
  map fst (backends ep proto name) = addressesOfDeclaringSubsets ep proto name.
Proof.
  unfold backends, addressesOfDeclaringSubsets.
  induction ep.(Endpoints.Subsets) as [|s subsets IH]; intros Hs;
    [reflexivity |].
  simpl. rewrite List.map_app. f_equal.
  - specialize (Hs s (or_introl eq_refl)). unfold declaresAtMostOnce in Hs.
    induction s.(EndpointSubset.Addresses) as [|ip ips IHip];
      [destruct (existsb _ _); reflexivity |].
    simpl. rewrite List.map_app, IHip, (backends_of_subset_once _ _ _ _ Hs).
    destruct (existsb _ _); reflexivity.
  - apply IH. intros s' Hin. apply Hs. right. exact Hin.
Qed.

Lemma backends_nonempty (ep : Endpoints.t) (proto : Protocol) (name : string) :
  backends ep proto name <> []
  <-> exists s ip port,
        In s ep.(Endpoints.Subsets)
        /\ In ip s.(EndpointSubset.Addresses)
        /\ In port s.(EndpointSubset.Ports)
        /\ declares proto name port = true.
Proof.
  unfold backends. split.
  - intros Hne.
    destruct (flat_map _ _) as [|b bs] eqn:E; [contradiction |].
    assert (In b (b :: bs)) as Hin by (left; reflexivity).
    rewrite <- E in Hin.
    apply in_flat_map in Hin as (s & Hs & Hin).
    apply in_flat_map in Hin as (ip & Hip & Hin).
    apply in_flat_map in Hin as (port & Hport & Hin).
    unfold backendOf in Hin.
    destruct (declares proto name port) eqn:Ed; [| contradiction].
    exists s, ip, port. auto.
  - intros (s & ip & port & Hs & Hip & Hport & Hd) E.
    assert (In (ip.(EndpointAddress.IP), port.(EndpointPort.Port))
              (flat_map
                 (fun s =>
                    flat_map
                      (fun ip =>
                         flat_map (backendOf proto name ip)
                           s.(EndpointSubset.Ports))
                      s.(EndpointSubset.Addresses))
                 ep.(Endpoints.Subsets))) as Hin.
    { apply in_flat_map. exists s. split; [exact Hs |].
      apply in_flat_map. exists ip. split; [exact Hip |].
      apply in_flat_map. exists port. split; [exact Hport |].
      unfold backendOf. rewrite Hd. left. reflexivity. }
    rewrite E in Hin. contradiction.
Qed.

(** C6 as stated fails: the Endpoints object whose one subset declares the
    port http over TCP, with the valid port 8080, and has no address.  The
    pair (TCP, http) is declared with a valid port, and the table has no
    key for it. *)
Lemma C6_counterexample :
  existsb (declares "TCP" "http") Ex.notReadySubset.(EndpointSubset.Ports)
  = true
  /\ exists m,
       getLbEndpoints (Ex.endpoints [Ex.notReadySubset]) [] = Some (m, [])
       /\ protoPortMap_lookup m "TCP" "http" = None.
Proof.
  split; [reflexivity |].
  exists getLbEndpoints_init. split; reflexivity.
Qed.

(** C6, amended.  For every Endpoints object and history [getLbEndpoints]
    returns (it never panics), its trace being one log line per address
    and port entry that [ValidatePort] rejects, and the table it returns
    - has an entry for each of TCP, UDP and SCTP;
    - holds for every pair (protocol, port name) the entry of its
      [backends], one backend per subset, address of the subset and port
      entry of the subset that declares the pair with a valid port: no key
      when there is none, else the addresses of all of them, in order, and
      the port number of the last;
    - so has a key for a pair exactly when a subset with an address
      declares the pair with a valid port;
    - and when no subset declares the pair twice, the addresses under the
      key are those of the subsets that declare the pair. *)
Theorem C6_aggregation (ep : Endpoints.t) (h : History) :
  exists m,
    getLbEndpoints ep h = Some (m, invalidPortLogs ep)
    /\ (is_Some (m !! ProtocolTCP) /\ is_Some (m !! ProtocolUDP)
        /\ is_Some (m !! ProtocolSCTP))
    /\ (forall proto name,
          protoPortMap_lookup m proto name
          = tableEntry (backends ep proto name))
    /\ (forall proto name,
          is_Some (protoPortMap_lookup m proto name)
          <-> exists s ip port,
                In s ep.(Endpoints.Subsets)
                /\ In ip s.(EndpointSubset.Addresses)
                /\ In port s.(EndpointSubset.Ports)
                /\ declares proto name port = true)
    /\ (forall proto name,
          (forall s, In s ep.(Endpoints.Subsets) ->
                     declaresAtMostOnce proto name s) ->
          map fst (backends ep proto name)
          = addressesOfDeclaringSubsets ep proto name).
Proof.
  destruct (getLbEndpoints_run ep h) as (m & E & [Hk Hl]).
  exists m. split; [exact E |]. split; [exact Hk |]. split; [exact Hl |].
  split.
  - intros proto name. rewrite Hl, <- backends_nonempty.
    destruct (backends ep proto name) as [|b bs]; simpl.
    + split; [intros [x Hx]; discriminate Hx | intros Hne; contradiction].
    + split; [discriminate | eauto].
  - intros proto name. apply backends_declared_once.
Qed.

(** The instance of C6 for an object with two subsets, one of which holds
    two addresses, an entry with port 0 and an entry of unknown protocol. *)
Lemma C6_witness :
  (forall s, In s [Ex.mixedSubset; Ex.podSubset] ->
             declaresAtMostOnce "TCP" "http" s)
  /\ exists m,
       getLbEndpoints (Ex.endpoints [Ex.mixedSubset; Ex.podSubset]) []
       = Some (m, invalidPortLogs (Ex.endpoints [Ex.mixedSubset; Ex.podSubset]))
       /\ protoPortMap_lookup m "TCP" "http"
          = Some (lbEndpoints.mk ["10.128.2.5"; "10.128.2.6"; "10.128.2.5"] 8080)
       /\ protoPortMap_lookup m "TCP" "zero" = None
       /\ protoPortMap_lookup m "ICMP" "ping" = None
       /\ addressesOfDeclaringSubsets
            (Ex.endpoints [Ex.mixedSubset; Ex.podSubset]) "TCP" "http"
          = ["10.128.2.5"; "10.128.2.6"; "10.128.2.5"].
Proof.
  assert (forall s, In s [Ex.mixedSubset; Ex.podSubset] ->
                    declaresAtMostOnce "TCP" "http" s) as Honce.
  { intros s [<- | [<- | []]]; unfold declaresAtMostOnce; simpl; lia. }
  split; [exact Honce |].
  destruct (C6_aggregation (Ex.endpoints [Ex.mixedSubset; Ex.podSubset]) [])
    as (m & E & _ & Hl & _ & Hs).
  exists m. split; [exact E |].
  rewrite !Hl, <- (Hs "TCP" "http" Honce).
  repeat split; reflexivity.
Defined.

(** ** C7 *)

Lemma hasHostEndpoints_found_spec (ext : Externals.t)
    (clusterSubnets : list CIDRNetworkEntry.t) (endpointIP : string) :
  hasHostEndpoints_found ext clusterSubnets endpointIP = false
  <-> forall clusterNet,
        In clusterNet clusterSubnets ->
        ext.(Externals.IPNet_Contains) clusterNet.(CIDRNetworkEntry.CIDR)
          (ext.(Externals.net_ParseIP) endpointIP) = false.
Proof.
  induction clusterSubnets as [|clusterNet rest IH]; simpl.
  - split; [intros _ ? [] | reflexivity].
  - destruct (Externals.IPNet_Contains ext _ _) eqn:E.
    + split; [discriminate |].
      intros H. rewrite <- E. symmetry. rewrite H; [reflexivity | auto].
    + rewrite IH. split.
      * intros H c [<- | Hin]; [exact E | apply H, Hin].
      * intros H c Hin. apply H. right. exact Hin.
Qed.

(** C7, host classification.  [hasHostEndpoints] is true exactly when some
    address of the list is contained in none of the configured cluster
    subnets, and false on the empty list.  [net.ParseIP] returns nil on a
    string that is not an address, and no cluster subnet contains the nil
    address (the contract of [IPNet.Contains] for the well-formed subnets
    of the configuration); so an address that does not parse makes the
    result true. *)
Theorem C7_host_classification (cfg : config.t) (ext : Externals.t)
    (endpointIPs : list string) :
  (forall clusterNet,
     In clusterNet cfg.(config.Default_ClusterSubnets) ->
     ext.(Externals.IPNet_Contains) clusterNet.(CIDRNetworkEntry.CIDR) []
     = false) ->
  (hasHostEndpoints cfg ext endpointIPs = true
   <-> exists endpointIP,
         In endpointIP endpointIPs
         /\ forall clusterNet,
              In clusterNet cfg.(config.Default_ClusterSubnets) ->
              ext.(Externals.IPNet_Contains)
                clusterNet.(CIDRNetworkEntry.CIDR)
                (ext.(Externals.net_ParseIP) endpointIP) = false)
  /\ hasHostEndpoints cfg ext [] = false
  /\ (forall endpointIP,
        In endpointIP endpointIPs ->
        ext.(Externals.net_ParseIP) endpointIP = [] ->
        hasHostEndpoints cfg ext endpointIPs = true).
Proof.
  intros Hnil.
  assert (hasHostEndpoints cfg ext endpointIPs = true
          <-> exists endpointIP,
                In endpointIP endpointIPs
                /\ forall clusterNet,
                     In clusterNet cfg.(config.Default_ClusterSubnets) ->
                     ext.(Externals.IPNet_Contains)
                       clusterNet.(CIDRNetworkEntry.CIDR)
                       (ext.(Externals.net_ParseIP) endpointIP) = false)
    as Hiff.
  { induction endpointIPs as [|ip ips IH]; simpl.
    - split; [discriminate | intros (? & [] & _)].
    - destruct (hasHostEndpoints_found ext _ ip) eqn:E; simpl.
      + rewrite IH. split.
        * intros (x & Hin & Hx). exists x. auto.
        * intros (x & [<- | Hin] & Hx); [| exists x; auto].
          apply hasHostEndpoints_found_spec in Hx. congruence.
      + split; [intros _ | reflexivity].
        exists ip. split; [left; reflexivity |].
        apply hasHostEndpoints_found_spec. exact E. }
  split; [exact Hiff |]. split; [reflexivity |].
  intros ip Hin Hparse. apply Hiff. exists ip. split; [exact Hin |].
  intros clusterNet Hnet. rewrite Hparse. apply Hnil, Hnet.
Qed.

(** The instance of C7 for the pod network 10.128.0.0/14 and a list that
    holds a pod address and a string that is no address. *)
Lemma C7_witness :
  Ex.ParseIP "oops" = []
  /\ hasHostEndpoints Ex.cfgShared Ex.ext ["10.128.2.5"] = false
  /\ hasHostEndpoints Ex.cfgShared Ex.ext ["10.128.2.5"; "oops"] = true.
Proof.
  split; [reflexivity |]. split; [reflexivity |].
  refine (proj2 (proj2
            (C7_host_classification Ex.cfgShared Ex.ext
               ["10.128.2.5"; "oops"] _)) "oops" _ _).
  - intros clusterNet [<- | []]. reflexivity.
  - right. left. reflexivity.
  - reflexivity.
Defined.

(** ** C8 *)

(** C8, expected absence is not an error.  When the lookup of the service
    fails, or the service found has no cluster IP, both [AddEndpoints] and
    [deleteEndpoints] return nil and their trace is the lookup of the
    service alone: no load-balancer operation, no lookup of a load
    balancer, no log line. *)
Theorem C8_absent_service_is_not_an_error (cfg : config.t) (ext : Externals.t)
    (ovn : Controller.t) (ep : Endpoints.t) (addClusterLBs : bool)
    (h : History) :
  let r :=
    ovn.(Controller.watchFactory_GetService) h ep.(Endpoints.Namespace)
      ep.(Endpoints.Name) in
  match r with
  | inr _ => True
  | inl svc => ext.(Externals.util_IsClusterIPSet) svc = false
  end ->
  AddEndpoints cfg ext ovn ep addClusterLBs h
  = Some (None,
          [EvGetService ep.(Endpoints.Namespace) ep.(Endpoints.Name) r])
  /\ deleteEndpoints cfg ext ovn ep h
     = Some (None,
             [EvGetService ep.(Endpoints.Namespace) ep.(Endpoints.Name) r]).
Proof.
  intros r Hr.
  assert (ovn.(Controller.watchFactory_GetService) h ep.(Endpoints.Namespace)
            ep.(Endpoints.Name) = r) as Er by reflexivity.
  clearbody r.
  unfold AddEndpoints, deleteEndpoints, call_GetService.
  change [EvGetService ep.(Endpoints.Namespace) ep.(Endpoints.Name) r]
    with ([EvGetService ep.(Endpoints.Namespace) ep.(Endpoints.Name) r] ++ []).
  split.
  - eapply bind_run; [unfold call; rewrite Er; reflexivity |].
    destruct r as [svc | err]; [rewrite Hr |]; reflexivity.
  - eapply bind_run; [unfold call; rewrite Er; reflexivity |].
    destruct r as [svc | err]; [rewrite Hr |]; reflexivity.
Qed.

(** The instance of C8 for Endpoints without a service. *)
Lemma C8_witness :
  AddEndpoints Ex.cfgShared Ex.ext
    (Ex.controller (inr (MkError "not found" [])) None Ex.noListing
       Ex.allSucceed)
    (Ex.endpoints [Ex.podSubset]) true []
  = Some (None,
          [EvGetService "default" "web" (inr (MkError "not found" []))])
  /\ deleteEndpoints Ex.cfgShared Ex.ext
       (Ex.controller (inr (MkError "not found" [])) None Ex.noListing
          Ex.allSucceed)
       (Ex.endpoints [Ex.podSubset]) []
     = Some (None,
             [EvGetService "default" "web" (inr (MkError "not found" []))]).
Proof.
  apply (C8_absent_service_is_not_an_error Ex.cfgShared Ex.ext
           (Ex.controller (inr (MkError "not found" [])) None Ex.noListing
              Ex.allSucceed)
           (Ex.endpoints [Ex.podSubset]) true []).
  exact I.
Defined.

(** ** C9 *)




(** ** C10 *)

(** C10.  [AddEndpoints] and [deleteEndpoints] return nil on every input
    and from every history, and in their traces every failed
    load-balancer operation and every failed lookup of a load balancer, of
    the gateways or of the physical IPs of a gateway is directly followed
    by a log line that carries its error.  Hence the legacy replay of
    [handleNodePortLB], which calls [AddEndpoints], never takes its abort
    branch; and in legacy mode, the gateway check passed and the
    namespaces listed, [handleNodePortLB] returns nil after one pass per
    namespace, the pass of a namespace whose listing failed being the
    listing and its log line. *)
Theorem C10_add_and_delete_return_nil (cfg : config.t) (ext : Externals.t)
    (ovn : Controller.t) :
  (forall ep addClusterLBs h,
     exists t,
       AddEndpoints cfg ext ovn ep addClusterLBs h = Some (None, t)
       /\ well_logged t)
  /\ (forall ep h,
        exists t,
          deleteEndpoints cfg ext ovn ep h = Some (None, t) /\ well_logged t)
  /\ (forall node namespaces h,
        exists t,
          handleNodePortLB_replay ovn (AddEndpoints cfg ext ovn) node
            namespaces h
          = Some (None, t))
  /\ (forall node h pre namespaces,
        gatewayCheckPasses ext ovn node h pre ->
        ovn.(Controller.svcController) = None ->
        ovn.(Controller.watchFactory_GetNamespaces) (h ++ pre)
        = (namespaces, None) ->
        exists tns,
          handleNodePortLB cfg ext ovn node h
          = Some (None,
                  pre ++ EvGetNamespaces (namespaces, None) :: List.concat tns)
          /\ Forall2 failedListingIsSkipped namespaces tns
          /\ well_logged (List.concat tns)).
Proof.
  split; [| split; [| split]].
  - intros ep addClusterLBs h.
    destruct (AddEndpoints_ok cfg ext ovn ep addClusterLBs h)
      as (r & t & E & -> & HW).
    exists t. auto.
  - intros ep h.
    destruct (deleteEndpoints_ok cfg ext ovn ep h) as (r & t & E & -> & HW).
    exists t. auto.
  - intros node namespaces h.
    destruct (for_range_runs_exist (replayNamespace cfg ext ovn) namespaces
                (fun ns => ok_total _ _ (replayNamespace_ok cfg ext ovn ns)) h)
      as (tns & Hruns & _).
    exists (List.concat tns). apply handleNodePortLB_replay_real. exact Hruns.
  - intros node h pre namespaces Hcheck Hsync Hns.
    destruct (handleNodePortLB_legacy_run cfg ext ovn node h pre namespaces
                Hcheck Hsync Hns) as (tns & Hruns & Erun).
    exists tns. split; [exact Erun |].
    pose proof (for_range_runs_Forall2 _ _ _
                  (fun ns => replayNamespace_ok cfg ext ovn ns) _ _ Hruns)
      as HF.
    split.
    + eapply Forall2_impl; [exact HF |]. intros ns tn (_ & _ & Hn). exact Hn.
    + apply well_logged_concat. clear Hruns Erun Hns.
      induction HF as [|ns tn nss tns' Hn _ IH]; constructor; [| exact IH].
      apply Hn.
Qed.

(** The instance of C10 for the legacy controller of a cluster with the
    namespaces default and kube-system, the listing of which fails. *)
Lemma C10_witness :
  Ex.defaultOnly "kube-system" = ([], Ex.failure "listing failed")
  /\ exists tns,
       handleNodePortLB Ex.cfgShared Ex.ext Ex.legacy (Node.mk "node1") []
       = Some (None,
               [EvGetGatewayPhysicalIPs "GR_node1" (["172.18.0.2"], None)]
               ++ EvGetNamespaces
                    ([Namespace.mk "default"; Namespace.mk "kube-system"],
                     None)
               :: List.concat tns)
       /\ Forall2 failedListingIsSkipped
            [Namespace.mk "default"; Namespace.mk "kube-system"] tns
       /\ well_logged (List.concat tns).
Proof.
  split; [reflexivity |].
  apply (proj2 (proj2 (proj2
           (C10_add_and_delete_return_nil Ex.cfgShared Ex.ext Ex.legacy)))
           (Node.mk "node1") []
           [EvGetGatewayPhysicalIPs "GR_node1" (["172.18.0.2"], None)]
           [Namespace.mk "default"; Namespace.mk "kube-system"]).
  - unfold gatewayCheckPasses. simpl. split; [discriminate | reflexivity].
  - reflexivity.
  - reflexivity.
Defined.

(** * Further properties of the functions *)

(** ** svcNeedsIdling *)

Lemma substring_all (s : string) : substring 0 (String.length s) s = s.
Proof. induction s as [|c s IH]; simpl; [reflexivity | rewrite IH; reflexivity]. Qed.

Lemma substring_append_suffix (p s : string) :
  substring (String.length p) (String.length s) (p ++ s)%string = s.
Proof.
  induction p as [|c p IH]; simpl; [apply substring_all | exact IH].
Qed.

Lemma string_length_append (p s : string) :
  String.length (p ++ s)%string = (String.length p + String.length s)%nat.
Proof. induction p as [|c p IH]; simpl; [reflexivity | rewrite IH; reflexivity]. Qed.

Lemma substring_split (n : nat) (s : string) :
  (n <= String.length s)%nat ->
  s = (substring 0 n s ++ substring n (String.length s - n) s)%string.
Proof.
  revert s. induction n as [|n IH]; intros s Hn.
  - rewrite Nat.sub_0_r, substring_all. destruct s; reflexivity.
  - destruct s as [|c s]; simpl in *; [lia |].
    change (String c s
            = String c (substring 0 n s
                        ++ substring n (String.length s - n) s)%string).
    f_equal. apply IH. lia.
Qed.

(** [strings.HasSuffix s suffix] holds exactly when [s] ends with
    [suffix]. *)
Lemma strings_HasSuffix_spec (s suffix : string) :
  strings_HasSuffix s suffix = true
  <-> exists prefix, s = (prefix ++ suffix)%string.
Proof.
  unfold strings_HasSuffix. rewrite andb_true_iff, Nat.leb_le, String.eqb_eq.
  split.
  - intros [Hlen Hsub].
    exists (substring 0 (String.length s - String.length suffix) s).
    pose proof (substring_split (String.length s - String.length suffix) s
                  ltac:(lia)) as E.
    replace (String.length s - (String.length s - String.length suffix))%nat
      with (String.length suffix) in E by lia.
    rewrite Hsub in E. exact E.
  - intros [prefix ->]. rewrite string_length_append. split; [lia |].
    replace (String.length prefix + String.length suffix
             - String.length suffix)%nat
      with (String.length prefix) by lia.
    apply substring_append_suffix.
Qed.

(** [svcNeedsIdling] is true exactly when empty-load-balancer events are
    enabled in the configuration and some annotation of the service has a
    key that ends with the idled-service suffix; the values of the
    annotations play no part. *)
Theorem svcNeedsIdling_iff (cfg : config.t) (ext : Externals.t)
    (annotations : gmap string string) :
  svcNeedsIdling cfg ext annotations = true
  <-> cfg.(config.Kubernetes_OVNEmptyLbEvents) = true
      /\ exists prefix value,
           annotations
             !! (prefix ++ ext.(Externals.IdledServiceAnnotationSuffix))%string
           = Some value.
Proof.
  unfold svcNeedsIdling.
  destruct (config.Kubernetes_OVNEmptyLbEvents cfg); cbn [negb].
  - rewrite existsb_exists. split.
    + intros ([k v] & Hin & Hs). split; [reflexivity |].
      apply strings_HasSuffix_spec in Hs as [prefix Hk]. cbn [fst] in Hk.
      exists prefix, v. rewrite <- Hk.
      apply elem_of_map_to_list, list_elem_of_In. exact Hin.
    + intros (_ & prefix & value & Hl).
      exists ((prefix ++ ext.(Externals.IdledServiceAnnotationSuffix))%string,
              value).
      split.
      * apply list_elem_of_In, elem_of_map_to_list. exact Hl.
      * apply strings_HasSuffix_spec. exists prefix. reflexivity.
  - split; [discriminate | intros [E _]; discriminate E].
Qed.

(** ** hasHostEndpoints *)

Lemma hasHostEndpoints_existsb (cfg : config.t) (ext : Externals.t)
    (endpointIPs : list string) :
  hasHostEndpoints cfg ext endpointIPs
  = existsb
      (fun endpointIP =>
         negb (hasHostEndpoints_found ext cfg.(config.Default_ClusterSubnets)
                 endpointIP))
      endpointIPs.
Proof.
  induction endpointIPs as [|ip ips IH]; simpl; [reflexivity |].
  rewrite IH. destruct (negb _); reflexivity.
Qed.

(** [hasHostEndpoints] looks at the addresses one by one: its result on two
    lists one after the other is the disjunction of its results on each,
    and two lists with the same elements, in whatever order and with
    whatever repetitions, get the same result.  When no cluster subnet is
    configured, every non-empty list is classified as holding a host
    endpoint. *)
Theorem hasHostEndpoints_by_address (cfg : config.t) (ext : Externals.t) :
  (forall ips1 ips2,
     hasHostEndpoints cfg ext (ips1 ++ ips2)
     = hasHostEndpoints cfg ext ips1 || hasHostEndpoints cfg ext ips2)
  /\ (forall ips1 ips2,
        (forall ip, In ip ips1 <-> In ip ips2) ->
        hasHostEndpoints cfg ext ips1 = hasHostEndpoints cfg ext ips2)
  /\ (cfg.(config.Default_ClusterSubnets) = [] ->
      forall ip ips, hasHostEndpoints cfg ext (ip :: ips) = true).
Proof.
  split; [| split].
  - intros ips1 ips2. rewrite !hasHostEndpoints_existsb. apply existsb_app.
  - intros ips1 ips2 Hsame. rewrite !hasHostEndpoints_existsb.
    apply eq_true_iff_eq. rewrite !existsb_exists.
    split; intros (ip & Hin & Hip); exists ip; split;
      solve [apply Hsame; exact Hin | exact Hip].
  - intros Hnone ip ips. simpl. rewrite Hnone. reflexivity.
Qed.

(** ** getLbEndpoints: the entries of the table *)

Lemma declares_true (proto : Protocol) (name : string)
    (port : EndpointPort.t) :
  declares proto name port = true
  <-> port.(EndpointPort.Protocol) = proto
      /\ port.(EndpointPort.Name) = name
      /\ ValidatePort port.(EndpointPort.Protocol) port.(EndpointPort.Port)
         = None.
Proof.
  unfold declares. rewrite !andb_true_iff, !String.eqb_eq.
  destruct (ValidatePort _ _); intuition congruence.
Qed.

Lemma In_backends (ep : Endpoints.t) (proto : Protocol) (name : string)
    (ip : string) (p : Z) :
  In (ip, p) (backends ep proto name)
  <-> exists s a port,
        In s ep.(Endpoints.Subsets)
        /\ In a s.(EndpointSubset.Addresses)
        /\ In port s.(EndpointSubset.Ports)
        /\ declares proto name port = true
        /\ a.(EndpointAddress.IP) = ip
        /\ port.(EndpointPort.Port) = p.
Proof.
  unfold backends. rewrite in_flat_map. split.
  - intros (s & Hs & Hin).
    apply in_flat_map in Hin as (a & Ha & Hin).
    apply in_flat_map in Hin as (port & Hport & Hin).
    unfold backendOf in Hin.
    destruct (declares proto name port) eqn:Hd; [| contradiction].
    destruct Hin as [E | []]. injection E as <- <-.
    exists s, a, port. repeat split; assumption.
  - intros (s & a & port & Hs & Ha & Hport & Hd & <- & <-).
    exists s. split; [exact Hs |].
    apply in_flat_map. exists a. split; [exact Ha |].
    apply in_flat_map. exists port. split; [exact Hport |].
    unfold backendOf. rewrite Hd. left. reflexivity.
Qed.

Lemma tableEntry_Some (bs : list (string * Z)) (lbEps : lbEndpoints.t) :
  tableEntry bs = Some lbEps ->
  bs <> []
  /\ lbEps.(lbEndpoints.IPs) = map fst bs
  /\ exists b, In b bs /\ lbEps.(lbEndpoints.Port) = snd b.
Proof.
  destruct bs as [|b bs]; unfold tableEntry; [discriminate |].
  intros E. injection E as <-. split; [discriminate |].
  split; [reflexivity |].
  exists (List.last (b :: bs) b). split; [| reflexivity].
  destruct (List.exists_last (l := b :: bs)) as (l' & x & E);
    [discriminate |].
  rewrite E, List.last_last. apply in_or_app. right. left. reflexivity.
Qed.

(** What the entry of a pair holds, for an object [ep]. *)
Lemma backends_entry (ep : Endpoints.t) (proto : Protocol) (name : string)
    (lbEps : lbEndpoints.t) :
  tableEntry (backends ep proto name) = Some lbEps ->
  In proto [ProtocolTCP; ProtocolUDP; ProtocolSCTP]
  /\ lbEps.(lbEndpoints.IPs) <> []
  /\ (forall ip,
        In ip lbEps.(lbEndpoints.IPs)
        <-> exists s a port,
              In s ep.(Endpoints.Subsets)
              /\ In a s.(EndpointSubset.Addresses)
              /\ In port s.(EndpointSubset.Ports)
              /\ declares proto name port = true
              /\ a.(EndpointAddress.IP) = ip)
  /\ exists s port,
       In s ep.(Endpoints.Subsets)
       /\ s.(EndpointSubset.Addresses) <> []
       /\ In port s.(EndpointSubset.Ports)
       /\ declares proto name port = true
       /\ lbEps.(lbEndpoints.Port) = port.(EndpointPort.Port).
Proof.
  intros E.
  apply tableEntry_Some in E as (Hne & Hips & (b & Hb & Hport)).
  destruct b as [bip bport].
  pose proof (proj1 (In_backends ep proto name bip bport) Hb)
    as (s & a & port & Hs & Ha & Hp & Hd & _ & Eport).
  split; [| split; [| split]].
  - apply declares_true in Hd as (<- & _ & Hv).
    apply ValidatePort_known in Hv.
    destruct Hv as [E | [E | E]]; rewrite E; simpl; auto.
  - rewrite Hips. destruct (backends ep proto name); [contradiction |].
    discriminate.
  - intros ip. rewrite Hips, in_map_iff. split.
    + intros ([ip' p] & <- & Hin).
      apply In_backends in Hin
        as (s' & a' & port' & Hs' & Ha' & Hp' & Hd' & E' & _).
      exists s', a', port'. repeat split; assumption.
    + intros (s' & a' & port' & Hs' & Ha' & Hp' & Hd' & <-).
      exists (a'.(EndpointAddress.IP), port'.(EndpointPort.Port)).
      split; [reflexivity |].
      apply In_backends. exists s', a', port'. repeat split; assumption.
  - exists s, port. repeat split; try assumption.
    + intros Hnil. rewrite Hnil in Ha. contradiction.
    + simpl in Hport. congruence.
Qed.

(** Every entry of the table that [getLbEndpoints] returns is under one of
    the three protocols and holds at least one address; its addresses are
    exactly the addresses of the subsets one port entry of which declares
    the pair with a valid port, and its port number is that of such an
    entry of a subset that has an address.  So the table holds no address
    and no port that the object does not hold, and no pair without a
    backend. *)
Theorem getLbEndpoints_entries (ep : Endpoints.t) (h : History) :
  exists m,
    getLbEndpoints ep h = Some (m, invalidPortLogs ep)
    /\ forall proto name lbEps,
         protoPortMap_lookup m proto name = Some lbEps ->
         In proto [ProtocolTCP; ProtocolUDP; ProtocolSCTP]
         /\ lbEps.(lbEndpoints.IPs) <> []
         /\ (forall ip,
               In ip lbEps.(lbEndpoints.IPs)
               <-> exists s a port,
                     In s ep.(Endpoints.Subsets)
                     /\ In a s.(EndpointSubset.Addresses)
                     /\ In port s.(EndpointSubset.Ports)
                     /\ declares proto name port = true
                     /\ a.(EndpointAddress.IP) = ip)
         /\ exists s port,
              In s ep.(Endpoints.Subsets)
              /\ s.(EndpointSubset.Addresses) <> []
              /\ In port s.(EndpointSubset.Ports)
              /\ declares proto name port = true
              /\ lbEps.(lbEndpoints.Port) = port.(EndpointPort.Port).
Proof.
  destruct (getLbEndpoints_run ep h) as (m & E & Hm).
  exists m. split; [exact E |].
  intros proto name lbEps Hl. apply backends_entry.
  rewrite <- Hl. symmetry. apply Hm.
Qed.

(** ** getLbEndpoints: subsets one after the other *)

Lemma tableEntry_app (bs1 bs2 : list (string * Z)) :
  tableEntry (bs1 ++ bs2) = lbEndpoints_merge (tableEntry bs1) (tableEntry bs2).
Proof.
  destruct bs1 as [|b1 bs1]; [reflexivity |].
  destruct bs2 as [|b2 bs2].
  - rewrite app_nil_r. reflexivity.
  - unfold lbEndpoints_merge, tableEntry. cbn [app lbEndpoints.IPs lbEndpoints.Port].
    f_equal. f_equal.
    + change (b1 :: bs1 ++ b2 :: bs2) with ((b1 :: bs1) ++ (b2 :: bs2)).
      apply List.map_app.
    + f_equal.
      destruct (List.exists_last (l := b2 :: bs2)) as (l' & x & E);
        [discriminate |].
      rewrite E.
      change (b1 :: bs1 ++ l' ++ [x]) with ((b1 :: bs1) ++ l' ++ [x]).
      rewrite app_assoc, !List.last_last. reflexivity.
Qed.

(** The table of an object whose subsets are [subsets1] followed by
    [subsets2] is the merge of the tables of the two lists of subsets:
    under every pair, the addresses found in [subsets1] followed by those
    found in [subsets2], with the port number of the later declaration;
    and its log lines are those of the first followed by those of the
    second. *)
Theorem getLbEndpoints_app (name namespace : string)
    (subsets1 subsets2 : list EndpointSubset.t) (h1 h2 h : History) :
  let ep1 := Endpoints.mk name namespace subsets1 in
  let ep2 := Endpoints.mk name namespace subsets2 in
  let ep := Endpoints.mk name namespace (subsets1 ++ subsets2) in
  exists m1 m2 m,
    getLbEndpoints ep1 h1 = Some (m1, invalidPortLogs ep1)
    /\ getLbEndpoints ep2 h2 = Some (m2, invalidPortLogs ep2)
    /\ getLbEndpoints ep h
       = Some (m, invalidPortLogs ep1 ++ invalidPortLogs ep2)
    /\ forall proto portName,
         protoPortMap_lookup m proto portName
         = lbEndpoints_merge (protoPortMap_lookup m1 proto portName)
             (protoPortMap_lookup m2 proto portName).
Proof.
  intros ep1 ep2 ep.
  destruct (getLbEndpoints_run ep1 h1) as (m1 & E1 & [_ H1]).
  destruct (getLbEndpoints_run ep2 h2) as (m2 & E2 & [_ H2]).
  destruct (getLbEndpoints_run ep h) as (m & E & [_ H]).
  exists m1, m2, m. split; [exact E1 |]. split; [exact E2 |]. split.
  - rewrite E. unfold invalidPortLogs, ep, ep1, ep2.
    cbn [Endpoints.Subsets]. rewrite List.flat_map_app. reflexivity.
  - intros proto portName. rewrite H, H1, H2, <- tableEntry_app.
    unfold backends, ep, ep1, ep2. cbn [Endpoints.Subsets].
    rewrite List.flat_map_app. reflexivity.
Qed.

(** ** getLbEndpoints: port entries that are not valid *)

Lemma flat_map_filter {A B : Type} (f : A -> list B) (p : A -> bool)
    (l : list A) :
  (forall x, p x = false -> f x = []) ->
  flat_map f (List.filter p l) = flat_map f l.
Proof.
  intros Hf. induction l as [|x l IH]; [reflexivity |].
  cbn [List.filter flat_map]. destruct (p x) eqn:E.
  - cbn [flat_map]. rewrite IH. reflexivity.
  - rewrite IH, (Hf x E). reflexivity.
Qed.

Lemma flat_map_map_ext {A B C : Type} (f : B -> list C) (g : A -> list C)
    (k : A -> B) (l : list A) :
  (forall x, f (k x) = g x) -> flat_map f (map k l) = flat_map g l.
Proof.
  intros H. induction l as [|x l IH]; [reflexivity |].
  cbn [map flat_map]. rewrite H, IH. reflexivity.
Qed.

Lemma invalidPortLogs_validPorts (name namespace : string)
    (subsets : list EndpointSubset.t) :
  invalidPortLogs (Endpoints.mk name namespace (map validPorts subsets)) = [].
Proof.
  unfold invalidPortLogs. cbn [Endpoints.Subsets].
  induction subsets as [|s subsets IH]; [reflexivity |].
  cbn [map flat_map]. rewrite IH, app_nil_r.
  unfold validPorts. cbn [EndpointSubset.Addresses EndpointSubset.Ports].
  assert (flat_map invalidPortLog
            (List.filter
               (fun port =>
                  match ValidatePort port.(EndpointPort.Protocol)
                          port.(EndpointPort.Port) with
                  | None => true
                  | Some _ => false
                  end)
               s.(EndpointSubset.Ports)) = []) as ->.
  { induction (EndpointSubset.Ports s) as [|port ports IHp]; [reflexivity |].
    cbn [List.filter].
    destruct (ValidatePort _ _) eqn:Ev; [exact IHp |].
    cbn [flat_map]. unfold invalidPortLog at 1. rewrite Ev. exact IHp. }
  induction (EndpointSubset.Addresses s) as [|a addresses IHa];
    [reflexivity | exact IHa].
Qed.

(** A port entry that [ValidatePort] rejects leaves no mark on the table:
    the table of an object is the table of the object without such
    entries, under every pair; the entries only add log lines, of which
    the object without them has none. *)
Theorem getLbEndpoints_ignores_invalid_ports (name namespace : string)
    (subsets : list EndpointSubset.t) (h h' : History) :
  let ep := Endpoints.mk name namespace subsets in
  let ep' := Endpoints.mk name namespace (map validPorts subsets) in
  exists m m',
    getLbEndpoints ep h = Some (m, invalidPortLogs ep)
    /\ getLbEndpoints ep' h' = Some (m', [])
    /\ forall proto portName,
         protoPortMap_lookup m proto portName
         = protoPortMap_lookup m' proto portName.
Proof.
  intros ep ep'.
  destruct (getLbEndpoints_run ep h) as (m & E & [_ Hl]).
  destruct (getLbEndpoints_run ep' h') as (m' & E' & [_ Hl']).
  exists m, m'. split; [exact E |]. split.
  - rewrite E'. unfold ep'. rewrite invalidPortLogs_validPorts. reflexivity.
  - intros proto portName. rewrite Hl, Hl'. f_equal.
    unfold backends, ep, ep'. cbn [Endpoints.Subsets]. symmetry.
    apply flat_map_map_ext. intros s.
    unfold validPorts. cbn [EndpointSubset.Addresses EndpointSubset.Ports].
    apply flat_map_ext. intros a.
    apply flat_map_filter. intros port Hp.
    unfold backendOf, declares.
    destruct (ValidatePort _ _); [| discriminate Hp].
    rewrite andb_false_r. reflexivity.
Qed.

(** ** AddEndpoints: the calls it makes *)

Lemma AddEndpoints_ingress_pass_events ovn (svc : Service.t)
    (svcPort : ServicePort.t) (lbEps : lbEndpoints.t)
    (ings : list LoadBalancerIngress.t) :
  ok (for_range ings
        (fun ing =>
           if String.eqb ing.(LoadBalancerIngress.IP) "" then ret tt
           else
             err <- call_createPerNodeVIPs ovn [ing.(LoadBalancerIngress.IP)]
                      svcPort.(ServicePort.Protocol) svcPort.(ServicePort.Port)
                      lbEps.(lbEndpoints.IPs) lbEps.(lbEndpoints.Port) ;;
             match err with
             | Some e =>
                 klog_Errorf
                   "Error in creating Ingress LB IP for svc %s, target port: %d - %v\n"
                   [ArgString svc.(Service.Name); ArgInt lbEps.(lbEndpoints.Port);
                    ArgError e]
             | None => ret tt
             end))
    (fun _ t => Forall (isPassEvent svcPort lbEps) t).
Proof.
  apply ok_for_range_Forall. intros ing.
  ok_exec fail; simpl; Forall_explicit; auto.
Qed.

Lemma AddEndpoints_externalAndIngress_pass_events ovn (svc : Service.t)
    (svcPort : ServicePort.t) (lbEps : lbEndpoints.t) :
  ok (AddEndpoints_externalAndIngress ovn svc svcPort lbEps)
    (fun _ t => Forall (isPassEvent svcPort lbEps) t).
Proof.
  unfold AddEndpoints_externalAndIngress.
  eapply ok_bind with (Q1 := fun _ t => Forall (isPassEvent svcPort lbEps) t).
  - ok_exec fail; simpl; Forall_explicit; auto.
  - intros [] t1 HF1. eapply ok_weaken.
    + apply AddEndpoints_ingress_pass_events.
    + intros [] t2 HF2. apply Forall_app; split; assumption.
Qed.

Lemma AddEndpoints_clusterIP_pass_events cfg ext ovn (svc : Service.t)
    (addClusterLBs : bool) (svcPort : ServicePort.t) (lbEps : lbEndpoints.t) :
  ok (AddEndpoints_clusterIP cfg ext ovn svc addClusterLBs svcPort lbEps)
    (fun _ t => Forall (isPassEvent svcPort lbEps) t).
Proof.
  unfold AddEndpoints_clusterIP.
  ok_exec ltac:(apply AddEndpoints_externalAndIngress_pass_events).
  all: simpl; Forall_explicit; auto.
Qed.

(** One pass of the loop: nothing but log lines when the port is not in
    the table or is an SCTP port that the controller does not support. *)
Lemma AddEndpoints_port_pass_events cfg ext ovn ep (svc : Service.t)
    (m : protoPortMapT) (addClusterLBs : bool) (svcPort : ServicePort.t) :
  ok (AddEndpoints_port cfg ext ovn ep svc m addClusterLBs svcPort)
    (fun _ t =>
       Forall isKlog t
       \/ exists lbEps,
            protoPortMap_lookup m svcPort.(ServicePort.Protocol)
              svcPort.(ServicePort.Name) = Some lbEps
            /\ (ovn.(Controller.SCTPSupport) = true
                \/ svcPort.(ServicePort.Protocol) <> ProtocolSCTP)
            /\ Forall (isPassEvent svcPort lbEps) t).
Proof.
  unfold AddEndpoints_port.
  destruct (protoPortMap_lookup m _ _) as [lbEps|] eqn:El;
    [| apply ok_ret; left; constructor].
  destruct (negb (Controller.SCTPSupport ovn)
            && String.eqb (ServicePort.Protocol svcPort) ProtocolSCTP)
    eqn:Esctp.
  - apply ok_emit. left. Forall_explicit; exact I.
  - assert (ovn.(Controller.SCTPSupport) = true
            \/ svcPort.(ServicePort.Protocol) <> ProtocolSCTP) as Hsctp.
    { apply andb_false_iff in Esctp as [E | E].
      - left. destruct (Controller.SCTPSupport ovn); [reflexivity | discriminate].
      - right. apply String.eqb_neq. exact E. }
    ok_exec ltac:(apply AddEndpoints_clusterIP_pass_events).
    all: right; exists lbEps; split; [reflexivity |];
      split; [exact Hsctp |].
    all: simpl; Forall_explicit; auto.
Qed.

Lemma AddEndpoints_events cfg ext ovn (ep : Endpoints.t)
    (addClusterLBs : bool) :
  ok (AddEndpoints cfg ext ovn ep addClusterLBs)
    (fun _ t => Forall (isAddEndpointsEvent ovn ep) t).
Proof.
  assert (forall t, Forall isKlog t -> Forall (isAddEndpointsEvent ovn ep) t)
    as Hklog.
  { intros t. apply List.Forall_impl. intros []; simpl; tauto. }
  unfold AddEndpoints.
  ok_exec ltac:(apply getLbEndpoints_ok).
  all: simpl; Forall_explicit; try exact I.
  - destruct H as [-> _]. apply Forall_app. split;
      [apply Hklog, invalidPortLogs_klogs | Forall_explicit; exact I].
  - destruct H as [-> [_ Hl]].
    eapply ok_bind
      with (Q1 := fun _ t => Forall (isAddEndpointsEvent ovn ep) t).
    + apply ok_for_range_Forall. intros svcPort. eapply ok_weaken;
        [apply AddEndpoints_port_pass_events |].
      intros [] tp [Hk | (lbEps & El & Hsctp & HF)];
        [apply Hklog; exact Hk |].
      rewrite Hl in El. eapply List.Forall_impl; [| exact HF].
      intros e He. destruct e; simpl in *; try exact I; try contradiction.
      all: exists svcPort, lbEps; auto.
    + intros [] tp HF. apply ok_ret. rewrite app_nil_r.
      apply List.Forall_cons; [exact I |].
      apply Forall_app. split; [apply Hklog, invalidPortLogs_klogs |].
      apply List.Forall_cons; [exact I | exact HF].
Qed.

Lemma AddEndpoints_ok_events cfg ext ovn (ep : Endpoints.t)
    (addClusterLBs : bool) (h : History) :
  exists t,
    AddEndpoints cfg ext ovn ep addClusterLBs h = Some (None, t)
    /\ Forall (isAddEndpointsEvent ovn ep) t.
Proof.
  destruct (ok_and _ _ _ (AddEndpoints_ok cfg ext ovn ep addClusterLBs)
              (AddEndpoints_events cfg ext ovn ep addClusterLBs) h)
    as (r & t & E & [-> _] & HF).
  exists t. split; assumption.
Qed.

(** Whatever [AddEndpoints] writes, it writes with backends of the object:
    every call of [createPerNodeVIPs] and of [createLoadBalancerVIPs] has
    at least one target address, every target address is an address of a
    subset of the object, and the target port is the port of a port entry
    of the object that [ValidatePort] accepts.  No VIP is ever written with
    an empty backend list. *)
Theorem AddEndpoints_targets_are_backends (cfg : config.t)
    (ext : Externals.t) (ovn : Controller.t) (ep : Endpoints.t)
    (addClusterLBs : bool) (h : History) :
  exists t,
    AddEndpoints cfg ext ovn ep addClusterLBs h = Some (None, t)
    /\ Forall
         (fun e =>
            forall targetIPs targetPort,
              createTargets e = Some (targetIPs, targetPort) ->
              targetIPs <> []
              /\ (forall ip,
                    In ip targetIPs ->
                    exists s a,
                      In s ep.(Endpoints.Subsets)
                      /\ In a s.(EndpointSubset.Addresses)
                      /\ a.(EndpointAddress.IP) = ip)
              /\ exists s port,
                   In s ep.(Endpoints.Subsets)
                   /\ In port s.(EndpointSubset.Ports)
                   /\ port.(EndpointPort.Port) = targetPort
                   /\ ValidatePort port.(EndpointPort.Protocol)
                        port.(EndpointPort.Port) = None)
         t.
Proof.
  destruct (AddEndpoints_ok_events cfg ext ovn ep addClusterLBs h)
    as (t & E & HF).
  exists t. split; [exact E |].
  eapply List.Forall_impl; [| exact HF].
  intros e He targetIPs targetPort Ht.
  assert (exists svcPort lbEps,
            tableEntry
              (backends ep svcPort.(ServicePort.Protocol)
                 svcPort.(ServicePort.Name)) = Some lbEps
            /\ targetIPs = lbEps.(lbEndpoints.IPs)
            /\ targetPort = lbEps.(lbEndpoints.Port))
    as (svcPort & lbEps & Hentry & -> & ->).
  { destruct e; simpl in Ht; try discriminate Ht;
      injection Ht as <- <-;
      destruct He as (svcPort & lbEps & Hentry & _ & Hp);
      exists svcPort, lbEps; simpl in Hp; tauto. }
  apply backends_entry in Hentry
    as (_ & Hne & Hips & (s & port & Hs & _ & Hport & Hd & Eport)).
  split; [exact Hne |]. split.
  - intros ip Hin. apply Hips in Hin as (s' & a & _ & Hs' & Ha & _ & _ & Eip).
    exists s', a. auto.
  - exists s, port. apply declares_true in Hd as (_ & _ & Hv). auto.
Qed.

(** A controller without support of SCTP makes no call for SCTP on the Add
    path: no per-node VIP is written for the protocol, and the cluster load
    balancer of the protocol is not even looked up, so that nothing is
    written to it. *)
Theorem AddEndpoints_no_SCTP_without_support (cfg : config.t)
    (ext : Externals.t) (ovn : Controller.t) (ep : Endpoints.t)
    (addClusterLBs : bool) (h : History) :
  ovn.(Controller.SCTPSupport) = false ->
  exists t,
    AddEndpoints cfg ext ovn ep addClusterLBs h = Some (None, t)
    /\ Forall notForSCTP t.
Proof.
  intros Hsctp.
  destruct (AddEndpoints_ok_events cfg ext ovn ep addClusterLBs h)
    as (t & E & HF).
  exists t. split; [exact E |].
  eapply List.Forall_impl; [| exact HF].
  intros e He.
  destruct e; simpl; try exact I;
    destruct He as (svcPort & lbEps & _ & [Hs | Hs] & Hp);
    try congruence; simpl in Hp.
  destruct Hp as (-> & _). exact Hs.
Qed.

(** The instance for an SCTP service backed by one pod: the pass of its
    port is the log line of the rejection. *)
Lemma AddEndpoints_no_SCTP_without_support_witness :
  AddEndpoints Ex.cfgShared Ex.ext ExSCTP.controller
    (Ex.endpoints [ExSCTP.subset]) true []
  = Some (None,
          [EvGetService "default" "web" (inl ExSCTP.service);
           EvDeleteServiceFromIdlingBalancer ExSCTP.service;
           EvKlogErrorf
             "Rejecting endpoint creation for unsupported SCTP protocol: %s, %s"
             [ArgString "default"; ArgString "web"]])
  /\ exists t,
       AddEndpoints Ex.cfgShared Ex.ext ExSCTP.controller
         (Ex.endpoints [ExSCTP.subset]) true []
       = Some (None, t)
       /\ Forall notForSCTP t.
Proof.
  split; [vm_compute; reflexivity |].
  apply (AddEndpoints_no_SCTP_without_support Ex.cfgShared Ex.ext
           ExSCTP.controller (Ex.endpoints [ExSCTP.subset]) true []).
  reflexivity.
Defined.

(** ** AddEndpoints: service ports without a backend *)

Lemma for_range_runs_silent {A : Type} (body : A -> M unit) (xs : list A) :
  (forall x h, In x xs -> body x h = Some (tt, [])) ->
  forall h ts, for_range_runs body h xs ts -> List.concat ts = [].
Proof.
  induction xs as [|x xs IH]; intros Hsilent h ts Hruns;
    destruct ts as [|t ts]; simpl in Hruns; try contradiction;
    [reflexivity |].
  destruct Hruns as [E Hruns].
  rewrite (Hsilent x h (or_introl eq_refl)) in E. injection E as <-.
  simpl. eapply IH; [| exact Hruns].
  intros x' h' Hin. apply Hsilent. right. exact Hin.
Qed.

(** For a service that is found, has a cluster IP and is not idled: when no
    service port is declared, with a valid port, by a subset of the object
    that has an address (so, when the object has no subset at all),
    [AddEndpoints] looks the service up, removes it from the idling
    balancer and does nothing else.  It writes no VIP, and it clears none:
    the VIPs of an earlier pass stay as they are. *)
Theorem AddEndpoints_without_backends (cfg : config.t) (ext : Externals.t)
    (ovn : Controller.t) (ep : Endpoints.t) (addClusterLBs : bool)
    (h : History) (svc : Service.t) :
  ovn.(Controller.watchFactory_GetService) h ep.(Endpoints.Namespace)
    ep.(Endpoints.Name) = inl svc ->
  ext.(Externals.util_IsClusterIPSet) svc = true ->
  svcNeedsIdling cfg ext svc.(Service.Annotations)
  && (List.length ep.(Endpoints.Subsets) =? 0)%nat = false ->
  (forall svcPort s a port,
     In svcPort svc.(Service.Spec).(ServiceSpec.Ports) ->
     In s ep.(Endpoints.Subsets) ->
     In a s.(EndpointSubset.Addresses) ->
     In port s.(EndpointSubset.Ports) ->
     declares svcPort.(ServicePort.Protocol) svcPort.(ServicePort.Name) port
     = false) ->
  AddEndpoints cfg ext ovn ep addClusterLBs h
  = Some (None,
          EvGetService ep.(Endpoints.Namespace) ep.(Endpoints.Name) (inl svc)
          :: invalidPortLogs ep ++ [EvDeleteServiceFromIdlingBalancer svc]).
Proof.
  intros Esvc Hip Hidle Hnone.
  destruct (AddEndpoints_loop_run cfg ext ovn ep addClusterLBs h svc
              Esvc Hip Hidle) as (m & ts & _ & [_ Hl] & Hruns & Erun).
  rewrite Erun.
  assert (List.concat ts = []) as ->;
    [| unfold AddEndpoints_prelude; rewrite app_nil_r; reflexivity].
  eapply for_range_runs_silent; [| exact Hruns].
  intros svcPort h' Hin. unfold AddEndpoints_port. rewrite Hl.
  destruct (backends ep _ _) as [|b bs] eqn:Eb; [reflexivity |].
  assert (backends ep svcPort.(ServicePort.Protocol)
            svcPort.(ServicePort.Name) <> []) as Hne
    by (rewrite Eb; discriminate).
  apply backends_nonempty in Hne as (s & a & port & Hs & Ha & Hp & Hd).
  rewrite (Hnone svcPort s a port Hin Hs Ha Hp) in Hd. discriminate Hd.
Qed.

(** The instance for an object without subsets: the trace is the lookup of
    the service and the removal from the idling balancer. *)
Lemma AddEndpoints_without_backends_witness :
  AddEndpoints Ex.cfgShared Ex.ext (Ex.resolving Ex.nodePortService)
    (Ex.endpoints []) true []
  = Some (None,
          [EvGetService "default" "web" (inl Ex.nodePortService);
           EvDeleteServiceFromIdlingBalancer Ex.nodePortService]).
Proof.
  apply (AddEndpoints_without_backends Ex.cfgShared Ex.ext
           (Ex.resolving Ex.nodePortService) (Ex.endpoints []) true []
           Ex.nodePortService); try reflexivity.
  intros svcPort s a port _ [].
Defined.

(** ** AddEndpoints: a pass in which nothing fails *)

(** A loop runs its body on every element: the events of the loop hold the
    events of each run. *)
Lemma ok_for_range_each {A : Type} (body : A -> M unit)
    (P : A -> list Event -> Prop) (xs : list A) :
  (forall x, ok (body x) (fun _ t => P x t)) ->
  ok (for_range xs body)
    (fun _ t =>
       forall x, In x xs -> exists t1 tx t2, t = t1 ++ tx ++ t2 /\ P x tx).
Proof.
  intros Hbody. eapply ok_weaken; [apply ok_for_range, Hbody |].
  intros [] t (ts & HF & ->). clear Hbody.
  induction HF as [|x tx xs ts Hx _ IH]; intros y Hin; [contradiction |].
  destruct Hin as [<- | Hin].
  - exists [], tx, (List.concat ts). split; [reflexivity | exact Hx].
  - destruct (IH y Hin) as (t1 & ty & t2 & E & Hy).
    exists (tx ++ t1), ty, t2. split; [| exact Hy].
    simpl. rewrite E, app_assoc. reflexivity.
Qed.

Lemma succeeds_In (t : list Event) (e : Event) :
  Forall succeeds t -> In e t -> errorOf e = None.
Proof. intros HF Hin. rewrite List.Forall_forall in HF. exact (HF e Hin). Qed.

Lemma AddEndpoints_ingress_attempts ovn (svc : Service.t)
    (svcPort : ServicePort.t) (lbEps : lbEndpoints.t) :
  ok (for_range svc.(Service.Ingress)
        (fun ing =>
           if String.eqb ing.(LoadBalancerIngress.IP) "" then ret tt
           else
             err <- call_createPerNodeVIPs ovn [ing.(LoadBalancerIngress.IP)]
                      svcPort.(ServicePort.Protocol) svcPort.(ServicePort.Port)
                      lbEps.(lbEndpoints.IPs) lbEps.(lbEndpoints.Port) ;;
             match err with
             | Some e =>
                 klog_Errorf
                   "Error in creating Ingress LB IP for svc %s, target port: %d - %v\n"
                   [ArgString svc.(Service.Name); ArgInt lbEps.(lbEndpoints.Port);
                    ArgError e]
             | None => ret tt
             end))
    (fun _ t =>
       forall ing,
         In ing svc.(Service.Ingress) ->
         ing.(LoadBalancerIngress.IP) <> "" ->
         exists r,
           In (EvCreatePerNodeVIPs [ing.(LoadBalancerIngress.IP)]
                 svcPort.(ServicePort.Protocol) svcPort.(ServicePort.Port)
                 lbEps.(lbEndpoints.IPs) lbEps.(lbEndpoints.Port) r) t).
Proof.
  eapply ok_weaken.
  - apply (ok_for_range_each _
             (fun ing tx =>
                ing.(LoadBalancerIngress.IP) <> "" ->
                exists r,
                  In (EvCreatePerNodeVIPs [ing.(LoadBalancerIngress.IP)]
                        svcPort.(ServicePort.Protocol)
                        svcPort.(ServicePort.Port)
                        lbEps.(lbEndpoints.IPs) lbEps.(lbEndpoints.Port) r)
                     tx)).
    intros ing. ok_exec fail.
    + intros Hne. apply String.eqb_eq in Heqb. contradiction.
    + intros _. eexists. left. reflexivity.
    + intros _. eexists. left. reflexivity.
  - intros [] t Hall ing Hin Hne.
    destruct (Hall ing Hin) as (t1 & tx & t2 & -> & Hx).
    destruct (Hx Hne) as (r & Hr). exists r.
    apply in_or_app. right. apply in_or_app. left. exact Hr.
Qed.

Lemma AddEndpoints_externalAndIngress_attempts ovn (svc : Service.t)
    (svcPort : ServicePort.t) (lbEps : lbEndpoints.t) :
  ok (AddEndpoints_externalAndIngress ovn svc svcPort lbEps)
    (fun _ t =>
       (svc.(Service.Spec).(ServiceSpec.ExternalIPs) <> [] ->
        exists r,
          In (EvCreatePerNodeVIPs
                svc.(Service.Spec).(ServiceSpec.ExternalIPs)
                svcPort.(ServicePort.Protocol) svcPort.(ServicePort.Port)
                lbEps.(lbEndpoints.IPs) lbEps.(lbEndpoints.Port) r) t)
       /\ forall ing,
            In ing svc.(Service.Ingress) ->
            ing.(LoadBalancerIngress.IP) <> "" ->
            exists r,
              In (EvCreatePerNodeVIPs [ing.(LoadBalancerIngress.IP)]
                    svcPort.(ServicePort.Protocol) svcPort.(ServicePort.Port)
                    lbEps.(lbEndpoints.IPs) lbEps.(lbEndpoints.Port) r) t).
Proof.
  unfold AddEndpoints_externalAndIngress.
  eapply ok_bind
    with (Q1 := fun _ t =>
                  svc.(Service.Spec).(ServiceSpec.ExternalIPs) <> [] ->
                  exists r,
                    In (EvCreatePerNodeVIPs
                          svc.(Service.Spec).(ServiceSpec.ExternalIPs)
                          svcPort.(ServicePort.Protocol)
                          svcPort.(ServicePort.Port)
                          lbEps.(lbEndpoints.IPs) lbEps.(lbEndpoints.Port) r)
                       t).
  - ok_exec fail.
    + intros _. eexists. left. reflexivity.
    + intros _. eexists. left. reflexivity.
    + intros Hne.
      destruct (ServiceSpec.ExternalIPs (Service.Spec svc));
        [contradiction | discriminate].
  - intros [] t1 Hext. eapply ok_weaken;
      [apply AddEndpoints_ingress_attempts |].
    intros [] t2 Hing. split.
    + intros Hne. destruct (Hext Hne) as (r & Hr). exists r.
      apply in_or_app. left. exact Hr.
    + intros ing Hin Hne. destruct (Hing ing Hin Hne) as (r & Hr). exists r.
      apply in_or_app. right. exact Hr.
Qed.

Lemma AddEndpoints_clusterIP_places cfg ext ovn (svc : Service.t)
    (addClusterLBs : bool) (svcPort : ServicePort.t) (lbEps : lbEndpoints.t) :
  ok (AddEndpoints_clusterIP cfg ext ovn svc addClusterLBs svcPort lbEps)
    (fun _ t =>
       Forall succeeds t ->
       ext.(Externals.util_ServiceTypeHasClusterIP) svc = true ->
       placesClusterIP cfg ext svc addClusterLBs svcPort lbEps t).
Proof.
  unfold AddEndpoints_clusterIP.
  ok_exec ltac:(apply AddEndpoints_externalAndIngress_attempts).
  all: intros HF HC; try discriminate HC.
  all: simpl in HF;
    repeat match type of HF with
      | Forall _ (_ :: _) =>
          let H1 := fresh "Hs" in
          apply List.Forall_cons_iff in HF; destruct HF as [H1 HF];
          unfold succeeds in H1; simpl in H1; try discriminate H1
      end.
  all: match goal with H : _ /\ _ |- _ => destruct H as [Hext Hing] end.
  all: unfold placesClusterIP; cbn zeta;
    repeat match goal with H : _ && _ = _ |- _ => rewrite H end.
  all: split; [exists s; simpl; intuition auto | split].
  all: try (intros Hne; destruct (Hext Hne) as (r & Hr);
            pose proof (succeeds_In _ _ HF Hr) as Er; simpl in Er; subst r;
            simpl; tauto).
  all: intros ing Hin Hne; destruct (Hing ing Hin Hne) as (r & Hr);
    pose proof (succeeds_In _ _ HF Hr) as Er; simpl in Er; subst r;
    simpl; tauto.
Qed.

Lemma placesClusterIP_cons cfg ext (svc : Service.t) (addClusterLBs : bool)
    (svcPort : ServicePort.t) (lbEps : lbEndpoints.t) (e : Event)
    (t : list Event) :
  placesClusterIP cfg ext svc addClusterLBs svcPort lbEps t ->
  placesClusterIP cfg ext svc addClusterLBs svcPort lbEps (e :: t).
Proof.
  unfold placesClusterIP. cbn zeta.
  intros ((lb & Hlb & Hplace) & Hext & Hing). split; [| split].
  - exists lb. split; [right; exact Hlb |].
    destruct (_ && _); [| destruct addClusterLBs]; simpl; tauto.
  - intros Hne. right. exact (Hext Hne).
  - intros ing Hin Hne. right. exact (Hing ing Hin Hne).
Qed.

Lemma AddEndpoints_port_places cfg ext ovn ep (svc : Service.t)
    (m : protoPortMapT) (addClusterLBs : bool) (svcPort : ServicePort.t) :
  ok (AddEndpoints_port cfg ext ovn ep svc m addClusterLBs svcPort)
    (fun _ t =>
       forall lbEps,
         protoPortMap_lookup m svcPort.(ServicePort.Protocol)
           svcPort.(ServicePort.Name) = Some lbEps ->
         ovn.(Controller.SCTPSupport) = true
         \/ svcPort.(ServicePort.Protocol) <> ProtocolSCTP ->
         Forall succeeds t ->
         placesAll cfg ext svc addClusterLBs svcPort lbEps t).
Proof.
  unfold AddEndpoints_port.
  destruct (protoPortMap_lookup m _ _) as [lbEps|] eqn:El;
    [| apply ok_ret; intros ? [=]].
  destruct (negb (Controller.SCTPSupport ovn)
            && String.eqb (ServicePort.Protocol svcPort) ProtocolSCTP)
    eqn:Esctp.
  - apply ok_emit. intros ? _ Hsctp _. exfalso.
    apply andb_true_iff in Esctp as [Hno Heq].
    apply String.eqb_eq in Heq.
    destruct Hsctp as [Hyes | Hne]; [| contradiction].
    rewrite Hyes in Hno. discriminate Hno.
  - ok_exec ltac:(apply AddEndpoints_clusterIP_places).
    all: intros ? [= <-] _ HF; simpl in HF.
    + apply List.Forall_cons_iff in HF as [Hs _]. discriminate Hs.
    + apply List.Forall_cons_iff in HF as [_ HF]. split.
      * intros _. left. reflexivity.
      * intros HC. apply placesClusterIP_cons. auto.
    + split; [intros HN; congruence | auto].
Qed.

(** For a service that is found, has a cluster IP and is not idled,
    [AddEndpoints] returns nil after one pass per service port, and in
    every pass in which no call fails, for a port that the table backs and,
    for SCTP, the controller supports, everything is placed with the
    backends of the port: the node-port VIP on every node when the service
    type has a node port; and, when the service type has a cluster IP, the
    cluster address on one tier, with the clear on the other, the VIP of
    the external IPs at the service port, and one VIP per ingress address
    at the service port. *)
Theorem AddEndpoints_places_all (cfg : config.t) (ext : Externals.t)
    (ovn : Controller.t) (ep : Endpoints.t) (addClusterLBs : bool)
    (h : History) (svc : Service.t) :
  ovn.(Controller.watchFactory_GetService) h ep.(Endpoints.Namespace)
    ep.(Endpoints.Name) = inl svc ->
  ext.(Externals.util_IsClusterIPSet) svc = true ->
  svcNeedsIdling cfg ext svc.(Service.Annotations)
  && (List.length ep.(Endpoints.Subsets) =? 0)%nat = false ->
  exists m ts,
    getLbEndpoints ep
      (h ++ [EvGetService ep.(Endpoints.Namespace) ep.(Endpoints.Name)
               (inl svc)])
    = Some (m, invalidPortLogs ep)
    /\ AddEndpoints cfg ext ovn ep addClusterLBs h
       = Some (None, AddEndpoints_prelude ep svc ++ List.concat ts)
    /\ Forall2
         (fun svcPort t =>
            forall lbEps,
              protoPortMap_lookup m svcPort.(ServicePort.Protocol)
                svcPort.(ServicePort.Name) = Some lbEps ->
              ovn.(Controller.SCTPSupport) = true
              \/ svcPort.(ServicePort.Protocol) <> ProtocolSCTP ->
              Forall succeeds t ->
              placesAll cfg ext svc addClusterLBs svcPort lbEps t)
         svc.(Service.Spec).(ServiceSpec.Ports) ts.
Proof.
  intros Esvc Hip Hidle.
  destruct (AddEndpoints_loop_run cfg ext ovn ep addClusterLBs h svc
              Esvc Hip Hidle) as (m & ts & Em & _ & Hruns & Erun).
  exists m, ts. split; [exact Em |]. split; [exact Erun |].
  eapply for_range_runs_Forall2; [| exact Hruns].
  intros svcPort. apply AddEndpoints_port_places.
Qed.

(** The instance for a NodePort service with the ports http and dns, an
    external IP and an ingress address, http backed by one pod, in a
    cluster in which every call succeeds. *)
Lemma AddEndpoints_places_all_witness :
  exists m ts,
    getLbEndpoints (Ex.endpoints [Ex.podSubset])
      ([] ++ [EvGetService "default" "web" (inl Ex.nodePortService)])
    = Some (m, invalidPortLogs (Ex.endpoints [Ex.podSubset]))
    /\ AddEndpoints Ex.cfgShared Ex.ext (Ex.resolving Ex.nodePortService)
         (Ex.endpoints [Ex.podSubset]) true []
       = Some (None,
               AddEndpoints_prelude (Ex.endpoints [Ex.podSubset])
                 Ex.nodePortService ++ List.concat ts)
    /\ Forall2
         (fun svcPort t =>
            forall lbEps,
              protoPortMap_lookup m svcPort.(ServicePort.Protocol)
                svcPort.(ServicePort.Name) = Some lbEps ->
              (Ex.resolving Ex.nodePortService).(Controller.SCTPSupport) = true
              \/ svcPort.(ServicePort.Protocol) <> ProtocolSCTP ->
              Forall succeeds t ->
              placesAll Ex.cfgShared Ex.ext Ex.nodePortService true svcPort
                lbEps t)
         [Ex.httpNodePort; Ex.dns] ts.
Proof.
  apply (AddEndpoints_places_all Ex.cfgShared Ex.ext
           (Ex.resolving Ex.nodePortService) (Ex.endpoints [Ex.podSubset])
           true [] Ex.nodePortService); reflexivity.
Defined.

(** ** AddEndpoints: failures that do not stop a pass *)

(** The cases of a membership in a trace written out; a membership in a
    part of which a hypothesis says that it holds no such event is
    refuted. *)
Ltac in_inv H :=
  repeat match type of H with
    | In _ (_ ++ _) => rewrite in_app_iff in H
    | In _ (_ :: _) => simpl in H
    | In _ [] => contradiction
    | _ \/ _ => destruct H as [H | H]
    | False => contradiction
    | In ?e ?l =>
        match goal with
        | HF : Forall _ l |- _ =>
            exfalso; exact (proj1 (List.Forall_forall _ l) HF e H)
        end
    | _ = _ => first [discriminate H | injection H as H; subst]
    end.


Lemma attemptsExternalAndIngress_app (svc : Service.t)
    (svcPort : ServicePort.t) (lbEps : lbEndpoints.t) (t1 t2 : list Event) :
  attemptsExternalAndIngress svc svcPort lbEps t2 ->
  attemptsExternalAndIngress svc svcPort lbEps (t1 ++ t2).
Proof.
  intros [Hext Hing]. split.
  - intros Hne. destruct (Hext Hne) as (r & Hr). exists r.
    apply in_or_app. right. exact Hr.
  - intros ing Hin Hne. destruct (Hing ing Hin Hne) as (r & Hr). exists r.
    apply in_or_app. right. exact Hr.
Qed.

Lemma AddEndpoints_clusterIP_tolerates cfg ext ovn (svc : Service.t)
    (addClusterLBs : bool) (svcPort : ServicePort.t) (lbEps : lbEndpoints.t) :
  ok (AddEndpoints_clusterIP cfg ext ovn svc addClusterLBs svcPort lbEps)
    (fun _ t =>
       placementDone cfg ext svc addClusterLBs svcPort lbEps t ->
       attemptsExternalAndIngress svc svcPort lbEps t).
Proof.
  unfold AddEndpoints_clusterIP.
  ok_exec ltac:(apply AddEndpoints_externalAndIngress_attempts).
  all: unfold placementDone; cbn zeta;
    repeat match goal with H : _ && _ = _ |- _ => rewrite H end.
  all: try match goal with
         | H : _ /\ _ |- _ =>
             intros _;
             repeat (apply attemptsExternalAndIngress_app
                       with (t1 := cons _ nil));
             exact H
         end.
  all: intros Hdone; exfalso.
  all: repeat match type of Hdone with
         | if ?b then _ else _ => destruct b
         | exists _, _ => destruct Hdone as [? Hdone]
         end.
  all: in_inv Hdone.
Qed.

Lemma AddEndpoints_port_tolerates cfg ext ovn ep (svc : Service.t)
    (m : protoPortMapT) (addClusterLBs : bool) (svcPort : ServicePort.t) :
  ok (AddEndpoints_port cfg ext ovn ep svc m addClusterLBs svcPort)
    (fun _ t =>
       forall lbEps,
         protoPortMap_lookup m svcPort.(ServicePort.Protocol)
           svcPort.(ServicePort.Name) = Some lbEps ->
         placementDone cfg ext svc addClusterLBs svcPort lbEps t ->
         attemptsExternalAndIngress svc svcPort lbEps t).
Proof.
  unfold AddEndpoints_port.
  destruct (protoPortMap_lookup m _ _) as [lbEps|] eqn:El;
    [| apply ok_ret; intros ? [=]].
  ok_exec ltac:(apply AddEndpoints_clusterIP_tolerates).
  all: intros ? [= <-]; unfold placementDone; cbn zeta.
  all: try match goal with
         | H : placementDone _ _ _ _ _ _ ?t -> _ |- _ -> _ (_ ++ ?t) =>
             intros Hdone;
             apply attemptsExternalAndIngress_app with (t1 := cons _ nil);
             apply H; unfold placementDone; cbn zeta;
             repeat match type of Hdone with
               | if ?b then _ else _ => destruct b
               | exists _, _ => destruct Hdone as [lb Hdone]
               end;
             try exists lb;
             (destruct Hdone as [Hdone | Hdone];
              [discriminate Hdone | exact Hdone])
         end.
  all: try match goal with
         | H : placementDone _ _ _ _ _ _ ?t -> _ |- _ -> _ ?t => exact H
         end.
  all: intros Hdone; exfalso.
  all: repeat match type of Hdone with
         | if ?b then _ else _ => destruct b
         | exists _, _ => destruct Hdone as [? Hdone]
         end.
  all: in_inv Hdone.
Qed.
(** For a service that is found, has a cluster IP and is not idled, in
    every pass of [AddEndpoints] over a service port that the table backs:
    once the placement of the cluster address has not stopped the pass
    (the per-node write succeeded, or the write to the cluster tier
    succeeded, or, when neither is called for, the cluster load balancer
    was found), the VIP of the external IPs and the VIP of every ingress
    address are all attempted.  A failure to clear the stale VIP on the
    cluster tier, to write the VIP of the external IPs or to write the VIP
    of an ingress address is logged and does not keep the later writes
    from being attempted. *)
Theorem AddEndpoints_tolerates_later_failures (cfg : config.t)
    (ext : Externals.t) (ovn : Controller.t) (ep : Endpoints.t)
    (addClusterLBs : bool) (h : History) (svc : Service.t) :
  ovn.(Controller.watchFactory_GetService) h ep.(Endpoints.Namespace)
    ep.(Endpoints.Name) = inl svc ->
  ext.(Externals.util_IsClusterIPSet) svc = true ->
  svcNeedsIdling cfg ext svc.(Service.Annotations)
  && (List.length ep.(Endpoints.Subsets) =? 0)%nat = false ->
  exists m ts,
    getLbEndpoints ep
      (h ++ [EvGetService ep.(Endpoints.Namespace) ep.(Endpoints.Name)
               (inl svc)])
    = Some (m, invalidPortLogs ep)
    /\ AddEndpoints cfg ext ovn ep addClusterLBs h
       = Some (None, AddEndpoints_prelude ep svc ++ List.concat ts)
    /\ Forall2
         (fun svcPort t =>
            forall lbEps,
              protoPortMap_lookup m svcPort.(ServicePort.Protocol)
                svcPort.(ServicePort.Name) = Some lbEps ->
              placementDone cfg ext svc addClusterLBs svcPort lbEps t ->
              attemptsExternalAndIngress svc svcPort lbEps t)
         svc.(Service.Spec).(ServiceSpec.Ports) ts.
Proof.
  intros Esvc Hip Hidle.
  destruct (AddEndpoints_loop_run cfg ext ovn ep addClusterLBs h svc
              Esvc Hip Hidle) as (m & ts & Em & _ & Hruns & Erun).
  exists m, ts. split; [exact Em |]. split; [exact Erun |].
  eapply for_range_runs_Forall2; [| exact Hruns].
  intros svcPort. apply AddEndpoints_port_tolerates.
Qed.

(** The instance for a NodePort service with the external IP 1.2.3.4 and an
    ingress address, in a cluster in which the write of the VIP of the
    external IP fails: the failure is logged and the VIP of the ingress
    address is written. *)
Lemma AddEndpoints_tolerates_later_failures_witness :
  AddEndpoints Ex.cfgShared Ex.ext ExFailures.controller
    (Ex.endpoints [Ex.podSubset]) true []
  = Some (None,
          [EvGetService "default" "web" (inl Ex.nodePortService);
           EvDeleteServiceFromIdlingBalancer Ex.nodePortService;
           EvCreatePerNodeVIPs [] "TCP" 30080 ["10.128.2.5"] 8080 None;
           EvGetLoadBalancer "TCP" ("cluster-TCP", None);
           EvCreateLoadBalancerVIPs "cluster-TCP" ["10.96.0.10"] 80
             ["10.128.2.5"] 8080 None;
           EvDeleteNodeVIPs ["10.96.0.10"] "TCP" 80;
           EvCreatePerNodeVIPs ["1.2.3.4"] "TCP" 80 ["10.128.2.5"] 8080
             (Ex.failure "no external");
           EvKlogErrorf
             "Error in creating ExternalIP for svc %s, target port: %d - %v\n"
             [ArgString "web"; ArgInt 8080;
              ArgError (MkError "no external" [])];
           EvCreatePerNodeVIPs ["5.6.7.8"] "TCP" 80 ["10.128.2.5"] 8080 None])
  /\ exists m ts,
       getLbEndpoints (Ex.endpoints [Ex.podSubset])
         ([] ++ [EvGetService "default" "web" (inl Ex.nodePortService)])
       = Some (m, invalidPortLogs (Ex.endpoints [Ex.podSubset]))
       /\ AddEndpoints Ex.cfgShared Ex.ext ExFailures.controller
            (Ex.endpoints [Ex.podSubset]) true []
          = Some (None,
                  AddEndpoints_prelude (Ex.endpoints [Ex.podSubset])
                    Ex.nodePortService ++ List.concat ts)
       /\ Forall2
            (fun svcPort t =>
               forall lbEps,
                 protoPortMap_lookup m svcPort.(ServicePort.Protocol)
                   svcPort.(ServicePort.Name) = Some lbEps ->
                 placementDone Ex.cfgShared Ex.ext Ex.nodePortService true
                   svcPort lbEps t ->
                 attemptsExternalAndIngress Ex.nodePortService svcPort lbEps
                   t)
            [Ex.httpNodePort; Ex.dns] ts.
Proof.
  split; [vm_compute; reflexivity |].
  apply (AddEndpoints_tolerates_later_failures Ex.cfgShared Ex.ext
           ExFailures.controller (Ex.endpoints [Ex.podSubset]) true []
           Ex.nodePortService); reflexivity.
Defined.

(** ** AddEndpoints: failures that stop a pass *)

Lemma failureStopsPass_external (perNode : bool) (svc : Service.t)
    (t : list Event) :
  Forall (isExternalOrIngressEvent svc) t -> failureStopsPass perNode t.
Proof.
  induction 1 as [|e t He _ IH]; [exact I |].
  cbn [failureStopsPass]. split; [| split; [| exact IH]].
  - destruct e; simpl in *; contradiction.
  - destruct e; simpl in *; try exact I; contradiction.
Qed.

Lemma AddEndpoints_clusterIP_failure_stops cfg ext ovn (svc : Service.t)
    (addClusterLBs : bool) (svcPort : ServicePort.t) (lbEps : lbEndpoints.t) :
  ok (AddEndpoints_clusterIP cfg ext ovn svc addClusterLBs svcPort lbEps)
    (fun _ t =>
       failureStopsPass
         (hasHostEndpoints cfg ext lbEps.(lbEndpoints.IPs)
          && String.eqb cfg.(config.Gateway_Mode) GatewayModeShared)
         t).
Proof.
  unfold AddEndpoints_clusterIP.
  ok_exec ltac:(apply AddEndpoints_externalAndIngress_events).
  all: repeat match goal with H : _ && _ = _ |- _ => rewrite H end.
  all: try match goal with
         | H : Forall (isExternalOrIngressEvent _) _ /\ _ |- _ =>
             destruct H as [H _]
         end.
  all: cbn [app failureStopsPass]; unfold onlyLog; simpl.
  all: repeat match goal with
         | |- _ /\ _ => split
         | |- True => exact I
         | |- False -> _ => intros []
         | |- None <> None -> _ => intros Hn; contradiction
         | |- _ -> exists l, [_] = [l] /\ isKlog l =>
             intros _; eexists; split; [reflexivity | exact I]
         | H : Forall (isExternalOrIngressEvent _) ?t
           |- failureStopsPass _ ?t =>
             eapply failureStopsPass_external; exact H
         | H : Forall (isExternalOrIngressEvent _) ?t
           |- match ?t with _ => _ end =>
             destruct H as [|e t' He _]; [exact I |];
             destruct e; simpl in He; try exact I; try contradiction;
             match goal with
             | |- match ?r with _ => _ end => destruct r
             end; [intros [=] | exact I]
         end.
Qed.

Lemma AddEndpoints_port_failure_stops cfg ext ovn ep (svc : Service.t)
    (m : protoPortMapT) (addClusterLBs : bool) (svcPort : ServicePort.t) :
  ok (AddEndpoints_port cfg ext ovn ep svc m addClusterLBs svcPort)
    (fun _ t =>
       forall lbEps,
         protoPortMap_lookup m svcPort.(ServicePort.Protocol)
           svcPort.(ServicePort.Name) = Some lbEps ->
         failureStopsPass
           (hasHostEndpoints cfg ext lbEps.(lbEndpoints.IPs)
            && String.eqb cfg.(config.Gateway_Mode) GatewayModeShared)
           t).
Proof.
  unfold AddEndpoints_port.
  destruct (protoPortMap_lookup m _ _) as [lbEps|] eqn:El;
    [| apply ok_ret; intros ? [=]].
  ok_exec ltac:(apply AddEndpoints_clusterIP_failure_stops).
  all: intros ? [= <-]; cbn [app failureStopsPass]; simpl.
  all: repeat match goal with
         | |- _ /\ _ => split
         | |- True => exact I
         | |- False -> _ => intros []
         | |- failureStopsPass _ _ => assumption
         end.
Qed.

(** For a service that is found, has a cluster IP and is not idled, in
    every pass of [AddEndpoints] over a service port that the table backs,
    three failures stop the pass: after a failed lookup of the cluster load
    balancer, after a failed write of the cluster address to the cluster
    tier, and, with host endpoints in shared mode, after a failed per-node
    write of the cluster address (the write that directly follows the
    lookup), the pass holds the log line of the failure and nothing else.
    So the VIPs of the external IPs and of the ingress addresses of that
    port are not written in this pass. *)
Theorem AddEndpoints_failed_placement_ends_the_pass (cfg : config.t)
    (ext : Externals.t) (ovn : Controller.t) (ep : Endpoints.t)
    (addClusterLBs : bool) (h : History) (svc : Service.t) :
  ovn.(Controller.watchFactory_GetService) h ep.(Endpoints.Namespace)
    ep.(Endpoints.Name) = inl svc ->
  ext.(Externals.util_IsClusterIPSet) svc = true ->
  svcNeedsIdling cfg ext svc.(Service.Annotations)
  && (List.length ep.(Endpoints.Subsets) =? 0)%nat = false ->
  exists m ts,
    getLbEndpoints ep
      (h ++ [EvGetService ep.(Endpoints.Namespace) ep.(Endpoints.Name)
               (inl svc)])
    = Some (m, invalidPortLogs ep)
    /\ AddEndpoints cfg ext ovn ep addClusterLBs h
       = Some (None, AddEndpoints_prelude ep svc ++ List.concat ts)
    /\ Forall2
         (fun svcPort t =>
            forall lbEps,
              protoPortMap_lookup m svcPort.(ServicePort.Protocol)
                svcPort.(ServicePort.Name) = Some lbEps ->
              failureStopsPass
                (hasHostEndpoints cfg ext lbEps.(lbEndpoints.IPs)
                 && String.eqb cfg.(config.Gateway_Mode) GatewayModeShared)
                t)
         svc.(Service.Spec).(ServiceSpec.Ports) ts.
Proof.
  intros Esvc Hip Hidle.
  destruct (AddEndpoints_loop_run cfg ext ovn ep addClusterLBs h svc
              Esvc Hip Hidle) as (m & ts & Em & _ & Hruns & Erun).
  exists m, ts. split; [exact Em |]. split; [exact Erun |].
  eapply for_range_runs_Forall2; [| exact Hruns].
  intros svcPort. apply AddEndpoints_port_failure_stops.
Qed.

(** The instance for a ClusterIP service with an external IP, backed by a
    host-networked pod in shared mode, in a cluster in which the per-node
    write of the cluster address fails: the pass is the lookup, the failed
    write and its log line, and the VIP of the external IP is not
    written. *)
Lemma AddEndpoints_failed_placement_ends_the_pass_witness :
  AddEndpoints Ex.cfgShared Ex.ext ExFailures.placementFails
    (Ex.endpoints [Ex.hostSubset]) true []
  = Some (None,
          [EvGetService "default" "web" (inl Ex.externalService);
           EvDeleteServiceFromIdlingBalancer Ex.externalService;
           EvGetLoadBalancer "TCP" ("cluster-TCP", None);
           EvCreatePerNodeVIPs ["10.96.0.10"] "TCP" 80 ["192.168.1.7"] 8080
             (Ex.failure "no node");
           EvKlogErrorf
             "Error in creating Cluster IP for svc %s, target port: %d - %v\n"
             [ArgString "web"; ArgInt 8080; ArgError (MkError "no node" [])]])
  /\ exists m ts,
       getLbEndpoints (Ex.endpoints [Ex.hostSubset])
         ([] ++ [EvGetService "default" "web" (inl Ex.externalService)])
       = Some (m, invalidPortLogs (Ex.endpoints [Ex.hostSubset]))
       /\ AddEndpoints Ex.cfgShared Ex.ext ExFailures.placementFails
            (Ex.endpoints [Ex.hostSubset]) true []
          = Some (None,
                  AddEndpoints_prelude (Ex.endpoints [Ex.hostSubset])
                    Ex.externalService ++ List.concat ts)
       /\ Forall2
            (fun svcPort t =>
               forall lbEps,
                 protoPortMap_lookup m svcPort.(ServicePort.Protocol)
                   svcPort.(ServicePort.Name) = Some lbEps ->
                 failureStopsPass
                   (hasHostEndpoints Ex.cfgShared Ex.ext
                      lbEps.(lbEndpoints.IPs)
                    && String.eqb Ex.cfgShared.(config.Gateway_Mode)
                         GatewayModeShared)
                   t)
            [Ex.http] ts.
Proof.
  split; [vm_compute; reflexivity |].
  apply (AddEndpoints_failed_placement_ends_the_pass Ex.cfgShared Ex.ext
           ExFailures.placementFails (Ex.endpoints [Ex.hostSubset]) true []
           Ex.externalService); reflexivity.
Defined.

(** ** deleteEndpoints: the calls it makes *)

Lemma deleteEndpoints_clear_events ovn (lb serviceIP : string) (port : Z)
    (logLB logIP : string) (logPort : Z) :
  ok (deleteEndpoints_clear ovn lb serviceIP port logLB logIP logPort)
    (fun _ t => Forall isClearOrLog t).
Proof.
  unfold deleteEndpoints_clear.
  ok_exec fail; simpl; Forall_explicit; auto.
Qed.

Lemma deleteEndpoints_externalIPs_clears ovn (svc : Service.t)
    (svcPort : ServicePort.t) (gatewayLB workerLB : string) :
  ok (deleteEndpoints_externalIPs ovn svc svcPort gatewayLB workerLB)
    (fun _ t => Forall isClearOrLog t).
Proof.
  unfold deleteEndpoints_externalIPs.
  apply ok_for_range_Forall. intros extIP.
  ok_exec ltac:(apply deleteEndpoints_clear_events).
  apply Forall_app. split; assumption.
Qed.

Lemma deleteEndpoints_ingress_clears ovn (svc : Service.t)
    (svcPort : ServicePort.t) (gatewayLB workerLB : string) :
  ok (deleteEndpoints_ingress ovn svc svcPort gatewayLB workerLB)
    (fun _ t => Forall isClearOrLog t).
Proof.
  unfold deleteEndpoints_ingress.
  apply ok_for_range_Forall. intros ing.
  ok_exec ltac:(apply deleteEndpoints_clear_events).
  - constructor.
  - apply Forall_app. split; assumption.
Qed.

Lemma isClearOrLog_path (t : list Event) :
  Forall isClearOrLog t -> Forall isDeletePathEvent t.
Proof. apply List.Forall_impl. intros []; simpl; tauto. Qed.

Lemma deleteEndpoints_nodePort_path ext ovn (svc : Service.t)
    (svcPort : ServicePort.t) (gateway gatewayLB workerLB : string) :
  ok (deleteEndpoints_nodePort ext ovn svc svcPort gateway gatewayLB workerLB)
    (fun _ t => Forall isDeletePathEvent t).
Proof.
  eapply ok_weaken; [apply deleteEndpoints_nodePort_events |].
  intros [] t. apply List.Forall_impl. intros []; simpl; tauto.
Qed.

Lemma deleteEndpoints_gateway_path cfg ext ovn (svc : Service.t)
    (svcPort : ServicePort.t) (gateway : string) :
  ok (deleteEndpoints_gateway cfg ext ovn svc svcPort gateway)
    (fun _ t => Forall isDeletePathEvent t).
Proof.
  unfold deleteEndpoints_gateway. cbn zeta.
  ok_exec ltac:(first
    [ eapply ok_weaken;
      [apply deleteEndpoints_clear_events | intros ? ?; apply isClearOrLog_path]
    | eapply ok_weaken;
      [apply deleteEndpoints_ingress_clears | intros ? ?; apply isClearOrLog_path]
    | apply deleteEndpoints_nodePort_path ]).
  all: simpl; Forall_explicit; try exact I.
  all: repeat (apply Forall_app; split); try assumption.
  all: Forall_explicit; try exact I; repeat (apply Forall_app; split);
    try assumption.
Qed.

Lemma deleteEndpoints_port_path cfg ext ovn (svc : Service.t)
    (gateways : list string) (svcPort : ServicePort.t) :
  ok (deleteEndpoints_port cfg ext ovn svc gateways svcPort)
    (fun _ t => Forall isDeletePathEvent t).
Proof.
  unfold deleteEndpoints_port. cbn zeta.
  ok_exec ltac:(first
    [ eapply ok_weaken;
      [apply deleteEndpoints_clear_events | intros ? ?; apply isClearOrLog_path]
    | apply (ok_for_range_Forall _ isDeletePathEvent); intros;
      apply deleteEndpoints_gateway_path ]).
  all: simpl; Forall_explicit; try exact I.
  apply Forall_app; split; assumption.
Qed.

Lemma deleteEndpoints_path cfg ext ovn (ep : Endpoints.t) :
  ok (deleteEndpoints cfg ext ovn ep)
    (fun r t => r = None /\ Forall isDeletePathEvent t).
Proof.
  unfold deleteEndpoints.
  ok_exec ltac:(first
    [ apply (ok_for_range_Forall _ isDeletePathEvent); intros;
      apply deleteEndpoints_port_path ]).
  all: (split; [reflexivity |]); simpl; Forall_explicit; try exact I.
  all: rewrite app_nil_r; assumption.
Qed.

(** The two paths keep to their own calls.  [AddEndpoints] writes VIPs
    through [createPerNodeVIPs] and [createLoadBalancerVIPs] and clears
    through [deleteLoadBalancerVIP] and [deleteNodeVIPs]: it never calls
    [configureLoadBalancer] and never looks up the gateways, their load
    balancers or their physical IPs.  [deleteEndpoints] calls none of the
    four; every call of [configureLoadBalancer] it makes has no target, so
    it sets no backend; and neither lists namespaces or Endpoints or
    requests a full sync. *)
Theorem AddEndpoints_and_deleteEndpoints_calls (cfg : config.t)
    (ext : Externals.t) (ovn : Controller.t) (ep : Endpoints.t)
    (h : History) :
  (forall addClusterLBs,
     exists t,
       AddEndpoints cfg ext ovn ep addClusterLBs h = Some (None, t)
       /\ Forall isAddPathEvent t)
  /\ exists t,
       deleteEndpoints cfg ext ovn ep h = Some (None, t)
       /\ Forall isDeletePathEvent t.
Proof.
  split.
  - intros addClusterLBs.
    destruct (AddEndpoints_ok_events cfg ext ovn ep addClusterLBs h)
      as (t & E & HF).
    exists t. split; [exact E |].
    eapply List.Forall_impl; [| exact HF].
    intros e He. destruct e; simpl in *; try exact I;
      destruct He as (svcPort & lbEps & _ & _ & Hp); exact Hp.
  - destruct (deleteEndpoints_path cfg ext ovn ep h) as (r & t & E & -> & HF).
    exists t. split; assumption.
Qed.

(** ** deleteEndpoints: an idled service *)

(** For a service that is found, has a cluster IP and needs idling,
    [deleteEndpoints] registers the service on the idling balancer, removes
    it from the other balancers and returns nil.  It does so whatever the
    subsets of the object are, and it looks up no gateway and no load
    balancer and clears no VIP itself. *)
Theorem deleteEndpoints_idled (cfg : config.t) (ext : Externals.t)
    (ovn : Controller.t) (ep : Endpoints.t) (h : History) (svc : Service.t) :
  ovn.(Controller.watchFactory_GetService) h ep.(Endpoints.Namespace)
    ep.(Endpoints.Name) = inl svc ->
  ext.(Externals.util_IsClusterIPSet) svc = true ->
  svcNeedsIdling cfg ext svc.(Service.Annotations) = true ->
  deleteEndpoints cfg ext ovn ep h
  = Some (None,
          [EvGetService ep.(Endpoints.Namespace) ep.(Endpoints.Name) (inl svc);
           EvAddServiceToIdlingBalancer svc;
           EvDeleteServiceFromBalancers svc]).
Proof.
  intros Esvc Hip Hidle.
  unfold deleteEndpoints, call_GetService.
  change [EvGetService ep.(Endpoints.Namespace) ep.(Endpoints.Name) (inl svc);
          EvAddServiceToIdlingBalancer svc;
          EvDeleteServiceFromBalancers svc]
    with ([EvGetService ep.(Endpoints.Namespace) ep.(Endpoints.Name)
             (inl svc)]
          ++ [EvAddServiceToIdlingBalancer svc;
              EvDeleteServiceFromBalancers svc]).
  eapply bind_run; [unfold call; rewrite Esvc; reflexivity |].
  cbn beta iota. rewrite Hip, Hidle. reflexivity.
Qed.

(** The instance for an idled service whose Endpoints object still holds a
    pod. *)
Lemma deleteEndpoints_idled_witness :
  (Ex.endpoints [Ex.podSubset]).(Endpoints.Subsets) = [Ex.podSubset]
  /\ deleteEndpoints Ex.cfgShared Ex.ext (Ex.resolving Ex.idledService)
       (Ex.endpoints [Ex.podSubset]) []
     = Some (None,
             [EvGetService "default" "web" (inl Ex.idledService);
              EvAddServiceToIdlingBalancer Ex.idledService;
              EvDeleteServiceFromBalancers Ex.idledService]).
Proof.
  split; [reflexivity |].
  apply (deleteEndpoints_idled Ex.cfgShared Ex.ext
           (Ex.resolving Ex.idledService) (Ex.endpoints [Ex.podSubset]) []
           Ex.idledService); reflexivity.
Defined.

(** ** deleteEndpoints: what a failed lookup skips *)

Lemma failedLookupSkips_clean (t1 t2 : list Event) :
  Forall (fun e => ~ isFailedLookup e) t1 ->
  failedLookupSkips t2 -> failedLookupSkips (t1 ++ t2).
Proof.
  induction 1 as [|e t1 He _ IH]; intros H2; [exact H2 |].
  simpl. split; [intros Hf; contradiction | exact (IH H2)].
Qed.

Lemma failedLookupSkips_next (t1 t2 : list Event) :
  failedLookupSkips t1 -> failedLookupSkips t2 ->
  match t2 with [] => True | e :: _ => startsPass e end ->
  failedLookupSkips (t1 ++ t2).
Proof.
  intros H1 H2 Hstart. induction t1 as [|e t1 IH]; [exact H2 |].
  destruct H1 as [He H1]. cbn [app failedLookupSkips]. split; [| exact (IH H1)].
  intros Hf. specialize (He Hf).
  destruct t1 as [|l t1]; [contradiction |].
  destruct He as [Hl Hnext]. cbn [app]. split; [exact Hl |].
  destruct t1 as [|n t1]; [| exact Hnext].
  destruct t2; [exact I | exact Hstart].
Qed.

Lemma isClearOrLog_clean (t : list Event) :
  Forall isClearOrLog t -> Forall (fun e => ~ isFailedLookup e) t.
Proof. apply List.Forall_impl. intros []; simpl; tauto. Qed.

Lemma clean_skips (t : list Event) :
  Forall isClearOrLog t -> failedLookupSkips t.
Proof.
  intros HF. rewrite <- (app_nil_r t).
  apply failedLookupSkips_clean; [apply isClearOrLog_clean, HF | exact I].
Qed.

(** [failedLookupSkips] of a trace written out, with hypotheses for its
    parts. *)
Ltac skips_solve :=
  repeat first
    [ assumption
    | exact I
    | apply clean_skips; assumption
    | apply failedLookupSkips_clean; [apply isClearOrLog_clean; assumption |]
    | progress
        (cbn [app failedLookupSkips]; split;
         [ let Hf := fresh "Hf" in
           intros Hf; simpl in Hf;
           solve [congruence | contradiction | simpl; auto] |]) ].

Lemma deleteEndpoints_nodePort_skips ext ovn (svc : Service.t)
    (svcPort : ServicePort.t) (gateway gatewayLB workerLB : string) :
  ok (deleteEndpoints_nodePort ext ovn svc svcPort gateway gatewayLB workerLB)
    (fun _ t => failedLookupSkips t).
Proof.
  unfold deleteEndpoints_nodePort.
  ok_exec ltac:(first
    [ apply deleteEndpoints_externalIPs_clears
    | apply (ok_for_range_Forall _ isClearOrLog); intros;
      ok_exec ltac:(apply deleteEndpoints_clear_events);
      apply Forall_app; split; assumption ]).
  all: skips_solve.
Qed.

Lemma deleteEndpoints_gateway_skips cfg ext ovn (svc : Service.t)
    (svcPort : ServicePort.t) (gateway : string) :
  ok (deleteEndpoints_gateway cfg ext ovn svc svcPort gateway)
    (fun _ t =>
       failedLookupSkips t
       /\ exists e rest, t = e :: rest /\ startsPass e).
Proof.
  unfold deleteEndpoints_gateway. cbn zeta.
  ok_exec ltac:(first
    [ apply deleteEndpoints_clear_events
    | apply deleteEndpoints_ingress_clears
    | apply deleteEndpoints_nodePort_skips ]).
  all: split; [| do 2 eexists; split; [reflexivity | exact I]].
  all: skips_solve.
Qed.

Lemma ok_for_range_skips {A : Type} (body : A -> M unit) (xs : list A) :
  (forall x,
     ok (body x)
       (fun _ t =>
          failedLookupSkips t
          /\ exists e rest, t = e :: rest /\ startsPass e)) ->
  ok (for_range xs body)
    (fun _ t =>
       failedLookupSkips t
       /\ match t with [] => True | e :: _ => startsPass e end).
Proof.
  intros Hbody. induction xs as [|x xs IH]; simpl.
  - apply ok_ret. split; exact I.
  - eapply ok_bind; [apply Hbody |].
    intros [] t1 (H1 & e & rest & -> & He).
    eapply ok_weaken; [apply IH |].
    intros [] t2 [H2 Hstart]. split; [| exact He].
    apply failedLookupSkips_next; assumption.
Qed.

Lemma deleteEndpoints_port_skips cfg ext ovn (svc : Service.t)
    (gateways : list string) (svcPort : ServicePort.t) :
  ok (deleteEndpoints_port cfg ext ovn svc gateways svcPort)
    (fun _ t =>
       failedLookupSkips t
       /\ exists e rest, t = e :: rest /\ startsPass e).
Proof.
  unfold deleteEndpoints_port. cbn zeta.
  ok_exec ltac:(first
    [ apply deleteEndpoints_clear_events
    | apply ok_for_range_skips; intros;
      apply deleteEndpoints_gateway_skips ]).
  all: split; [| do 2 eexists; split; [reflexivity | exact I]].
  all: try match goal with
         | H : failedLookupSkips _ /\ _ |- _ => destruct H as [? _]
         end.
  all: skips_solve.
Qed.

Lemma deleteEndpoints_skips cfg ext ovn (ep : Endpoints.t) :
  ok (deleteEndpoints cfg ext ovn ep)
    (fun r t => r = None /\ failedLookupSkips t).
Proof.
  unfold deleteEndpoints.
  ok_exec ltac:(first
    [ apply ok_for_range_skips; intros; apply deleteEndpoints_port_skips ]).
  all: split; [reflexivity |].
  all: try match goal with
         | H : failedLookupSkips _ /\ _ |- _ => destruct H as [? _]
         end.
  all: try rewrite app_nil_r.
  all: skips_solve.
Qed.

(** In the trace of [deleteEndpoints], every failed lookup of a load
    balancer (of the cluster, of a gateway, of a worker) or of the physical
    IPs of a gateway is followed by a log line and then by the lookup that
    begins the pass of the next gateway or of the next service port, or by
    nothing.  So what was left to do on that gateway (for that service
    port, when it is the cluster load balancer that is not found) is
    skipped: a gateway whose worker load balancer is not found keeps its
    ingress, node-port and external-IP VIPs on both load balancers, and a
    gateway whose physical IPs cannot be looked up keeps its external-IP
    VIPs. *)
Theorem deleteEndpoints_failed_lookup_skips (cfg : config.t)
    (ext : Externals.t) (ovn : Controller.t) (ep : Endpoints.t)
    (h : History) :
  exists t,
    deleteEndpoints cfg ext ovn ep h = Some (None, t)
    /\ failedLookupSkips t.
Proof.
  destruct (deleteEndpoints_skips cfg ext ovn ep h) as (r & t & E & -> & HS).
  exists t. split; assumption.
Qed.

(** ** deleteEndpoints: the ingress addresses and the node port *)

Lemma deleteEndpoints_ingress_all ovn (svc : Service.t)
    (svcPort : ServicePort.t) (gatewayLB workerLB : string) :
  ok (deleteEndpoints_ingress ovn svc svcPort gatewayLB workerLB)
    (fun _ t =>
       forall ing,
         In ing svc.(Service.Ingress) ->
         ing.(LoadBalancerIngress.IP) <> "" ->
         exists r1 r2,
           In (EvConfigureLoadBalancer gatewayLB ing.(LoadBalancerIngress.IP)
                 svcPort.(ServicePort.Port) [] r1) t
           /\ In (EvConfigureLoadBalancer workerLB
                    ing.(LoadBalancerIngress.IP)
                    svcPort.(ServicePort.Port) [] r2) t).
Proof.
  unfold deleteEndpoints_ingress. eapply ok_weaken.
  - apply (ok_for_range_each _
             (fun ing tx =>
                ing.(LoadBalancerIngress.IP) <> "" ->
                exists r1 r2,
                  In (EvConfigureLoadBalancer gatewayLB
                        ing.(LoadBalancerIngress.IP)
                        svcPort.(ServicePort.Port) [] r1) tx
                  /\ In (EvConfigureLoadBalancer workerLB
                           ing.(LoadBalancerIngress.IP)
                           svcPort.(ServicePort.Port) [] r2) tx)).
    intros ing. unfold deleteEndpoints_clear. ok_exec fail.
    all: intros Hne; try (apply String.eqb_eq in Heqb; contradiction).
    all: do 2 eexists; split; simpl; auto 10.
  - intros [] t Hall ing Hin Hne.
    destruct (Hall ing Hin) as (t1 & tx & t2 & -> & Hx).
    destruct (Hx Hne) as (r1 & r2 & H1 & H2). exists r1, r2.
    rewrite !in_app_iff. auto.
Qed.

Lemma deleteEndpoints_physicalIPs_all ovn (svcPort : ServicePort.t)
    (gatewayLB workerLB : string) (physicalIPs : list string) :
  ok (for_range physicalIPs
        (fun physicalIP =>
           deleteEndpoints_clear ovn gatewayLB physicalIP
             svcPort.(ServicePort.NodePort)
             gatewayLB physicalIP svcPort.(ServicePort.NodePort) ;;
           deleteEndpoints_clear ovn workerLB physicalIP
             svcPort.(ServicePort.NodePort)
             workerLB physicalIP svcPort.(ServicePort.NodePort)))
    (fun _ t =>
       forall physicalIP,
         In physicalIP physicalIPs ->
         exists r1 r2,
           In (EvConfigureLoadBalancer gatewayLB physicalIP
                 svcPort.(ServicePort.NodePort) [] r1) t
           /\ In (EvConfigureLoadBalancer workerLB physicalIP
                    svcPort.(ServicePort.NodePort) [] r2) t).
Proof.
  eapply ok_weaken.
  - apply (ok_for_range_each _
             (fun physicalIP tx =>
                exists r1 r2,
                  In (EvConfigureLoadBalancer gatewayLB physicalIP
                        svcPort.(ServicePort.NodePort) [] r1) tx
                  /\ In (EvConfigureLoadBalancer workerLB physicalIP
                           svcPort.(ServicePort.NodePort) [] r2) tx)).
    intros physicalIP. unfold deleteEndpoints_clear. ok_exec fail.
    all: do 2 eexists; split; simpl; auto 10.
  - intros [] t Hall physicalIP Hin.
    destruct (Hall physicalIP Hin) as (t1 & tx & t2 & -> & r1 & r2 & H1 & H2).
    exists r1, r2. rewrite !in_app_iff. auto.
Qed.

Lemma deleteEndpoints_nodePort_all ext ovn (svc : Service.t)
    (svcPort : ServicePort.t) (gateway gatewayLB workerLB : string) :
  ok (deleteEndpoints_nodePort ext ovn svc svcPort gateway gatewayLB workerLB)
    (fun _ t =>
       if ext.(Externals.util_ServiceTypeHasNodePort) svc then
         exists p rest,
           t = EvGetGatewayPhysicalIPs gateway p :: rest
           /\ Forall isClearOrLog rest
           /\ (p.2 = None ->
               forall physicalIP,
                 In physicalIP p.1 ->
                 exists r1 r2,
                   In (EvConfigureLoadBalancer gatewayLB physicalIP
                         svcPort.(ServicePort.NodePort) [] r1) rest
                   /\ In (EvConfigureLoadBalancer workerLB physicalIP
                            svcPort.(ServicePort.NodePort) [] r2) rest)
       else Forall isClearOrLog t).
Proof.
  unfold deleteEndpoints_nodePort.
  destruct (Externals.util_ServiceTypeHasNodePort ext svc);
    [| apply deleteEndpoints_externalIPs_clears].
  ok_exec ltac:(first
    [ apply deleteEndpoints_externalIPs_clears
    | apply ok_and;
      [ apply deleteEndpoints_physicalIPs_all
      | apply (ok_for_range_Forall _ isClearOrLog); intros;
        ok_exec ltac:(apply deleteEndpoints_clear_events);
        apply Forall_app; split; assumption ] ]).
  - do 2 eexists. split; [reflexivity |]. split.
    + Forall_explicit. exact I.
    + intros [=].
  - destruct H as [Hall Hclean].
    do 2 eexists. split; [reflexivity |]. split.
    + apply Forall_app. split; assumption.
    + intros _ physicalIP Hin.
      destruct (Hall physicalIP Hin) as (r1 & r2 & H1 & H2).
      exists r1, r2. rewrite !in_app_iff. auto.
Qed.

Lemma deleteEndpoints_gateway_all cfg ext ovn (svc : Service.t)
    (svcPort : ServicePort.t) (gateway : string) :
  ok (deleteEndpoints_gateway cfg ext ovn svc svcPort gateway)
    (fun _ t => clearsIngressAndNodePort ext svc svcPort gateway t).
Proof.
  unfold deleteEndpoints_gateway. cbn zeta.
  ok_exec ltac:(first
    [ apply deleteEndpoints_clear_events
    | apply ok_and;
      [apply deleteEndpoints_ingress_all | apply deleteEndpoints_ingress_clears]
    | apply deleteEndpoints_nodePort_all ]).
  all: unfold clearsIngressAndNodePort; cbn zeta; intros gatewayLB workerLB HG HW.
  all: destruct (Externals.util_ServiceTypeHasNodePort ext svc) eqn:HN.
  all: repeat match goal with
         | H : exists _, _ |- _ => destruct H
         | H : _ /\ _ |- _ => destruct H
         end; subst.
  all: in_inv HG; in_inv HW.
  all: try (split;
    [ intros ing Hin Hne;
      match goal with
      | Hing : forall ing, In ing _ -> _ |- _ =>
          destruct (Hing ing Hin Hne) as (r1 & r2 & Hr1 & Hr2)
      end;
      exists r1, r2; rewrite !in_app_iff; simpl; auto 10
    | intros HN' physicalIPs physicalIP HP Hin; try discriminate HN';
      in_inv HP;
      match goal with
      | Hall : _ -> forall physicalIP, In physicalIP _ -> _ |- _ =>
          destruct (Hall eq_refl physicalIP Hin) as (r1 & r2 & Hr1 & Hr2)
      end;
      exists r1, r2; rewrite !in_app_iff; simpl; auto 10 ]).
Qed.

Lemma deleteEndpoints_port_onEveryGateway cfg ext ovn (svc : Service.t)
    (gateways : list string) (svcPort : ServicePort.t)
    (P : string -> list Event -> Prop) :
  (forall gateway,
     ok (deleteEndpoints_gateway cfg ext ovn svc svcPort gateway)
       (fun _ t => P gateway t)) ->
  ok (deleteEndpoints_port cfg ext ovn svc gateways svcPort)
    (fun _ t => onEveryGateway P svc gateways svcPort t).
Proof.
  intros HP.
  unfold deleteEndpoints_port, deleteEndpoints_clear. cbn zeta.
  ok_exec ltac:(apply (ok_for_range _ P); intros; apply HP).
  all: unfold onEveryGateway; simpl.
  all: do 2 eexists; (split; [reflexivity |]); cbn [fst snd].
  all: intros Hc; try discriminate Hc.
  all: match goal with
       | H : exists ts, Forall2 _ _ ts /\ _ = List.concat ts |- _ =>
           destruct H as (tgs & HF & ->)
       end.
  - eexists; eexists (cons _ nil); exists tgs.
    split; [reflexivity |]. split; [Forall_explicit; exact I | exact HF].
  - eexists; exists (@nil Event), tgs.
    split; [reflexivity |]. split; [constructor | exact HF].
Qed.

(** For a service that is found, has a cluster IP and is not idled,
    [deleteEndpoints] returns nil after one pass per service port, and the
    pass of a port whose cluster load balancer is found makes one pass per
    gateway, in which, the gateway and worker load balancers of the gateway
    being found:
    - for every ingress address of the service that is not empty, the VIP
      at (ingress address, service port) is cleared on the gateway load
      balancer and on the worker load balancer;
    - when the service type has a node port and the physical IPs of the
      gateway are found, for every one of them the VIP at (physical IP,
      node port) is cleared on both.
    This holds in every gateway mode, and whether or not the clears
    succeed. *)
Theorem deleteEndpoints_clears_ingress_and_node_port (cfg : config.t)
    (ext : Externals.t) (ovn : Controller.t) (ep : Endpoints.t)
    (h : History) (svc : Service.t) :
  ovn.(Controller.watchFactory_GetService) h ep.(Endpoints.Namespace)
    ep.(Endpoints.Name) = inl svc ->
  ext.(Externals.util_IsClusterIPSet) svc = true ->
  svcNeedsIdling cfg ext svc.(Service.Annotations) = false ->
  let g :=
    ovn.(Controller.getOvnGateways)
      (h ++ [EvGetService ep.(Endpoints.Namespace) ep.(Endpoints.Name)
               (inl svc);
             EvDeleteServiceFromIdlingBalancer svc]) in
  exists ts,
    deleteEndpoints cfg ext ovn ep h
    = Some (None, deleteEndpoints_prelude ep svc g ++ List.concat ts)
    /\ Forall2
         (fun svcPort t =>
            onEveryGateway (clearsIngressAndNodePort ext svc svcPort)
              svc g.1 svcPort t)
         svc.(Service.Spec).(ServiceSpec.Ports) ts.
Proof.
  intros Esvc Hip Hidle g.
  destruct (deleteEndpoints_loop_run cfg ext ovn ep h svc Esvc Hip Hidle)
    as (ts & Hruns & Erun).
  exists ts. split; [exact Erun |].
  eapply for_range_runs_Forall2; [| exact Hruns].
  intros svcPort. apply deleteEndpoints_port_onEveryGateway.
  intros gateway. apply deleteEndpoints_gateway_all.
Qed.

(** The instance for a NodePort service with an ingress address, in a
    cluster with one gateway. *)
Lemma deleteEndpoints_clears_ingress_and_node_port_witness :
  exists ts,
    deleteEndpoints Ex.cfgLocal Ex.ext (Ex.resolving Ex.nodePortService)
      (Ex.endpoints [Ex.podSubset]) []
    = Some (None,
            deleteEndpoints_prelude (Ex.endpoints [Ex.podSubset])
              Ex.nodePortService (["GR_node1"], None) ++ List.concat ts)
    /\ Forall2
         (fun svcPort t =>
            onEveryGateway
              (clearsIngressAndNodePort Ex.ext Ex.nodePortService svcPort)
              Ex.nodePortService ["GR_node1"] svcPort t)
         [Ex.httpNodePort; Ex.dns] ts.
Proof.
  apply (deleteEndpoints_clears_ingress_and_node_port Ex.cfgLocal Ex.ext
           (Ex.resolving Ex.nodePortService) (Ex.endpoints [Ex.podSubset])
           [] Ex.nodePortService); reflexivity.
Defined.

(** ** deleteEndpoints: the external IPs *)

Lemma deleteEndpoints_externalIPs_all ovn (svc : Service.t)
    (svcPort : ServicePort.t) (gatewayLB workerLB : string) :
  ok (deleteEndpoints_externalIPs ovn svc svcPort gatewayLB workerLB)
    (fun _ t =>
       forall extIP,
         In extIP svc.(Service.Spec).(ServiceSpec.ExternalIPs) ->
         exists r1 r2,
           In (EvConfigureLoadBalancer gatewayLB extIP
                 svcPort.(ServicePort.Port) [] r1) t
           /\ In (EvConfigureLoadBalancer workerLB extIP
                    svcPort.(ServicePort.NodePort) [] r2) t).
Proof.
  unfold deleteEndpoints_externalIPs. eapply ok_weaken.
  - apply (ok_for_range_each _
             (fun extIP tx =>
                exists r1 r2,
                  In (EvConfigureLoadBalancer gatewayLB extIP
                        svcPort.(ServicePort.Port) [] r1) tx
                  /\ In (EvConfigureLoadBalancer workerLB extIP
                           svcPort.(ServicePort.NodePort) [] r2) tx)).
    intros extIP. unfold deleteEndpoints_clear. ok_exec fail.
    all: do 2 eexists; split; simpl; auto 10.
  - intros [] t Hall extIP Hin.
    destruct (Hall extIP Hin) as (t1 & tx & t2 & -> & r1 & r2 & H1 & H2).
    exists r1, r2. rewrite !in_app_iff. auto.
Qed.

Lemma deleteEndpoints_nodePort_externalIPs ext ovn (svc : Service.t)
    (svcPort : ServicePort.t) (gateway gatewayLB workerLB : string) :
  ok (deleteEndpoints_nodePort ext ovn svc svcPort gateway gatewayLB workerLB)
    (fun _ t =>
       (ext.(Externals.util_ServiceTypeHasNodePort) svc = true ->
        exists physicalIPs,
          In (EvGetGatewayPhysicalIPs gateway (physicalIPs, None)) t) ->
       forall extIP,
         In extIP svc.(Service.Spec).(ServiceSpec.ExternalIPs) ->
         exists r1 r2,
           In (EvConfigureLoadBalancer gatewayLB extIP
                 svcPort.(ServicePort.Port) [] r1) t
           /\ In (EvConfigureLoadBalancer workerLB extIP
                    svcPort.(ServicePort.NodePort) [] r2) t).
Proof.
  unfold deleteEndpoints_nodePort.
  destruct (Externals.util_ServiceTypeHasNodePort ext svc).
  - ok_exec ltac:(first
      [ apply deleteEndpoints_externalIPs_all
      | apply (ok_for_range_Forall _ isClearOrLog); intros;
        ok_exec ltac:(apply deleteEndpoints_clear_events);
        apply Forall_app; split; assumption ]).
    + intros Hreach. destruct (Hreach eq_refl) as (ips & Hin). in_inv Hin.
    + intros _ extIP Hin.
      match goal with
      | Hall : forall extIP, In extIP _ -> _ |- _ =>
          destruct (Hall extIP Hin) as (r1 & r2 & H1 & H2)
      end.
      exists r1, r2. rewrite !in_app_iff. simpl. auto 10.
  - eapply ok_weaken; [apply deleteEndpoints_externalIPs_all |].
    intros [] t Hall _. exact Hall.
Qed.

Lemma deleteEndpoints_gateway_externalIPs cfg ext ovn (svc : Service.t)
    (svcPort : ServicePort.t) (gateway : string) :
  ok (deleteEndpoints_gateway cfg ext ovn svc svcPort gateway)
    (fun _ t => clearsExternalIPs ext svc svcPort gateway t).
Proof.
  unfold deleteEndpoints_gateway. cbn zeta.
  ok_exec ltac:(first
    [ apply deleteEndpoints_clear_events
    | apply deleteEndpoints_ingress_clears
    | apply ok_and;
      [ apply deleteEndpoints_nodePort_externalIPs
      | apply deleteEndpoints_nodePort_all ] ]).
  all: unfold clearsExternalIPs; cbn zeta;
    intros gatewayLB workerLB HG HW Hreach extIP Hin.
  all: try match goal with
         | H : _ /\ (if _ then _ else _) |- _ => destruct H as [Hext Hshape]
         end.
  all: destruct (Externals.util_ServiceTypeHasNodePort ext svc) eqn:HN.
  all: repeat match goal with
         | H : exists _, _ |- _ => destruct H
         | H : _ /\ _ |- _ => destruct H
         end; subst.
  all: in_inv HW; in_inv HG.
  all: edestruct Hext as (r1 & r2 & Hr1 & Hr2);
    [ intros HN'; try discriminate HN';
      destruct (Hreach HN') as (ips & HP); in_inv HP;
      eexists; left; reflexivity
    | exact Hin
    | exists r1, r2; rewrite !in_app_iff; auto 10 ].
Qed.

(** For a service that is found, has a cluster IP and is not idled, in
    every pass of [deleteEndpoints] over a gateway whose gateway and worker
    load balancers are found, and whose physical IPs are found when the
    service type has a node port, every external IP of the service is
    cleared twice: on the gateway load balancer at (external IP, service
    port), and on the worker load balancer at (external IP, node port). *)
Theorem deleteEndpoints_clears_external_ips (cfg : config.t)
    (ext : Externals.t) (ovn : Controller.t) (ep : Endpoints.t)
    (h : History) (svc : Service.t) :
  ovn.(Controller.watchFactory_GetService) h ep.(Endpoints.Namespace)
    ep.(Endpoints.Name) = inl svc ->
  ext.(Externals.util_IsClusterIPSet) svc = true ->
  svcNeedsIdling cfg ext svc.(Service.Annotations) = false ->
  let g :=
    ovn.(Controller.getOvnGateways)
      (h ++ [EvGetService ep.(Endpoints.Namespace) ep.(Endpoints.Name)
               (inl svc);
             EvDeleteServiceFromIdlingBalancer svc]) in
  exists ts,
    deleteEndpoints cfg ext ovn ep h
    = Some (None, deleteEndpoints_prelude ep svc g ++ List.concat ts)
    /\ Forall2
         (fun svcPort t =>
            onEveryGateway (clearsExternalIPs ext svc svcPort)
              svc g.1 svcPort t)
         svc.(Service.Spec).(ServiceSpec.Ports) ts.
Proof.
  intros Esvc Hip Hidle g.
  destruct (deleteEndpoints_loop_run cfg ext ovn ep h svc Esvc Hip Hidle)
    as (ts & Hruns & Erun).
  exists ts. split; [exact Erun |].
  eapply for_range_runs_Forall2; [| exact Hruns].
  intros svcPort. apply deleteEndpoints_port_onEveryGateway.
  intros gateway. apply deleteEndpoints_gateway_externalIPs.
Qed.

(** The instance for a NodePort service with the external IP 1.2.3.4, in a
    cluster with one gateway. *)
Lemma deleteEndpoints_clears_external_ips_witness :
  exists ts,
    deleteEndpoints Ex.cfgShared Ex.ext (Ex.resolving Ex.nodePortService)
      (Ex.endpoints [Ex.podSubset]) []
    = Some (None,
            deleteEndpoints_prelude (Ex.endpoints [Ex.podSubset])
              Ex.nodePortService (["GR_node1"], None) ++ List.concat ts)
    /\ Forall2
         (fun svcPort t =>
            onEveryGateway
              (clearsExternalIPs Ex.ext Ex.nodePortService svcPort)
              Ex.nodePortService ["GR_node1"] svcPort t)
         [Ex.httpNodePort; Ex.dns] ts.
Proof.
  apply (deleteEndpoints_clears_external_ips Ex.cfgShared Ex.ext
           (Ex.resolving Ex.nodePortService) (Ex.endpoints [Ex.podSubset])
           [] Ex.nodePortService); reflexivity.
Defined.

(** ** deleteEndpoints: no gateway *)

Lemma deleteEndpoints_port_without_gateways cfg ext ovn (svc : Service.t)
    (svcPort : ServicePort.t) :
  ok (deleteEndpoints_port cfg ext ovn svc [] svcPort)
    (fun _ t => clearsClusterTierOnly svc svcPort t).
Proof.
  unfold deleteEndpoints_port, deleteEndpoints_clear.
  cbn zeta. cbn [for_range].
  ok_exec fail.
  all: unfold clearsClusterTierOnly; simpl.
  - eexists (_, Some _), [_].
    split; [| left; split; [discriminate | reflexivity]].
    Forall_explicit. exact I.
  - eexists (_, None), [_].
    split; [| right; split; [reflexivity | eexists; reflexivity]].
    Forall_explicit. exact I.
  - eexists (_, None), []. split; [constructor |].
    right. split; [reflexivity |]. eexists. reflexivity.
Qed.

(** For a service that is found, has a cluster IP and is not idled: when
    the listing of the gateways yields none, which is the case when it
    fails and returns nil, [deleteEndpoints] logs the failure, if any, and
    goes on with the cluster tier alone.  For every service port it looks
    up the cluster load balancer and clears the cluster address on it;
    no ingress, node-port or external-IP VIP is cleared on any node. *)
Theorem deleteEndpoints_without_gateways (cfg : config.t) (ext : Externals.t)
    (ovn : Controller.t) (ep : Endpoints.t) (h : History) (svc : Service.t) :
  ovn.(Controller.watchFactory_GetService) h ep.(Endpoints.Namespace)
    ep.(Endpoints.Name) = inl svc ->
  ext.(Externals.util_IsClusterIPSet) svc = true ->
  svcNeedsIdling cfg ext svc.(Service.Annotations) = false ->
  let g :=
    ovn.(Controller.getOvnGateways)
      (h ++ [EvGetService ep.(Endpoints.Namespace) ep.(Endpoints.Name)
               (inl svc);
             EvDeleteServiceFromIdlingBalancer svc]) in
  g.1 = [] ->
  exists ts,
    deleteEndpoints cfg ext ovn ep h
    = Some (None, deleteEndpoints_prelude ep svc g ++ List.concat ts)
    /\ Forall2 (clearsClusterTierOnly svc)
         svc.(Service.Spec).(ServiceSpec.Ports) ts.
Proof.
  intros Esvc Hip Hidle g Hnone.
  destruct (deleteEndpoints_loop_run cfg ext ovn ep h svc Esvc Hip Hidle)
    as (ts & Hruns & Erun).
  exists ts. split; [exact Erun |].
  fold g in Hruns. rewrite Hnone in Hruns.
  eapply for_range_runs_Forall2; [| exact Hruns].
  intros svcPort. apply deleteEndpoints_port_without_gateways.
Qed.

(** The instance for a NodePort service with an external IP and an ingress
    address, in a cluster whose gateways cannot be listed. *)
Lemma deleteEndpoints_without_gateways_witness :
  deleteEndpoints Ex.cfgShared Ex.ext
    (withoutGateways (MkError "no gateways" [])
       (Ex.resolving Ex.nodePortService))
    (Ex.endpoints [Ex.podSubset]) []
  = Some (None,
          [EvGetService "default" "web" (inl Ex.nodePortService);
           EvDeleteServiceFromIdlingBalancer Ex.nodePortService;
           EvGetOvnGateways ([], Ex.failure "no gateways");
           EvKlogError [ArgError (MkError "no gateways" [])];
           EvGetLoadBalancer "TCP" ("cluster-TCP", None);
           EvConfigureLoadBalancer "cluster-TCP" "10.96.0.10" 80 [] None;
           EvGetLoadBalancer "UDP" ("cluster-UDP", None);
           EvConfigureLoadBalancer "cluster-UDP" "10.96.0.10" 53 [] None])
  /\ exists ts,
       deleteEndpoints Ex.cfgShared Ex.ext
         (withoutGateways (MkError "no gateways" [])
            (Ex.resolving Ex.nodePortService))
         (Ex.endpoints [Ex.podSubset]) []
       = Some (None,
               deleteEndpoints_prelude (Ex.endpoints [Ex.podSubset])
                 Ex.nodePortService ([], Ex.failure "no gateways")
               ++ List.concat ts)
       /\ Forall2 (clearsClusterTierOnly Ex.nodePortService)
            [Ex.httpNodePort; Ex.dns] ts.
Proof.
  split; [vm_compute; reflexivity |].
  apply (deleteEndpoints_without_gateways Ex.cfgShared Ex.ext
           (withoutGateways (MkError "no gateways" [])
              (Ex.resolving Ex.nodePortService))
           (Ex.endpoints [Ex.podSubset]) [] Ex.nodePortService);
    reflexivity.
Defined.

(** ** handleNodePortLB: what it returns *)



(** ** handleNodePortLB: what the legacy replay lists and replays *)

Lemma isKlog_other (t : list Event) : Forall isKlog t -> Forall isOtherCall t.
Proof. apply List.Forall_impl. intros []; simpl; tauto. Qed.

Lemma isPassEvent_other (svcPort : ServicePort.t) (lbEps : lbEndpoints.t)
    (t : list Event) :
  Forall (isPassEvent svcPort lbEps) t -> Forall isOtherCall t.
Proof. apply List.Forall_impl. intros []; simpl; tauto. Qed.

Lemma isOtherCall_summary (t : list Event) :
  Forall isOtherCall t ->
  listedNamespaces t = [] /\ listedEndpoints t = []
  /\ servicesLookedUp t = [].
Proof.
  unfold listedNamespaces, listedEndpoints, servicesLookedUp.
  induction 1 as [|e t He _ (IH1 & IH2 & IH3)]; [repeat split |].
  cbn [flat_map]. rewrite IH1, IH2, IH3.
  destruct e; simpl in He; try contradiction; repeat split.
Qed.

Lemma AddEndpoints_one_lookup cfg ext ovn (ep : Endpoints.t)
    (addClusterLBs : bool) :
  ok (AddEndpoints cfg ext ovn ep addClusterLBs)
    (fun _ t =>
       exists r rest,
         t = EvGetService ep.(Endpoints.Namespace) ep.(Endpoints.Name) r
             :: rest
         /\ Forall isOtherCall rest).
Proof.
  unfold AddEndpoints.
  ok_exec ltac:(first
    [ apply getLbEndpoints_ok
    | apply (ok_for_range_Forall _ isOtherCall); intros svcPort;
      eapply ok_weaken;
      [ apply AddEndpoints_port_pass_events
      | intros [] tp [Hk | (lbEps & _ & _ & HF)];
        [ apply isKlog_other; exact Hk
        | eapply isPassEvent_other; exact HF ] ] ]).
  all: repeat match goal with
         | H : _ = invalidPortLogs _ /\ _ |- _ => destruct H as [-> _]
         end.
  all: do 2 eexists; split; [reflexivity |].
  all: simpl; Forall_explicit; try exact I.
  all: apply Forall_app; split;
    [apply isKlog_other, invalidPortLogs_klogs |].
  all: Forall_explicit; try exact I.
  rewrite app_nil_r. assumption.
Qed.

Lemma replay_of_listing cfg ext ovn (endpoints : list Endpoints.t) :
  ok (for_range endpoints
        (fun ep => AddEndpoints cfg ext ovn ep false ;; ret tt))
    (fun _ t =>
       listedNamespaces t = []
       /\ listedEndpoints t = []
       /\ servicesLookedUp t
          = map (fun ep => (ep.(Endpoints.Namespace), ep.(Endpoints.Name)))
              endpoints).
Proof.
  induction endpoints as [|ep endpoints IH]; cbn [for_range].
  - apply ok_ret. repeat split.
  - apply ok_bind_assoc.
    eapply ok_bind; [apply AddEndpoints_one_lookup |].
    intros r t1 (r' & rest & -> & Hrest).
    apply isOtherCall_summary in Hrest as (H1 & H2 & H3).
    eapply ok_bind; [apply ok_ret_eq |]. intros [] ? [_ ->].
    eapply ok_weaken; [apply IH |].
    intros [] t2 (I1 & I2 & I3).
    unfold listedNamespaces, listedEndpoints, servicesLookedUp in *.
    cbn [app flat_map map]. rewrite !List.flat_map_app.
    rewrite H1, H2, H3, I1, I2, I3. repeat split.
Qed.

Lemma replayNamespace_summary cfg ext ovn (ns : Namespace.t) :
  ok (replayNamespace cfg ext ovn ns)
    (fun _ t =>
       listedNamespaces t = [ns.(Namespace.Name)]
       /\ servicesLookedUp t = listedEndpoints t).
Proof.
  unfold replayNamespace.
  eapply ok_bind; [apply ok_call_eq |].
  intros [endpoints [err|]] ? ->; cbn [fst snd].
  - apply ok_emit. split; reflexivity.
  - eapply ok_weaken; [apply replay_of_listing |].
    intros [] t (H1 & H2 & H3).
    unfold listedNamespaces, listedEndpoints, servicesLookedUp in *.
    cbn [app flat_map]. rewrite H1, H2, H3, app_nil_r. split; reflexivity.
Qed.

(** In legacy mode, the gateway check passed and the namespaces listed,
    [handleNodePortLB] returns nil after listing the Endpoints of every
    namespace exactly once, in the order of the namespaces, whether or not
    earlier listings failed; and it runs [AddEndpoints], which begins with
    the lookup of the service of the object, exactly once on every object
    of every listing that succeeded, in the order of the listings. *)
Theorem handleNodePortLB_replays_every_listing (cfg : config.t)
    (ext : Externals.t) (ovn : Controller.t) (node : Node.t) (h : History)
    (pre : list Event) (namespaces : list Namespace.t) :
  gatewayCheckPasses ext ovn node h pre ->
  ovn.(Controller.svcController) = None ->
  ovn.(Controller.watchFactory_GetNamespaces) (h ++ pre) = (namespaces, None) ->
  exists t,
    handleNodePortLB cfg ext ovn node h
    = Some (None, pre ++ EvGetNamespaces (namespaces, None) :: t)
    /\ listedNamespaces t = map Namespace.Name namespaces
    /\ servicesLookedUp t = listedEndpoints t.
Proof.
  intros Hcheck Hsync Hns.
  destruct (handleNodePortLB_legacy_run cfg ext ovn node h pre namespaces
              Hcheck Hsync Hns) as (tns & Hruns & Erun).
  exists (List.concat tns). split; [exact Erun |].
  pose proof (for_range_runs_Forall2 _ _ _
                (fun ns => replayNamespace_summary cfg ext ovn ns) _ _ Hruns)
    as HF.
  clear Hruns Erun Hns.
  unfold listedNamespaces, listedEndpoints, servicesLookedUp in *.
  induction HF as [|ns tn nss tns' [Hn Hs] _ [IH1 IH2]];
    [split; reflexivity |].
  cbn [List.concat map]. rewrite !List.flat_map_app, Hn, Hs, IH1, IH2.
  split; reflexivity.
Qed.

(** The instance for the legacy controller of a cluster with the
    namespaces default, which holds one Endpoints object, and kube-system,
    whose listing fails. *)
Lemma handleNodePortLB_replays_every_listing_witness :
  exists t,
    handleNodePortLB Ex.cfgShared Ex.ext Ex.legacy (Node.mk "node1") []
    = Some (None,
            [EvGetGatewayPhysicalIPs "GR_node1" (["172.18.0.2"], None)]
            ++ EvGetNamespaces
                 ([Namespace.mk "default"; Namespace.mk "kube-system"], None)
            :: t)
    /\ listedNamespaces t = ["default"; "kube-system"]
    /\ servicesLookedUp t = listedEndpoints t.
Proof.
  apply (handleNodePortLB_replays_every_listing Ex.cfgShared Ex.ext Ex.legacy
           (Node.mk "node1") []
           [EvGetGatewayPhysicalIPs "GR_node1" (["172.18.0.2"], None)]
           [Namespace.mk "default"; Namespace.mk "kube-system"]).
  - unfold gatewayCheckPasses. simpl. split; [discriminate | reflexivity].
  - reflexivity.
  - reflexivity.
Defined.
